(** * String features: sequence store, k-mer packing, windows, loaders, codec

  A shallow embedding of [src/shogun/features/StringFeatures.cpp]
  (class [CStringFeatures<ST>]) together with the properties its
  specification states about it.

  Conventions of the embedding.
  - The element type [ST] of the template is an integer type of
    [ST_bits] bits, signed or not; its values are integers of [Z] and every
    conversion to [ST] is written out ([ST_cast]).  The floating point
    instantiations are specialised to empty bodies in the source and are
    not covered.
  - A byte ([uint8_t], [char] read as unsigned) is an integer in [0,256).
  - An [SGVector<ST>] is the list of its [vlen] elements.  Every sequence
    owns its buffer (the data model of the store): two slots never share
    memory in this embedding.
  - [error(...)], a failed [ASSERT], [require] and [not_implemented] throw;
    a call therefore ends in [Val] (it returned, with the store as the call
    left it), in [Exc] (it threw, with the store as it was at the throw) or
    in [Undefined] (it read or wrote outside a buffer, or left what the
    embedding represents).
  - The collaborators that live outside this file (alphabet tables,
    compressor, file system) are parameters of the sections below. *)

From Stdlib Require Import ZArith Lia.
From stdpp Require Import base list strings.

Local Open Scope Z_scope.

(** ** Loops *)

(** [for (i = 0; i < n; i++) s = body i s] *)
Fixpoint for_loop {S : Type} (n : nat) (body : nat -> S -> S) (s : S) : S :=
  match n with
  | O => s
  | Datatypes.S n' => body n' (for_loop n' body s)
  end.

(** ** Integer types *)

(** [(uint8_t) z] *)
Definition u8 (z : Z) : Z := z mod 256.

(** The value of the byte [c] read through a [char*] ([char] is signed on
    the machines the library is built for). *)
Definition schar (c : Z) : Z := if bool_decide (c < 128) then c else c - 256.

(** [(uint32_t) z] *)
Definition u32 (z : Z) : Z := z mod 2 ^ 32.

(** [(int32_t) z] *)
Definition i32 (z : Z) : Z := (z + 2 ^ 31) mod 2 ^ 32 - 2 ^ 31.

(** The element type of the template: [sizeof(ST) * 8] and the signedness
    of [ST]. *)
Class SymbolType := { ST_bits : Z; ST_signed : bool }.

Definition uint8_t : SymbolType := {| ST_bits := 8; ST_signed := false |}.
Definition int8_t : SymbolType := {| ST_bits := 8; ST_signed := true |}.
Definition uint16_t : SymbolType := {| ST_bits := 16; ST_signed := false |}.

Section SymbolType.

Context {ST : SymbolType}.

(** [sizeof(ST)] *)
Definition sizeof_ST : Z := ST_bits / 8.

(** [(ST) z]: the value of [z] in [ST], modulo [2 ^ ST_bits]. *)
Definition ST_cast (z : Z) : Z :=
  if ST_signed
  then (z + 2 ^ (ST_bits - 1)) mod 2 ^ ST_bits - 2 ^ (ST_bits - 1)
  else z mod 2 ^ ST_bits.

(** The values an [ST] object can hold. *)
Definition ST_range (z : Z) : Prop :=
  if ST_signed
  then - 2 ^ (ST_bits - 1) <= z < 2 ^ (ST_bits - 1)
  else 0 <= z < 2 ^ ST_bits.

(** [ST mask = 0; for (i = 0; i < n; i++) mask = (mask << 1) | (ST) 1;] *)
Definition ones_mask (n : Z) : Z :=
  for_loop (Z.to_nat n)
    (fun _ mask => ST_cast (Z.lor (Z.shiftl mask 1) (ST_cast 1))) 0.

(** *** [embed_word] and [unembed_word]

    [num_bits] is the value of [alphabet->get_num_bits()]; both functions
    keep it in a [uint32_t]. *)

(** [CStringFeatures<ST>::embed_word(ST* seq, int32_t len)] *)
Definition embed_word (num_bits : Z) (seq : list Z) (len : Z) : Z :=
  let nbits := u32 num_bits in
  for_loop (Z.to_nat len)
    (fun i value =>
       let value := ST_cast (Z.shiftl value nbits) in
       ST_cast (Z.lor value (seq !!! i)))
    (ST_cast 0).

(** One turn of the second loop of [unembed_word]: the state is [word] and
    the output buffer. *)
Definition unembed_step (nbits mask : Z) (to_char : Z -> Z) (len : Z)
    (i : nat) (st : Z * list Z) : Z * list Z :=
  let '(word, seq) := st in
  let w := ST_cast (Z.land word mask) in
  let seq := <[Z.to_nat (len - Z.of_nat i - 1) := to_char (u8 w)]> seq in
  (ST_cast (Z.shiftr word nbits), seq).

(** [CStringFeatures<ST>::unembed_word(ST word, uint8_t* seq, int32_t len)];
    [to_char] is [alphabet->remap_to_char] (its argument is a [uint8_t]).
    The buffer [seq] is returned as the call leaves it. *)
Definition unembed_word (num_bits : Z) (to_char : Z -> Z)
    (word : Z) (seq : list Z) (len : Z) : list Z :=
  let nbits := u32 num_bits in
  let mask := ones_mask nbits in
  snd (for_loop (Z.to_nat len) (unembed_step nbits mask to_char len) (word, seq)).

End SymbolType.

(** ** The alphabet

    [CAlphabet] is declared outside this file.  An alphabet object is its
    kind and its byte histogram ([int64_t histogram[256]]); what its tables
    hold is a parameter of the development. *)

(** [EAlphabet]: the kind, by its integral value (it is written to and read
    from one byte of the compressed format). *)
Definition EAlphabet := Z.

Record CAlphabet := {
  get_alphabet : EAlphabet;
  histogram : list Z;
}.

(** [new CAlphabet(kind)]: an empty histogram. *)
Definition new_CAlphabet (kind : EAlphabet) : CAlphabet :=
  {| get_alphabet := kind; histogram := replicate 256 0 |}.

(** Modelled from the spec: [CAlphabet::add_string_to_histogram] is declared
    outside this file; the alphabet state holds a byte-frequency histogram
    and [add_to_histogram(bytes,len)] counts the first [len] elements of
    the buffer, each converted to a byte. *)
Definition add_byte_to_histogram (h : list Z) (b : Z) : list Z :=
  <[Z.to_nat b := h !!! Z.to_nat b + 1]> h.

Definition add_string_to_histogram (a : CAlphabet) (p : list Z) (len : Z) : CAlphabet :=
  {| get_alphabet := get_alphabet a;
     histogram := for_loop (Z.to_nat len)
                    (fun i h => add_byte_to_histogram h (u8 (p !!! i)))
                    (histogram a) |}.

(** The tables and checks of [CAlphabet]. *)
Class AlphabetOps := {
  (** the enumerator [DNA] *)
  DNA : EAlphabet;
  (** [remap_to_bin(uint8_t) -> uint8_t] and [remap_to_char(uint8_t) -> uint8_t]
      of an alphabet of the given kind *)
  remap_to_bin : EAlphabet -> Z -> Z;
  remap_to_char : EAlphabet -> Z -> Z;
  (** [get_num_bits()] and [get_num_symbols()] *)
  get_num_bits : EAlphabet -> Z;
  get_num_symbols : EAlphabet -> Z;
  (** [is_valid(uint8_t)] *)
  is_valid : EAlphabet -> Z -> bool;
  (** [check_alphabet_size()], [check_alphabet()],
      [get_num_symbols_in_histogram()] *)
  check_alphabet_size : CAlphabet -> bool;
  check_alphabet : CAlphabet -> bool;
  get_num_symbols_in_histogram : CAlphabet -> Z;
}.

(** ** The store *)

(** [SGVector<ST>]: the elements [vector[0 .. vlen-1]]. *)
Abbreviation SGVector := (list Z).

(** [SGVector<ST>(len)]: a fresh buffer.  Its contents are indeterminate
    until written; the embedding fills it with zeros. *)
Definition new_SGVector (len : Z) : SGVector := replicate (Z.to_nat len) 0.

(** [v.vlen] and [v.size()] *)
Definition vlen (v : SGVector) : Z := Z.of_nat (length v).

(** Modelled from the spec: [SGVector::slice] is declared outside this
    file; [slice(l, h)] is the slice of the elements [l], ..., [h - 1]. *)
Definition slice (v : SGVector) (l h : Z) : SGVector :=
  take (Z.to_nat (h - l)) (drop (Z.to_nat l) v).

(** The members of [CStringFeatures<ST>] (and of its base [CFeatures]) the
    functions below read or write.  [single_string] is [None] when
    [single_string.vector] is null; [symbol_mask_table] likewise.
    [num_symbols] and [original_num_symbols] are [floatmax_t] in the source
    and only ever hold integers.  [preprocessors] is the chain
    [get_preprocessor(0)], ..., each by its [apply_to_string]. *)
Record CStringFeatures := {
  features : list SGVector;
  single_string : option SGVector;
  alphabet : CAlphabet;
  order : Z;
  num_symbols : Z;
  original_num_symbols : Z;
  symbol_mask_table : option (list Z);
  preprocess_on_get : bool;
  preprocessors : list (SGVector -> SGVector);
  m_subset_stack : list (list Z);
}.

Definition set_features_field (f : list SGVector) (s : CStringFeatures) :=
  {| features := f; single_string := single_string s; alphabet := alphabet s;
     order := order s; num_symbols := num_symbols s;
     original_num_symbols := original_num_symbols s;
     symbol_mask_table := symbol_mask_table s;
     preprocess_on_get := preprocess_on_get s; preprocessors := preprocessors s;
     m_subset_stack := m_subset_stack s |}.

Definition set_single_string (v : option SGVector) (s : CStringFeatures) :=
  {| features := features s; single_string := v; alphabet := alphabet s;
     order := order s; num_symbols := num_symbols s;
     original_num_symbols := original_num_symbols s;
     symbol_mask_table := symbol_mask_table s;
     preprocess_on_get := preprocess_on_get s; preprocessors := preprocessors s;
     m_subset_stack := m_subset_stack s |}.

Definition set_alphabet (a : CAlphabet) (s : CStringFeatures) :=
  {| features := features s; single_string := single_string s; alphabet := a;
     order := order s; num_symbols := num_symbols s;
     original_num_symbols := original_num_symbols s;
     symbol_mask_table := symbol_mask_table s;
     preprocess_on_get := preprocess_on_get s; preprocessors := preprocessors s;
     m_subset_stack := m_subset_stack s |}.

Definition set_order (o : Z) (s : CStringFeatures) :=
  {| features := features s; single_string := single_string s; alphabet := alphabet s;
     order := o; num_symbols := num_symbols s;
     original_num_symbols := original_num_symbols s;
     symbol_mask_table := symbol_mask_table s;
     preprocess_on_get := preprocess_on_get s; preprocessors := preprocessors s;
     m_subset_stack := m_subset_stack s |}.

Definition set_num_symbols (n : Z) (s : CStringFeatures) :=
  {| features := features s; single_string := single_string s; alphabet := alphabet s;
     order := order s; num_symbols := n;
     original_num_symbols := original_num_symbols s;
     symbol_mask_table := symbol_mask_table s;
     preprocess_on_get := preprocess_on_get s; preprocessors := preprocessors s;
     m_subset_stack := m_subset_stack s |}.

Definition set_original_num_symbols (n : Z) (s : CStringFeatures) :=
  {| features := features s; single_string := single_string s; alphabet := alphabet s;
     order := order s; num_symbols := num_symbols s;
     original_num_symbols := n;
     symbol_mask_table := symbol_mask_table s;
     preprocess_on_get := preprocess_on_get s; preprocessors := preprocessors s;
     m_subset_stack := m_subset_stack s |}.

Definition set_symbol_mask_table (t : option (list Z)) (s : CStringFeatures) :=
  {| features := features s; single_string := single_string s; alphabet := alphabet s;
     order := order s; num_symbols := num_symbols s;
     original_num_symbols := original_num_symbols s;
     symbol_mask_table := t;
     preprocess_on_get := preprocess_on_get s; preprocessors := preprocessors s;
     m_subset_stack := m_subset_stack s |}.

Definition set_subset_stack (st : list (list Z)) (s : CStringFeatures) :=
  {| features := features s; single_string := single_string s; alphabet := alphabet s;
     order := order s; num_symbols := num_symbols s;
     original_num_symbols := original_num_symbols s;
     symbol_mask_table := symbol_mask_table s;
     preprocess_on_get := preprocess_on_get s; preprocessors := preprocessors s;
     m_subset_stack := st |}.

(** ** Calls: a state and exception monad over the store *)

Inductive exception :=
| ShogunError (msg : string)      (* error(...) *)
| ShogunErrorAt (msg : string) (args : list Z)  (* error(...) and its arguments *)
| AssertFailed (cond : string)    (* ASSERT(cond) *)
| NotImplemented                  (* not_implemented(SOURCE_LOCATION) *)
| RequireFailed (msg : string)    (* require(cond, msg) *)
| SystemError (code : Z).         (* throw io::to_system_error(r) *)

Inductive result (A : Type) :=
| Val (a : A) (s : CStringFeatures)
| Exc (e : exception) (s : CStringFeatures)
| Undefined.
Arguments Val {A} a s.
Arguments Exc {A} e s.
Arguments Undefined {A}.

Definition M (A : Type) := CStringFeatures -> result A.

Definition ret {A} (a : A) : M A := fun s => Val a s.

Definition bind {A B} (c : M A) (k : A -> M B) : M B :=
  fun s => match c s with
           | Val a s' => k a s'
           | Exc e s' => Exc e s'
           | Undefined => Undefined
           end.

Definition get : M CStringFeatures := fun s => Val s s.
Definition modify (f : CStringFeatures -> CStringFeatures) : M unit :=
  fun s => Val tt (f s).
Definition throw {A} (e : exception) : M A := fun s => Exc e s.
Definition undefined {A} : M A := fun _ => Undefined.

(** [error(msg)], [ASSERT(cond)] *)
Definition error {A} (msg : string) : M A := throw (ShogunError msg).
Definition ASSERT (cond : bool) (text : string) : M unit :=
  if cond then ret tt else throw (AssertFailed text).

Declare Scope M_scope.
Delimit Scope M_scope with M.
Notation "x <- c1 ;; c2" := (bind c1 (fun x => c2))
  (at level 100, c1 at next level, right associativity) : M_scope.
Notation "c1 ;; c2" := (bind c1 (fun _ => c2))
  (at level 100, right associativity) : M_scope.

(** [for (i = 0; i < n; i++) body(i)], leaving at the first throw. *)
Fixpoint for_each (n : nat) (body : nat -> M unit) : M unit :=
  match n with
  | O => ret tt
  | S n' => bind (for_each n' body) (fun _ => body n')
  end.

(** A buffer access outside the buffer has no defined behaviour: reads and
    writes through a raw pointer are checked here, and a failed check ends
    the call in [Undefined]. *)
Definition read_at (v : SGVector) (i : Z) : option Z :=
  if bool_decide (0 <= i) then v !! Z.to_nat i else None.

Definition write_at (v : SGVector) (i : Z) (x : Z) : option SGVector :=
  if bool_decide (0 <= i < vlen v) then Some (<[Z.to_nat i := x]> v) else None.

(** [v.vlen = n] on a buffer of [vlen v] elements: the first [n] elements
    stay in view.  A length beyond the buffer is outside the embedding. *)
Definition set_vlen (v : SGVector) (n : Z) : option SGVector :=
  if bool_decide (0 <= n <= vlen v) then Some (take (Z.to_nat n) v) else None.

Definition lift_option {A} (o : option A) : M A :=
  match o with
  | Some a => ret a
  | None => undefined
  end.

(** ** Store operations *)

Section Store.

Context {ST : SymbolType} {AO : AlphabetOps}.

Local Open Scope M_scope.

(** [m_subset_stack->has_subsets()] *)
Definition has_subsets (s : CStringFeatures) : bool :=
  match m_subset_stack s with
  | [] => false
  | _ :: _ => true
  end.

(** Modelled from the spec: [CSubsetStack] is declared outside this file; it
    is an ordered stack of index arrays, [get_size()] is the size of the
    current logical view, and [subset_idx_conversion] composes all entries
    top-down (the empty stack is the identity). *)
Definition subset_get_size (s : CStringFeatures) : Z :=
  match m_subset_stack s with
  | [] => 0
  | top :: _ => vlen top
  end.

Fixpoint subset_resolve (stack : list (list Z)) (i : Z) : Z :=
  match stack with
  | [] => i
  | top :: rest => subset_resolve rest (top !!! Z.to_nat i)
  end.

Definition subset_idx_conversion (s : CStringFeatures) (i : Z) : Z :=
  subset_resolve (m_subset_stack s) i.

(** [CFeatures::remove_all_subsets()] ([subset_changed_post] is empty) *)
Definition remove_all_subsets : M unit := modify (set_subset_stack []).

(** [get_num_vectors()] *)
Definition get_num_vectors (s : CStringFeatures) : Z :=
  if has_subsets s then subset_get_size s else Z.of_nat (length (features s)).

(** [get_max_vector_length()] *)
Definition get_max_vector_length (s : CStringFeatures) : Z :=
  for_loop (Z.to_nat (get_num_vectors s))
    (fun i max_string_length =>
       Z.max max_string_length
         (vlen (features s !!! Z.to_nat (subset_idx_conversion s (Z.of_nat i)))))
    0.

(** [cleanup_feature_vectors(start, stop)] *)
Definition cleanup_feature_vectors (start stop : Z) : M unit :=
  s <- get ;;
  if bool_decide (get_num_vectors s = 0) then ret tt else
  ASSERT (bool_decide (stop < get_num_vectors s)) "stop<get_num_vectors()" ;;
  ASSERT (bool_decide (stop >= start /\ start >= 0)) "stop >= start && start >= 0" ;;
  for_each (Z.to_nat (stop - start + 1))
    (fun k =>
       s <- get ;;
       let real_num := subset_idx_conversion s (start + Z.of_nat k) in
       modify (set_features_field (<[Z.to_nat real_num := []]> (features s)))).

(** [cleanup()] *)
Definition cleanup : M unit :=
  remove_all_subsets ;;
  s <- get ;;
  match single_string s with
  | Some _ => modify (set_single_string None)
  | None => cleanup_feature_vectors 0 (get_num_vectors s - 1)
  end ;;
  modify (set_features_field []) ;;
  modify (set_symbol_mask_table None) ;;
  s <- get ;;
  let alpha := new_CAlphabet (get_alphabet (alphabet s)) in
  modify (set_alphabet alpha).

(** [set_features(const SGVector<ST>* p_features, int32_t p_num_vectors)];
    [p_features] is [None] for a null pointer. *)
Definition set_features (p_features : option (list SGVector)) (p_num_vectors : Z)
    : M bool :=
  s <- get ;;
  (if has_subsets s then error "Cannot call set_features() with subset." else ret tt) ;;
  match p_features with
  | Some pf =>
      let alpha := new_CAlphabet (get_alphabet (alphabet s)) in
      let alpha :=
        for_loop (Z.to_nat p_num_vectors)
          (fun i alpha => add_string_to_histogram alpha (pf !!! i) (vlen (pf !!! i)))
          alpha in
      if check_alphabet_size alpha && check_alphabet alpha then
        cleanup ;;
        modify (set_alphabet alpha) ;;
        modify (set_features_field []) ;;
        modify (set_features_field (take (Z.to_nat p_num_vectors) pf)) ;;
        ret true
      else ret false
  | None => ret false
  end.

(** [string_list.data()]: the standard leaves open whether the data pointer
    of an empty [std::vector] is null; [empty_data_is_null] says which. *)
Definition vector_data (empty_data_is_null : bool) (l : list SGVector)
    : option (list SGVector) :=
  match l with
  | [] => if empty_data_is_null then None else Some []
  | _ :: _ => Some l
  end.

(** [set_features(const std::vector<SGVector<ST>>& string_list)] *)
Definition set_features_list (empty_data_is_null : bool) (string_list : list SGVector)
    : M bool :=
  set_features (vector_data empty_data_is_null string_list)
    (Z.of_nat (length string_list)).

(** *** k-mer embedding of the whole store *)

(** The call [alphabet->remap_to_bin(c)] with [c] of type [ST]: the argument
    and the result are [uint8_t]. *)
Definition remap_bin (kind : EAlphabet) (c : Z) : Z :=
  u8 (remap_to_bin kind (u8 c)).

(** [str[j] = (ST) alphabet->remap_to_bin(str[j]);] *)
Definition remap_at (kind : EAlphabet) (str : SGVector) (j : Z) : option SGVector :=
  c ← read_at str j;
  write_at str j (ST_cast (remap_bin kind c)).

(** One turn of the loop "convert the rest" of [embed_features], at
    [j = p_order + t] and [idx = t].  The right-hand side is evaluated in
    the promoted type and converted to [ST] by the assignment. *)
Definition embed_rest_step (kind : EAlphabet) (p_order max_val mask : Z)
    (t : nat) (str : SGVector) : option SGVector :=
  let j := p_order + Z.of_nat t in
  let idx := Z.of_nat t in
  str ← remap_at kind str j;
  a ← read_at str idx;
  c ← read_at str j;
  write_at str (idx + 1) (ST_cast (Z.land (Z.lor (Z.shiftl a max_val) c) mask)).

(** The body of the loop over the sequences in [embed_features], on the
    buffer [str] of [len] elements: the first word, the rest, and the new
    length. *)
Definition embed_sequence (kind : EAlphabet) (p_order max_val mask : Z)
    (str : SGVector) : option SGVector :=
  let len := vlen str in
  str ← for_loop (Z.to_nat p_order)
          (fun j o => str ← o; remap_at kind str (Z.of_nat j)) (Some str);
  str ← write_at str 0 (embed_word max_val str p_order);
  str ← for_loop (Z.to_nat (len - p_order))
          (fun t o => str ← o; embed_rest_step kind p_order max_val mask t str)
          (Some str);
  set_vlen str (len - p_order + 1).

(** [(uint64_t) z] *)
Definition u64 (z : Z) : Z := z mod 2 ^ 64.

(** The table [compute_symbol_mask_table(max_val)] builds: entry [i] has
    the bit field [j] set for every bit [j] of the byte [i]. *)
Definition symbol_mask_entry (max_val : Z) (i : nat) : Z :=
  let mask := for_loop (Z.to_nat max_val)
                (fun _ mask => u64 (Z.lor (Z.shiftl mask 1) 1)) 0 in
  fst (for_loop 8
         (fun j '(entry, bits) =>
            let entry :=
              if Z.testbit bits 0
              then ST_cast (Z.lor entry (u64 (Z.shiftl mask (max_val * Z.of_nat j))))
              else entry in
            (entry, u8 (Z.shiftr bits 1)))
         (ST_cast 0, u8 (Z.of_nat i))).

(** [compute_symbol_mask_table(int64_t max_val)] *)
Definition compute_symbol_mask_table (max_val : Z) : M unit :=
  s <- get ;;
  (if has_subsets s then throw NotImplemented else ret tt) ;;
  modify (set_symbol_mask_table
            (Some (for_loop 256
                     (fun i table => <[i := symbol_mask_entry max_val i]> table)
                     (new_SGVector 256)))).

(** The body of the loop over the sequences in [embed_features], for
    sequence [i]. *)
Definition embed_features_body (kind : EAlphabet) (p_order max_val mask : Z)
    (i : nat) : M unit :=
  s <- get ;;
  str <- lift_option (features s !! i) ;;
  let len := vlen str in
  (if bool_decide (len < p_order)
   then error "Sequence must be longer than order"
   else ret tt) ;;
  str <- lift_option (embed_sequence kind p_order max_val mask str) ;;
  modify (set_features_field (<[i := str]> (features s))).

(** [embed_features(int32_t p_order)] *)
Definition embed_features (p_order : Z) : M unit :=
  s <- get ;;
  (if has_subsets s then throw NotImplemented else ret tt) ;;
  ASSERT (bool_decide (get_num_symbols_in_histogram (alphabet s) > 0))
    "alphabet->get_num_symbols_in_histogram() > 0" ;;
  let kind := get_alphabet (alphabet s) in
  modify (set_order p_order) ;;
  modify (set_original_num_symbols (get_num_symbols kind)) ;;
  let max_val := get_num_bits kind in
  modify (set_num_symbols
            (if bool_decide (p_order > 1) then 2 ^ (max_val * p_order)
             else get_num_symbols kind)) ;;
  let mask := ones_mask (p_order * max_val) in
  for_each (Z.to_nat (get_num_vectors s))
    (embed_features_body kind p_order max_val mask) ;;
  compute_symbol_mask_table max_val.

(** *** Window extraction *)

(** [obtain_by_sliding_window(window_size, step_size, skip)].  The local
    [num_vectors] is the value returned; the loop runs to
    [get_num_vectors()], the size of [features]. *)
Definition obtain_by_sliding_window (window_size step_size skip : Z) : M Z :=
  s <- get ;;
  (if has_subsets s then throw NotImplemented else ret tt) ;;
  let num_vectors := get_num_vectors s in
  let max_string_length := get_max_vector_length s in
  ASSERT (bool_decide (step_size > 0)) "step_size>0" ;;
  ASSERT (bool_decide (window_size > 0)) "window_size>0" ;;
  ASSERT (bool_decide (num_vectors = 1) || bool_decide (is_Some (single_string s)))
    "num_vectors==1 || single_string.vector" ;;
  ASSERT (bool_decide (max_string_length >= window_size)
          || match single_string s with
             | Some ss => bool_decide (vlen ss >= window_size)
             | None => false
             end)
    "max_string_length>=window_size || (single_string.vector && single_string.vlen>=window_size)" ;;
  let num_vectors :=
    match single_string s with
    | Some ss => Z.quot (vlen ss - window_size) step_size + 1
    | None =>
        if bool_decide (num_vectors = 1)
        then Z.quot (max_string_length - window_size) step_size + 1
        else num_vectors
    end in
  f <- for_loop (Z.to_nat (get_num_vectors s))
         (fun i (c : M (list SGVector)) =>
            f <- c ;;
            f0 <- lift_option (features s !! 0%nat) ;;
            let offs := Z.of_nat i * step_size in
            let l := offs + skip in
            let h := Z.min (offs + window_size) (vlen f0) in
            ret (f ++ [slice f0 l h]))
         (ret []) ;;
  f0 <- lift_option (features s !! 0%nat) ;;
  modify (set_single_string (Some f0)) ;;
  modify (set_features_field f) ;;
  ret num_vectors.

(** The loop of [obtain_by_position_list] from index [i] on, over the
    positions still to visit; [f] is the local vector of windows. *)
Fixpoint position_list_loop (window_size skip len : Z)
    (positions : list Z) (i : Z) (f : list SGVector) : M (list SGVector) :=
  match positions with
  | [] => ret f
  | p :: rest =>
      s <- get ;;
      f0 <- lift_option (features s !! 0%nat) ;;
      if bool_decide (p >= 0 /\ p <= len - window_size) then
        let l := p + skip in
        let h := Z.min (p + window_size) (vlen f0) in
        w <- lift_option (set_vlen (slice f0 l h) (window_size - skip)) ;;
        position_list_loop window_size skip len rest (i + 1) (f ++ [w])
      else
        f0 <- lift_option (set_vlen f0 len) ;;
        modify (set_features_field (<[0%nat := f0]> (features s))) ;;
        modify (set_single_string None) ;;
        throw (ShogunErrorAt
                 "window (size:{}) starting at position[{}]={} does not fit in sequence(len:{})"
                 [window_size; i; p; len])
  end.

(** [obtain_by_position_list(window_size, positions, skip)]; [positions] is
    [None] for a null pointer. *)
Definition obtain_by_position_list (window_size : Z) (positions : option (list Z))
    (skip : Z) : M Z :=
  s <- get ;;
  (if has_subsets s then throw NotImplemented else ret tt) ;;
  let num_vectors := get_num_vectors s in
  let max_string_length := get_max_vector_length s in
  ASSERT (bool_decide (is_Some positions)) "positions" ;;
  ASSERT (bool_decide (window_size > 0)) "window_size>0" ;;
  ASSERT (bool_decide (num_vectors = 1) || bool_decide (is_Some (single_string s)))
    "num_vectors==1 || single_string.vector" ;;
  ASSERT (bool_decide (max_string_length >= window_size)
          || match single_string s with
             | Some ss => bool_decide (vlen ss >= window_size)
             | None => false
             end)
    "max_string_length>=window_size || (single_string.vector && single_string.vlen>=window_size)" ;;
  let positions := default [] positions in
  let num_vectors := Z.of_nat (length positions) in
  ASSERT (bool_decide (num_vectors > 0)) "num_vectors>0" ;;
  len <- match single_string s with
         | Some ss => ret (vlen ss)
         | None =>
             f0 <- lift_option (features s !! 0%nat) ;;
             modify (set_single_string (Some f0)) ;;
             ret max_string_length
         end ;;
  f <- position_list_loop window_size skip len positions 0 [] ;;
  modify (set_features_field f) ;;
  ret num_vectors.

End Store.

(** ** Files and raw memory *)

(** The files a call can see: [file_data path] is the content [fopen(path,
    "r")] gives access to ([None] when the file cannot be opened), and
    [can_create path] says whether [fopen(path, "wb")] succeeds. *)
Record FileSystem := {
  file_data : string -> option (list Z);
  can_create : string -> bool;
}.

(** The file system after [path] was created and [data] written to it. *)
Definition write_file (fs : FileSystem) (path : string) (data : list Z) : FileSystem :=
  {| file_data := fun p => if decide (p = path) then Some data else file_data fs p;
     can_create := can_create fs |}.

(** The object representation of an integer in [n] bytes, low byte first,
    and the value of a run of bytes: what [fwrite(&x, sizeof x, 1, f)] and
    [fread(&x, sizeof x, 1, f)] move on the little-endian machines the
    library is built for. *)
Fixpoint le_bytes (n : nat) (z : Z) : list Z :=
  match n with
  | O => []
  | S n' => z mod 256 :: le_bytes n' (z / 256)
  end.

Fixpoint le_value (bs : list Z) : Z :=
  match bs with
  | [] => 0
  | b :: bs' => b + 256 * le_value bs'
  end.

(** [fread(&x, sizeof(int32_t), 1, file)] on the rest [stream] of the file:
    the value and the rest after it, or [None] when fewer than four bytes
    are left. *)
Definition fread_int32 (stream : list Z) : option (Z * list Z) :=
  if bool_decide (4 <= length stream)%nat
  then Some (i32 (le_value (take 4 stream)), drop 4 stream)
  else None.

(** [fread(&x, sizeof(uint8_t), 1, file)] *)
Definition fread_byte (stream : list Z) : option (Z * list Z) :=
  match stream with
  | [] => None
  | b :: rest => Some (b, rest)
  end.

(** The compressor ([CCompressor], outside this file), selected by the
    integral value of its [E_COMPRESSION_TYPE].
    - [compress type data level] is the buffer [compress] allocates for the
      bytes [data]; its length is [compressed_size].
    - [decompress type data capacity] is [None] when [decompress] throws,
      else the bytes it wrote to the destination; their number is what it
      stores back in [uncompressed_size]. *)
Class CompressorOps := {
  compress : Z -> list Z -> Z -> list Z;
  decompress : Z -> list Z -> Z -> option (list Z);
}.

Section RawMemory.

Context {ST : SymbolType}.

(** The buffer seen through a byte pointer: the bytes of its elements. *)
Fixpoint to_raw (v : SGVector) : list Z :=
  match v with
  | [] => []
  | x :: v' => le_bytes (Z.to_nat sizeof_ST) x ++ to_raw v'
  end.

(** The [n] elements of type [ST] a run of bytes holds. *)
Fixpoint of_raw (n : nat) (bytes : list Z) : SGVector :=
  match n with
  | O => []
  | S n' =>
      ST_cast (le_value (take (Z.to_nat sizeof_ST) bytes))
      :: of_raw n' (drop (Z.to_nat sizeof_ST) bytes)
  end.

(** Writing the bytes [out] at the start of a region holding [old]. *)
Definition overwrite (old out : list Z) : list Z :=
  take (length old) (out ++ drop (length out) old).

End RawMemory.

(** ** The compressed format *)

Section Codec.

Context {ST : SymbolType} {AO : AlphabetOps} {CO : CompressorOps}.

Local Open Scope M_scope.

(** [compute_feature_vector(num, len)]: a copy of the sequence, or a null
    pointer (here the empty buffer) when it is empty. *)
Definition compute_feature_vector (s : CStringFeatures) (num : Z) : SGVector :=
  let real_num := subset_idx_conversion s num in
  features s !!! Z.to_nat real_num.

(** [get_feature_vector(num, len, dofree)]: the buffer and its length. *)
Definition get_feature_vector (num : Z) : M SGVector :=
  s <- get ;;
  (if bool_decide (num >= get_num_vectors s)
   then error "Requested feature vector with index out of range"
   else ret tt) ;;
  let real_num := subset_idx_conversion s num in
  if negb (preprocess_on_get s) then
    lift_option (features s !! Z.to_nat real_num)
  else
    let feat := compute_feature_vector s num in
    ret (fold_left (fun feat p => p feat) (preprocessors s) feat).

(** The header [save_compressed] writes before the frames. *)
Definition compressed_header (compression : Z) (a : EAlphabet)
    (num_vectors max_string_length : Z) : list Z :=
  [83; 71; 86; 48]                         (* "SGV0" *)
  ++ [u8 compression]
  ++ [u8 a]
  ++ le_bytes 4 num_vectors
  ++ le_bytes 4 max_string_length.

(** The frame of one sequence: both lengths, then the compressed bytes. *)
Definition compressed_frame (compression level : Z) (vec : SGVector) : list Z :=
  let len := vlen vec in
  let compressed := compress compression (to_raw vec) level in
  let compressed_size := Z.of_nat (length compressed) in
  let len_compressed := i32 compressed_size in
  le_bytes 4 len_compressed ++ le_bytes 4 len ++ compressed.

(** [save_compressed(dest, compression, level)]: the value returned and
    the file system the call leaves. *)
Definition save_compressed (fs : FileSystem) (dest : string)
    (compression level : Z) : M (bool * FileSystem) :=
  s <- get ;;
  let num_vectors := get_num_vectors s in
  let max_string_length := get_max_vector_length s in
  (if has_subsets s then error "save_compressed() is not possible on subset"
   else ret tt) ;;
  if negb (can_create fs dest) then ret (false, fs) else
  let header := compressed_header compression (get_alphabet (alphabet s))
                  num_vectors max_string_length in
  out <- for_loop (Z.to_nat num_vectors)
           (fun i (c : M (list Z)) =>
              out <- c ;;
              vec <- get_feature_vector (Z.of_nat i) ;;
              ret (out ++ compressed_frame compression level vec))
           (ret header) ;;
  ret (true, write_file fs dest out).

(** [fread] of one item that must succeed. *)
Definition must_read {A} (r : option (A * list Z)) (msg : string) : M (A * list Z) :=
  match r with
  | Some x => ret x
  | None => error msg
  end.

(** [fread(buf, 1, n, file) != (size_t) n] is an error: [n] bytes must be
    left (a negative [n] converts to a count no file has). *)
Definition fread_bytes (n : Z) (stream : list Z) : option (list Z * list Z) :=
  if bool_decide (0 <= n <= Z.of_nat (length stream))
  then Some (take (Z.to_nat n) stream, drop (Z.to_nat n) stream)
  else None.

(** The body of the loop over the frames in [load_compressed]: one frame
    is read from [stream] and appended to [features]; the rest of the file
    is returned. *)
Definition load_frame (do_decompress : bool) (compression : Z)
    (stream : list Z) : M (list Z) :=
  r <- must_read (fread_int32 stream) "failed to read vector length compressed" ;;
  let len_compressed := fst r in
  let stream := snd r in
  r <- must_read (fread_int32 stream) "failed to read vector length uncompressed" ;;
  let len_uncompressed := fst r in
  let stream := snd r in
  s <- get ;;
  if do_decompress then
    let vec := new_SGVector len_uncompressed in
    modify (set_features_field (features s ++ [vec])) ;;
    r <- must_read (fread_bytes len_compressed stream)
           "failed to read compressed data" ;;
    let compressed := fst r in
    let stream := snd r in
    let uncompressed_size := u64 (u64 len_uncompressed * sizeof_ST) in
    match decompress compression compressed uncompressed_size with
    | None => error "decompression failed"
    | Some out =>
        modify (set_features_field
                  (features s
                   ++ [of_raw (length vec) (overwrite (to_raw vec) out)])) ;;
        ASSERT (bool_decide
                  (Z.of_nat (length out)
                   = u64 (u64 len_uncompressed * sizeof_ST)))
          "uncompressed_size==((uint64_t) len_uncompressed)*sizeof(ST)" ;;
        ret stream
    end
  else
    let offs := (8 + sizeof_ST - 1) / sizeof_ST in
    let vec := new_SGVector (len_compressed + offs) in
    let lengths := le_bytes 4 len_compressed ++ le_bytes 4 len_uncompressed in
    modify (set_features_field
              (features s
               ++ [of_raw (length vec) (overwrite (to_raw vec) lengths)])) ;;
    r <- must_read (fread_bytes len_compressed stream)
           "failed to read uncompressed data" ;;
    let compressed := fst r in
    let stream := snd r in
    let pad := replicate (Z.to_nat (offs * sizeof_ST - 8)) 0 in
    modify (set_features_field
              (features s
               ++ [of_raw (length vec)
                     (overwrite (to_raw vec) (lengths ++ pad ++ compressed))])) ;;
    ret stream.

(** [for (i = 0; i < num_vectors; i++)] over the frames. *)
Fixpoint load_frames (do_decompress : bool) (compression : Z) (n : nat)
    (stream : list Z) : M unit :=
  match n with
  | O => ret tt
  | S n' =>
      stream <- load_frame do_decompress compression stream ;;
      load_frames do_decompress compression n' stream
  end.

(** One byte of the tag "SGV0": the [fread] and the [ASSERT] after it. *)
Definition read_tag_byte (expected : Z) (text : string) (stream : list Z)
    : M (list Z) :=
  r <- must_read (fread_byte stream) "failed to read header" ;;
  ASSERT (bool_decide (fst r = expected)) text ;;
  ret (snd r).

(** [load_compressed(src, decompress)] *)
Definition load_compressed (fs : FileSystem) (src : string) (do_decompress : bool)
    : M bool :=
  remove_all_subsets ;;
  match file_data fs src with
  | None => ret false
  | Some stream =>
      cleanup ;;
      stream <- read_tag_byte 83 "id[0]=='S'" stream ;;
      stream <- read_tag_byte 71 "id[1]=='G'" stream ;;
      stream <- read_tag_byte 86 "id[2]=='V'" stream ;;
      stream <- read_tag_byte 48 "id[3]=='0'" stream ;;
      r <- must_read (fread_byte stream) "failed to read compression type" ;;
      let c := fst r in
      let stream := snd r in
      r <- must_read (fread_byte stream) "failed to read compression alphabet" ;;
      let a := fst r in
      let stream := snd r in
      modify (set_alphabet (new_CAlphabet a)) ;;
      r <- must_read (fread_int32 stream)
             "failed to read compression number of vectors" ;;
      let num_vectors := fst r in
      let stream := snd r in
      ASSERT (bool_decide (num_vectors > 0)) "num_vectors>0" ;;
      r <- must_read (fread_int32 stream) "failed to read maximum string length" ;;
      let max_string_length := fst r in
      let stream := snd r in
      ASSERT (bool_decide (max_string_length > 0)) "max_string_length>0" ;;
      modify (set_features_field []) ;;
      load_frames do_decompress c (Z.to_nat num_vectors) stream ;;
      ret false
  end.

End Codec.

(** ** The ASCII loader *)

Section AsciiLoader.

Context {ST : SymbolType} {AO : AlphabetOps}.

Local Open Scope M_scope.

(** [sz = fread(dummy, sizeof(uint8_t), blocksize, f)]: the bytes read
    ([sz] is their number) and the rest of the file. *)
Definition fread_block (blocksize : Z) (stream : list Z) : list Z * list Z :=
  (take (Z.to_nat blocksize) stream, drop (Z.to_nat blocksize) stream).

(** The variables of the first pass. *)
Record count_state := {
  c_num_vectors : Z;
  c_required_blocksize : Z;
  c_block_offs : Z;
  c_old_block_offs : Z;
}.

(** The test that ends a record at position [i] of a block of [sz] bytes:
    [dummy[i]=='\n' || (i==sz-1 && sz<blocksize)] *)
Definition record_ends (blocksize : Z) (dummy : list Z) (i : nat) : bool :=
  let sz := vlen dummy in
  bool_decide (dummy !!! i = 10)
  || (bool_decide (Z.of_nat i = sz - 1) && bool_decide (sz < blocksize)).

(** The [for] loop of the first pass over one block. *)
Definition count_block (blocksize : Z) (dummy : list Z) (st : count_state)
    : count_state :=
  for_loop (length dummy)
    (fun i st =>
       let block_offs := c_block_offs st + 1 in
       if record_ends blocksize dummy i then
         {| c_num_vectors := c_num_vectors st + 1;
            c_required_blocksize :=
              Z.max (c_required_blocksize st) (block_offs - c_old_block_offs st);
            c_block_offs := block_offs;
            c_old_block_offs := block_offs |}
       else
         {| c_num_vectors := c_num_vectors st;
            c_required_blocksize := c_required_blocksize st;
            c_block_offs := block_offs;
            c_old_block_offs := c_old_block_offs st |})
    st.

(** [while (sz == blocksize)] of the first pass; [None] when the fuel runs
    out before the loop ends. *)
Fixpoint count_lines (fuel : nat) (blocksize sz : Z) (stream : list Z)
    (st : count_state) : option count_state :=
  match fuel with
  | O => None
  | S fuel' =>
      if bool_decide (sz = blocksize) then
        let dummy := fst (fread_block blocksize stream) in
        let stream := snd (fread_block blocksize stream) in
        count_lines fuel' blocksize (vlen dummy) stream
          (count_block blocksize dummy st)
      else Some st
  end.

(** The variables of the second pass.  [r_overflow] holds the
    [overflow_len] bytes carried over from the block before.
    [r_out_of_bounds] is not a variable of the source: it records that a
    write went past the end of its buffer (such a write is dropped here). *)
Record read_state := {
  r_features : list SGVector;
  r_alpha : CAlphabet;
  r_alpha_bin : CAlphabet;
  r_overflow : list Z;
  r_lines : Z;
  r_old_sz : Z;
  r_out_of_bounds : bool;
}.

(** [vec.vector[j] = x] through the raw pointer. *)
Definition store_at (j : Z) (x : Z) (st : SGVector * bool) : SGVector * bool :=
  if bool_decide (0 <= j < vlen (fst st))
  then (<[Z.to_nat j := x]> (fst st), snd st)
  else (fst st, true).

(** The record that ends at position [i] of the block [dummy]. *)
Definition read_record (remap : bool) (dummy : list Z) (i : nat) (st : read_state)
    : read_state :=
  let old_sz := r_old_sz st in
  let overflow := r_overflow st in
  let overflow_len := vlen overflow in
  let len := Z.of_nat i - old_sz in
  let conv (c : Z) :=
    if remap then ST_cast (remap_bin (get_alphabet (r_alpha st)) c)
    else ST_cast c in
  let vec := (new_SGVector len, false) in
  let vec := for_loop (Z.to_nat overflow_len)
               (fun j vec => store_at (Z.of_nat j) (conv (overflow !!! j)) vec) vec in
  let vec := for_loop (Z.to_nat len)
               (fun j vec =>
                  store_at (Z.of_nat j + overflow_len)
                    (conv (dummy !!! Z.to_nat (old_sz + Z.of_nat j))) vec) vec in
  let record := drop (Z.to_nat old_sz) dummy in
  let alpha := add_string_to_histogram (r_alpha st) record len in
  let in_range :=
    bool_decide (0 <= r_lines st < Z.of_nat (length (r_features st))) in
  {| r_features :=
       if in_range then <[Z.to_nat (r_lines st) := fst vec]> (r_features st)
       else r_features st;
     r_alpha :=
       if remap then alpha
       else add_string_to_histogram alpha (fst vec) (vlen (fst vec));
     r_alpha_bin :=
       if remap
       then add_string_to_histogram (r_alpha_bin st) (fst vec) (vlen (fst vec))
       else r_alpha_bin st;
     r_overflow := [];
     r_lines := r_lines st + 1;
     r_old_sz := Z.of_nat i + 1;
     r_out_of_bounds := r_out_of_bounds st || snd vec || negb in_range |}.

(** One block of the second pass: the [for] loop over its bytes, then the
    copy of the unfinished record to [overflow]. *)
Definition read_block (remap : bool) (blocksize : Z) (dummy : list Z)
    (st : read_state) : read_state :=
  let st :=
    {| r_features := r_features st; r_alpha := r_alpha st;
       r_alpha_bin := r_alpha_bin st; r_overflow := r_overflow st;
       r_lines := r_lines st; r_old_sz := 0;
       r_out_of_bounds := r_out_of_bounds st |} in
  let st := for_loop (length dummy)
              (fun i st =>
                 if record_ends blocksize dummy i
                 then read_record remap dummy i st else st) st in
  {| r_features := r_features st; r_alpha := r_alpha st;
     r_alpha_bin := r_alpha_bin st;
     r_overflow := drop (Z.to_nat (r_old_sz st)) dummy;
     r_lines := r_lines st; r_old_sz := r_old_sz st;
     r_out_of_bounds := r_out_of_bounds st |}.

(** [while (sz == blocksize)] of the second pass. *)
Fixpoint read_lines (fuel : nat) (remap : bool) (blocksize sz : Z)
    (stream : list Z) (st : read_state) : option read_state :=
  match fuel with
  | O => None
  | S fuel' =>
      if bool_decide (sz = blocksize) then
        let dummy := fst (fread_block blocksize stream) in
        let stream := snd (fread_block blocksize stream) in
        read_lines fuel' remap blocksize (vlen dummy) stream
          (read_block remap blocksize dummy st)
      else Some st
  end.

(** Both passes over the content [file] of the opened file: the state the
    second pass ends in. *)
Definition load_ascii_passes (fuel : nat) (remap : bool)
    (ascii_alphabet binary_alphabet : EAlphabet) (file : list Z)
    : option read_state :=
  let fsize := vlen file in
  let blocksize := 1024 * 1024 in
  let blocksize := if bool_decide (blocksize > fsize) then fsize else blocksize in
  counted ← count_lines fuel blocksize blocksize file
              {| c_num_vectors := 0; c_required_blocksize := 0;
                 c_block_offs := 0; c_old_block_offs := 0 |};
  let blocksize := c_required_blocksize counted in
  read_lines fuel remap blocksize blocksize file
    {| r_features := replicate (Z.to_nat (c_num_vectors counted)) [];
       r_alpha := new_CAlphabet ascii_alphabet;
       r_alpha_bin := new_CAlphabet binary_alphabet;
       r_overflow := []; r_lines := 0; r_old_sz := 0;
       r_out_of_bounds := false |}.

(** [load_ascii_file(fname, remap_to_bin, ascii_alphabet, binary_alphabet)];
    [None] when [fuel] is too little for the loops of the call. *)
Definition load_ascii_file (fuel : nat) (fs : FileSystem) (fname : string)
    (remap : bool) (ascii_alphabet binary_alphabet : EAlphabet)
    (s : CStringFeatures) : option (result unit) :=
  let before : M unit := remove_all_subsets ;; cleanup in
  let finish (alpha alpha_bin : CAlphabet) : M unit :=
    modify (set_alphabet (if remap then alpha_bin else alpha)) ;;
    s <- get ;;
    modify (set_num_symbols (get_num_symbols (get_alphabet (alphabet s)))) in
  match file_data fs fname with
  | None =>
      Some ((before ;;
             finish (new_CAlphabet ascii_alphabet) (new_CAlphabet binary_alphabet)) s)
  | Some file =>
      st ← load_ascii_passes fuel remap ascii_alphabet binary_alphabet file;
      Some ((before ;;
             (if r_out_of_bounds st then undefined else ret tt) ;;
             modify (set_features_field (r_features st)) ;;
             finish (r_alpha st) (r_alpha_bin st)) s)
  end.

End AsciiLoader.

(** ** The FASTQ loader *)

(** Modelled from the spec: [CMemoryMappedFile] is declared outside this
    file; the byte source offers [get_line(offset) -> (bytes, len,
    newOffset)] and [line_count()].  A line runs from [offs] to the next
    newline, which the new offset skips; when no newline is left the call
    gives a null pointer ([None]), length 0 and the size of the file as
    offset.  The number of lines is the number of newlines. *)
Fixpoint find_newline (bytes : list Z) : option nat :=
  match bytes with
  | [] => None
  | b :: rest =>
      if bool_decide (b = 10) then Some O else S <$> find_newline rest
  end.

Definition get_line (file : list Z) (offs : Z) : option (list Z) * Z * Z :=
  let rest := drop (Z.to_nat offs) file in
  match find_newline rest with
  | Some k => (Some (take k rest), Z.of_nat k, offs + Z.of_nat k + 1)
  | None => (None, 0, vlen file)
  end.

Definition get_num_lines (file : list Z) : Z :=
  Z.of_nat (length (filter (fun b => b = 10) file)).

Section FastqLoader.

Context {ST : SymbolType} {AO : AlphabetOps}.

Local Open Scope M_scope.

(** The local variables of [load_fastq_file] the loop over the reads
    changes: the offset into the file and the vector [strings]. *)
Record fastq_state := {
  q_offs : Z;
  q_strings : list SGVector;
  q_max_len : Z;
}.

(** [get_line] where a null pointer is an error; the line, its length and
    the new offset. *)
Definition must_get_line (file : list Z) (offs : Z) (msg : string)
    : M (list Z * Z * Z) :=
  match get_line file offs with
  | (Some line, len, offs) => ret (line, len, offs)
  | (None, _, _) => error msg
  end.

(** The body of the loop over the reads, for read [i]. *)
Definition fastq_read (file : list Z) (ignore_invalid bitremap : bool)
    (i : nat) (st : fastq_state) : M fastq_state :=
  s <- get ;;
  let kind := get_alphabet (alphabet s) in
  r <- must_get_line file (q_offs st) "Error reading 'read' identifier" ;;
  let offs := snd r in
  r <- must_get_line file offs "Error reading 'read'" ;;
  let line := fst (fst r) in
  let len := snd (fst r) in
  let offs := snd r in
  (if bool_decide (len = 0) then error "Error reading 'read'" else ret tt) ;;
  st <-
    (if bitremap then
       (if bool_decide (len <> u64 (order s))
        then error "read not of length order"
        else ret tt) ;;
       let str := for_loop (Z.to_nat (order s))
                    (fun j str =>
                       <[j := ST_cast (remap_bin kind (line !!! j))]> str)
                    (new_SGVector (order s)) in
       agg <- lift_option (q_strings st !! 0%nat) ;;
       agg <- lift_option
                (write_at agg (Z.of_nat i) (embed_word (get_num_bits kind) str (order s))) ;;
       ret {| q_offs := offs; q_strings := <[0%nat := agg]> (q_strings st);
              q_max_len := q_max_len st |}
     else
       let str := for_loop (Z.to_nat len)
                    (fun j str =>
                       let c := line !!! j in
                       <[j := if ignore_invalid
                              then (if is_valid kind (u8 c) then ST_cast (schar c)
                                    else ST_cast 65)
                              else ST_cast (schar c)]> str)
                    (new_SGVector len) in
       ret {| q_offs := offs; q_strings := <[i := str]> (q_strings st);
              q_max_len := Z.max (q_max_len st) (i32 len) |}) ;;
  r <- must_get_line file (q_offs st) "Error reading 'read' quality identifier" ;;
  r <- must_get_line file (snd r) "Error reading 'read' quality" ;;
  ret {| q_offs := snd r; q_strings := q_strings st; q_max_len := q_max_len st |}.

(** [for (i=0; i<num; i++)] over the reads. *)
Fixpoint fastq_reads (file : list Z) (ignore_invalid bitremap : bool)
    (num : nat) (st : fastq_state) : M fastq_state :=
  match num with
  | O => ret st
  | S num' =>
      st <- fastq_reads file ignore_invalid bitremap num' st ;;
      fastq_read file ignore_invalid bitremap num' st
  end.

(** [load_fastq_file(fname, ignore_invalid, bitremap_in_single_string)];
    mapping a file that cannot be opened throws. *)
Definition load_fastq_file (fs : FileSystem) (fname : string)
    (ignore_invalid bitremap : bool) : M bool :=
  remove_all_subsets ;;
  file <- match file_data fs fname with
          | Some file => ret file
          | None => error "Error opening file"
          end ;;
  let num := get_num_lines file in
  (if bool_decide (Z.rem num 4 <> 0)
   then error "Number of lines must be divisible by 4 in fastq files"
   else ret tt) ;;
  let num := Z.quot num 4 in
  cleanup ;;
  modify (set_alphabet (new_CAlphabet DNA)) ;;
  st <-
    (if bitremap then
       let r1 := get_line file 0 in
       let r2 := get_line file (snd r1) in
       let len := snd (fst r2) in
       modify (set_order (i32 len)) ;;
       modify (set_original_num_symbols (get_num_symbols DNA)) ;;
       ret {| q_offs := 0; q_strings := [new_SGVector num]; q_max_len := num |}
     else
       ret {| q_offs := 0; q_strings := replicate (Z.to_nat num) [];
              q_max_len := 0 |}) ;;
  st <- fastq_reads file ignore_invalid bitremap (Z.to_nat num) st ;;
  modify (set_features_field (q_strings st)) ;;
  ret true.

End FastqLoader.

(** ** The directory loader *)

(** The file system registry [env()] ([io::FileSystem], outside this file).
    Its calls report through a [std::error_condition], here its value: 0
    for success, so that [if (r)] and [!r] test [r <> 0] and [r = 0].
    - [is_directory path] is 0 when [path] is a directory: the [require] on
      the path given to [load_from_directory] and the message of the branch
      that skips a child both read it that way;
    - [get_children dir] is the condition and the names of the entries;
    - [new_random_access_file path] is 0 when the file could be opened;
    - [file_read path offset n] is the condition of [file->read(offset, n,
      &result, scratch)] on the opened file;
    - [join_path] is [io::join_path]. *)
Class FsRegistry := {
  is_directory : string -> Z;
  get_children : string -> Z * list string;
  get_file_size : string -> Z;
  new_random_access_file : string -> Z;
  file_read : string -> Z -> Z -> Z;
  join_path : string -> string -> string;
}.

Section DirectoryLoader.

Context {ST : SymbolType} {AO : AlphabetOps} {FS : FsRegistry}.

Local Open Scope M_scope.

(** The body of the loop over the children: [strings] is the local vector
    of sequences ([num] is its size).  The [sg_memcpy] has the read buffer
    as destination and the new sequence as source: it reads [filesize]
    bytes of the sequence and leaves it as allocated. *)
Definition load_child (dirname v : string) (strings : list SGVector)
    : M (list SGVector) :=
  let fname := join_path dirname v in
  if bool_decide (is_directory fname <> 0) then
    let filesize := get_file_size fname in
    if bool_decide (new_random_access_file fname = 0) then
      (if bool_decide (file_read fname 0 filesize <> 0)
       then error "failed to read file" else ret tt) ;;
      let sg_string_len := Z.quot filesize sizeof_ST in
      let vec := new_SGVector sg_string_len in
      (if bool_decide (filesize <= vlen vec * sizeof_ST) then ret tt else undefined) ;;
      ret (strings ++ [vec])
    else ret strings
  else ret strings.

(** [load_from_directory(dirname)]; [empty_data_is_null] as in
    [vector_data]. *)
Definition load_from_directory (empty_data_is_null : bool) (dirname : string)
    : M bool :=
  remove_all_subsets ;;
  (if bool_decide (is_directory dirname = 0) then ret tt
   else throw (RequireFailed "Specified path is not a directory!")) ;;
  let r := fst (get_children dirname) in
  let children := snd (get_children dirname) in
  (if bool_decide (r <> 0) then throw (SystemError r) else ret tt) ;;
  if bool_decide (length children <= 0)%nat then
    error "error calling scandir - no files found"
  else
    strings <- fold_left
                 (fun (c : M (list SGVector)) v =>
                    strings <- c ;; load_child dirname v strings)
                 children (ret []) ;;
    let num := Z.of_nat (length strings) in
    if bool_decide (num > 0)
    then set_features_list empty_data_is_null strings
    else ret false.

End DirectoryLoader.

(** ** Access to single sequences *)

Section Accessors.

Context {ST : SymbolType} {AO : AlphabetOps}.

Local Open Scope M_scope.

(** [features[i] = v]: the slot must exist. *)
Definition assign_feature (i : Z) (v : SGVector) : M unit :=
  s <- get ;;
  if bool_decide (0 <= i < Z.of_nat (length (features s)))
  then modify (set_features_field (<[Z.to_nat i := v]> (features s)))
  else undefined.


(** [free_feature_vector(feat_vec, num, dofree)] and
    [free_feature_vector(SGVector<ST> feat_vec, num)]: [feature_cache] is
    null in every store this file builds, and releasing the buffer leaves
    no trace in the store. *)
Definition free_feature_vector (num : Z) : M unit :=
  s <- get ;;
  if bool_decide (num >= get_num_vectors s)
  then error "Trying to access string[{}] but num_str={}"
  else ret tt.

(** [get_feature_vector(int32_t num)], the overload that returns an
    [SGVector<ST>]: a copy of the sequence. *)
Definition get_feature_vector_SGVector (num : Z) : M SGVector :=
  s <- get ;;
  (if bool_decide (num >= get_num_vectors s)
   then error "Index out of bounds (number of strings {}, you requested {})"
   else ret tt) ;;
  vec <- get_feature_vector num ;;
  let dst := vec in
  free_feature_vector num ;;
  ret dst.

(** [set_feature_vector(SGVector<ST> vector, int32_t num)] *)
Definition set_feature_vector (vector : SGVector) (num : Z) : M unit :=
  s <- get ;;
  (if has_subsets s then error "A subset is set, cannot set feature vector"
   else ret tt) ;;
  (if bool_decide (num >= get_num_vectors s)
   then error "Index out of bounds (number of strings {}, you requested {})"
   else ret tt) ;;
  (if bool_decide (vlen vector <= 0)
   then error "String has zero or negative length"
   else ret tt) ;;
  assign_feature num vector.



(** [get_vector_length(vec_num)] *)
Definition get_vector_length (vec_num : Z) : M Z :=
  s <- get ;;
  ASSERT (bool_decide (vec_num < get_num_vectors s)) "vec_num<get_num_vectors()" ;;
  vec <- get_feature_vector vec_num ;;
  free_feature_vector vec_num ;;
  ret (vlen vec).

(** The loop of [have_same_length] from index [i] on, [n] sequences to go. *)
Fixpoint have_same_length_loop (len : Z) (i : Z) (n : nat) : M bool :=
  match n with
  | O => ret true
  | S n' =>
      l <- get_vector_length i ;;
      if bool_decide (l <> len) then ret false
      else have_same_length_loop len (i + 1) n'
  end.

(** [have_same_length(int32_t len)]; a call without argument passes [-1],
    the value the body tests for. *)
Definition have_same_length (len : Z) : M bool :=
  s <- get ;;
  let max_string_length := get_max_vector_length s in
  if bool_decide (len <> -1) && bool_decide (len <> max_string_length)
  then ret false
  else
    let len := max_string_length in
    let num_str := get_num_vectors s in
    have_same_length_loop len 0 (Z.to_nat num_str).

(** [for (j = 0; j < num_vec; j++) sf[j].vector[i] = vec[j];] *)
Definition transpose_column (num_vec : Z) (i : Z) (vec : SGVector)
    (sf : list SGVector) : option (list SGVector) :=
  for_loop (Z.to_nat num_vec)
    (fun j o =>
       sf ← o;
       x ← read_at vec (Z.of_nat j);
       row ← sf !! j;
       row ← write_at row i x;
       Some (<[j := row]> sf))
    (Some sf).

(** [get_transposed_matrix()] *)
Definition get_transposed_matrix : M (list SGVector) :=
  s <- get ;;
  let num_feat := get_num_vectors s in
  let num_vec := get_max_vector_length s in
  b <- have_same_length (-1) ;;
  ASSERT b "have_same_length()" ;;
  let sf := replicate (Z.to_nat num_vec) (new_SGVector num_feat) in
  for_loop (Z.to_nat num_feat)
    (fun i (c : M (list SGVector)) =>
       sf <- c ;;
       vec <- get_feature_vector (Z.of_nat i) ;;
       sf <- lift_option (transpose_column num_vec (Z.of_nat i) vec sf) ;;
       free_feature_vector (Z.of_nat i) ;;
       ret sf)
    (ret sf).

(** [get_string_list()] *)
Definition get_string_list : M (list SGVector) :=
  s <- get ;;
  if has_subsets s then error "get features() is not possible on subset"
  else ret (features s).

(** [copy_features()]; the store is the same at every turn of the loop,
    which therefore runs [get_num_vectors()] times. *)
Definition copy_features : M (list SGVector) :=
  s <- get ;;
  ASSERT (bool_decide (get_num_vectors s > 0)) "get_num_vectors()>0" ;;
  for_loop (Z.to_nat (get_num_vectors s))
    (fun i (c : M (list SGVector)) =>
       new_feat <- c ;;
       vec <- get_feature_vector_SGVector (Z.of_nat i) ;;
       free_feature_vector (Z.of_nat i) ;;
       ret (new_feat ++ [vec]))
    (ret []).

(** [append_features(const std::vector<SGVector<ST>>& p_features)].  The
    loop that joins the old and the new sequences runs to
    [get_num_vectors()], the number of sequences stored. *)
Definition append_features (empty_data_is_null : bool) (p_features : list SGVector)
    : M bool :=
  s <- get ;;
  (if has_subsets s then error "Cannot call set_features() with subset." else ret tt) ;;
  match features s with
  | [] => set_features_list empty_data_is_null p_features
  | _ :: _ =>
      let count (a : CAlphabet) :=
        for_loop (length p_features)
          (fun i alpha =>
             add_string_to_histogram alpha (p_features !!! i) (vlen (p_features !!! i)))
          a in
      let alpha := count (new_CAlphabet (get_alphabet (alphabet s))) in
      if check_alphabet_size alpha && check_alphabet alpha then
        modify (set_alphabet (count (alphabet s))) ;;
        s <- get ;;
        let old_num_vectors := get_num_vectors s in
        new_features <-
          for_loop (Z.to_nat (get_num_vectors s))
            (fun i (c : M (list SGVector)) =>
               new_features <- c ;;
               x <- lift_option
                      (if bool_decide (Z.of_nat i < old_num_vectors)
                       then features s !! i
                       else p_features !! Z.to_nat (Z.of_nat i - old_num_vectors)) ;;
               ret (new_features ++ [x]))
            (ret []) ;;
        modify (set_features_field new_features) ;;
        ret true
      else ret false
  end.

(** *** Bit fields of a k-mer code *)

(** The width in bits of a value of [ST] after the integral promotions
    ([int] has 32 bits).  A shift by a negative count, or by that width or
    more, has no defined behaviour. *)
Definition promoted_bits : Z := Z.max 32 ST_bits.

(** [get_masked_symbols(symbol, mask)]; [mask] is a [uint8_t]. *)
Definition get_masked_symbols (symbol mask : Z) : M Z :=
  s <- get ;;
  match symbol_mask_table s with
  | None => throw (AssertFailed "symbol_mask_table")
  | Some table =>
      entry <- lift_option (read_at table (u8 mask)) ;;
      ret (ST_cast (Z.land entry symbol))
  end.

(** [shift_offset(offset, amount)] *)
Definition shift_offset (offset amount : Z) : M Z :=
  s <- get ;;
  let count := amount * get_num_bits (get_alphabet (alphabet s)) in
  if bool_decide (0 <= count < promoted_bits)
  then ret (ST_cast (Z.shiftl offset count))
  else undefined.

(** [shift_symbol(symbol, amount)] *)
Definition shift_symbol (symbol amount : Z) : M Z :=
  s <- get ;;
  let count := amount * get_num_bits (get_alphabet (alphabet s)) in
  if bool_decide (0 <= count < promoted_bits)
  then ret (ST_cast (Z.shiftr symbol count))
  else undefined.

End Accessors.

(** ** Copies of a store *)

Section Copies.

Context {ST : SymbolType} {AO : AlphabetOps}.

Local Open Scope M_scope.




End Copies.

(** ** Concrete collaborators

    Small instances of the parameters, used to run the definitions above on
    concrete inputs. *)

(** A four letter alphabet in the manner of the DNA alphabet: the codes of
    [A], [C], [G], [T] are 0, 1, 2, 3, on two bits; every other byte maps
    to 255 and is invalid; a histogram is accepted when it counts no
    invalid byte. *)
Definition example_to_bin (c : Z) : Z :=
  if bool_decide (c = 65) then 0
  else if bool_decide (c = 67) then 1
  else if bool_decide (c = 71) then 2
  else if bool_decide (c = 84) then 3
  else 255.

Definition example_to_char (b : Z) : Z :=
  if bool_decide (b = 0) then 65
  else if bool_decide (b = 1) then 67
  else if bool_decide (b = 2) then 71
  else if bool_decide (b = 3) then 84
  else 0.

Definition example_valid (c : Z) : bool := bool_decide (example_to_bin c <> 255).

Definition example_alphabet : AlphabetOps := {|
  DNA := 0;
  remap_to_bin := fun _ => example_to_bin;
  remap_to_char := fun _ => example_to_char;
  get_num_bits := fun _ => 2;
  get_num_symbols := fun _ => 4;
  is_valid := fun _ => example_valid;
  check_alphabet_size := fun _ => true;
  check_alphabet := fun a =>
    forallb (fun c => bool_decide (histogram a !!! c = 0)
                      || example_valid (Z.of_nat c)) (seq 0 256);
  get_num_symbols_in_histogram := fun a =>
    Z.of_nat (length (filter (fun n => n <> 0) (histogram a)));
|}.

(** The compressor that stores the bytes as they are. *)
Definition example_compressor : CompressorOps := {|
  compress := fun _ data _ => data;
  decompress := fun _ data _ => Some data;
|}.

(** A store as the constructor leaves it, holding the sequences [f]. *)
Definition example_store (f : list SGVector) : CStringFeatures := {|
  features := f;
  single_string := None;
  alphabet := new_CAlphabet 0;
  order := 0;
  num_symbols := 4;
  original_num_symbols := 4;
  symbol_mask_table := None;
  preprocess_on_get := false;
  preprocessors := [];
  m_subset_stack := [];
|}.

(** A file system with no file, in which every file can be created. *)
Definition empty_fs : FileSystem :=
  {| file_data := fun _ => None; can_create := fun _ => true |}.

(** * Properties *)

(** ** Integer conversions *)

Section SymbolTypeFacts.

Context {ST : SymbolType}.
Hypothesis ST_bits_pos : 0 < ST_bits.

Local Abbreviation cast := ST_cast.
Local Abbreviation range := ST_range.

Lemma ST_cast_mod z : cast z mod 2 ^ ST_bits = z mod 2 ^ ST_bits.
Proof.
  unfold ST_cast. destruct ST_signed.
  - assert (H2 : 2 ^ ST_bits = 2 * 2 ^ (ST_bits - 1)).
    { rewrite <- Z.pow_succ_r by lia. f_equal. lia. }
    rewrite Zminus_mod_idemp_l.
    replace (z + 2 ^ (ST_bits - 1) - 2 ^ (ST_bits - 1)) with z by lia.
    reflexivity.
  - apply Z.mod_mod. lia.
Qed.

Lemma ST_cast_range z : range (cast z).
Proof.
  unfold ST_cast, ST_range. destruct ST_signed.
  - assert (H2 : 2 ^ ST_bits = 2 * 2 ^ (ST_bits - 1)).
    { rewrite <- Z.pow_succ_r by lia. f_equal. lia. }
    pose proof (Z.mod_pos_bound (z + 2 ^ (ST_bits - 1)) (2 ^ ST_bits)).
    lia.
  - apply Z.mod_pos_bound. lia.
Qed.

Lemma ST_cast_id z : range z -> cast z = z.
Proof.
  unfold ST_cast, ST_range. destruct ST_signed; intros H.
  - assert (H2 : 2 ^ ST_bits = 2 * 2 ^ (ST_bits - 1)).
    { rewrite <- Z.pow_succ_r by lia. f_equal. lia. }
    rewrite Z.mod_small by lia. lia.
  - apply Z.mod_small. lia.
Qed.

Lemma ST_cast_testbit z k :
  0 <= k < ST_bits -> Z.testbit (cast z) k = Z.testbit z k.
Proof.
  intros Hk.
  rewrite <- (Z.mod_pow2_bits_low (cast z) ST_bits k) by lia.
  rewrite ST_cast_mod. apply Z.mod_pow2_bits_low. lia.
Qed.

Lemma ST_cast_congr x y :
  x mod 2 ^ ST_bits = y mod 2 ^ ST_bits -> cast x = cast y.
Proof.
  intros H. unfold ST_cast. destruct ST_signed.
  - rewrite <- (Zplus_mod_idemp_l x), <- (Zplus_mod_idemp_l y), H. reflexivity.
  - exact H.
Qed.

Lemma low_bits_mod x y :
  (forall k, 0 <= k < ST_bits -> Z.testbit x k = Z.testbit y k) ->
  x mod 2 ^ ST_bits = y mod 2 ^ ST_bits.
Proof.
  intros H. apply Z.bits_inj'. intros k Hk.
  destruct (Z.lt_ge_cases k ST_bits).
  - rewrite !Z.mod_pow2_bits_low by lia. apply H. lia.
  - rewrite !Z.mod_pow2_bits_high by lia. reflexivity.
Qed.

Lemma ST_cast_low_bits x y :
  (forall k, 0 <= k < ST_bits -> Z.testbit x k = Z.testbit y k) ->
  cast x = cast y.
Proof. intros H. apply ST_cast_congr, low_bits_mod, H. Qed.

End SymbolTypeFacts.

(** ** k-mer packing *)

Lemma testbit_mod_low_eq n x y :
  0 <= n ->
  (forall k, 0 <= k < n -> Z.testbit x k = Z.testbit y k) ->
  x mod 2 ^ n = y mod 2 ^ n.
Proof.
  intros Hn H. apply Z.bits_inj'. intros k Hk.
  destruct (Z.lt_ge_cases k n).
  - rewrite !Z.mod_pow2_bits_low by lia. apply H. lia.
  - rewrite !Z.mod_pow2_bits_high by lia. reflexivity.
Qed.

Lemma testbit_above x n k :
  0 <= x < 2 ^ n -> n <= k -> Z.testbit x k = false.
Proof.
  intros Hx Hk. destruct (Z.eq_dec x 0) as [->|Hne].
  - apply Z.bits_0.
  - apply Z.bits_above_log2; [lia|].
    assert (Z.log2 x < n); [|lia].
    apply Z.log2_lt_pow2; lia.
Qed.

Section KmerFacts.

Context {ST : SymbolType}.

(** The integer types [ST] is instantiated with have 8 to 64 bits. *)
Hypothesis ST_bits_byte : 8 <= ST_bits <= 64.

Lemma ones_mask_testbit n k :
  0 <= k < ST_bits ->
  Z.testbit (ones_mask n) k = bool_decide (k < Z.of_nat (Z.to_nat n)).
Proof.
  unfold ones_mask. generalize (Z.to_nat n) as m. clear n.
  intros m. revert k. induction m as [|m IH]; intros k Hk.
  - simpl. rewrite Z.bits_0. rewrite bool_decide_eq_false_2 by lia. done.
  - cbn [for_loop].
    rewrite ST_cast_testbit by lia.
    rewrite Z.lor_spec, ST_cast_testbit by lia.
    rewrite Z.shiftl_spec by lia.
    destruct (Z.eq_dec k 0) as [->|Hk0].
    + change (Z.testbit 1 0) with true. rewrite orb_true_r.
      rewrite bool_decide_eq_true_2 by lia. done.
    + rewrite IH by lia.
      replace (Z.testbit 1 k) with false.
      2:{ symmetry. apply (testbit_above 1 1); lia. }
      rewrite orb_false_r. apply bool_decide_ext. lia.
Qed.

(** The value of [embed_word] after [j] turns of its loop holds symbol
    [j - 1 - i] in its bit field [i]. *)
Lemma embed_word_field nbits (syms : list Z) (j i : nat) r :
  0 <= nbits < 2 ^ 32 ->
  Forall (fun s => 0 <= s < 2 ^ nbits) syms ->
  (j <= length syms)%nat -> (i < j)%nat ->
  0 <= r < nbits ->
  Z.of_nat i * nbits + r < ST_bits ->
  Z.testbit (embed_word nbits syms (Z.of_nat j)) (Z.of_nat i * nbits + r)
  = Z.testbit (syms !!! (j - 1 - i)%nat) r.
Proof.
  intros Hnb HS. unfold embed_word. rewrite Nat2Z.id.
  unfold u32. rewrite (Z.mod_small nbits) by lia.
  revert i r. induction j as [|j IH]; intros i r Hj Hi Hr Hlt; [lia|].
  cbn [for_loop].
  assert (Hsym : 0 <= syms !!! j < 2 ^ nbits).
  { destruct (lookup_lt_is_Some_2 syms j) as [x Hx]; [lia|].
    rewrite (list_lookup_total_correct _ _ _ Hx).
    rewrite Forall_forall in HS. apply HS.
    apply list_elem_of_lookup. eauto. }
  rewrite ST_cast_testbit by lia.
  rewrite Z.lor_spec, ST_cast_testbit by lia.
  rewrite Z.shiftl_spec by lia.
  destruct i as [|i].
  - replace (Z.of_nat 0 * nbits + r - nbits) with (r - nbits) by lia.
    rewrite Z.testbit_neg_r by lia. simpl orb.
    replace (Z.of_nat 0 * nbits + r) with r by lia.
    f_equal. f_equal. lia.
  - replace (Z.of_nat (S i) * nbits + r - nbits)
      with (Z.of_nat i * nbits + r) by lia.
    rewrite IH by lia.
    rewrite (testbit_above (syms !!! j) nbits) by (try apply Hsym; nia).
    rewrite orb_false_r. f_equal. f_equal. lia.
Qed.

(** The loop of [unembed_word]: after [i] turns the word has lost its [i]
    low bit fields and the output holds their characters at the positions
    [n-1], ..., [n-i]. *)
Lemma unembed_loop nbits to_char word0 (out0 : list Z) (n : nat) (sym : nat -> Z) :
  0 <= nbits ->
  Z.of_nat n * nbits <= ST_bits ->
  (n <= length out0)%nat ->
  (forall j r, (j < n)%nat -> 0 <= r < nbits ->
     Z.testbit word0 (Z.of_nat j * nbits + r) = Z.testbit (sym j) r) ->
  (forall j, (j < n)%nat -> 0 <= sym j < 2 ^ nbits) ->
  forall i, (i <= n)%nat ->
  let st := for_loop i (unembed_step nbits (ones_mask nbits) to_char (Z.of_nat n))
              (word0, out0) in
  (forall k, 0 <= k -> k + Z.of_nat i * nbits < ST_bits ->
     Z.testbit (fst st) k = Z.testbit word0 (k + Z.of_nat i * nbits))
  /\ length (snd st) = length out0
  /\ (forall j, (j < i)%nat ->
        snd st !! (n - 1 - j)%nat = Some (to_char (u8 (sym j)))).
Proof.
  intros Hnb Hfit Hout Hfield Hsym i. induction i as [|i IH]; intros Hi st.
  - subst st. simpl. repeat split; [|lia].
    intros k Hk _. f_equal. lia.
  - destruct IH as (IHw & IHlen & IHout); [lia|].
    subst st. cbn [for_loop].
    destruct (for_loop i _ _) as [word seq] eqn:Est. cbn [fst snd] in *.
    unfold unembed_step. cbn [fst snd].
    split; [|split].
    + intros k Hk Hlt. rewrite ST_cast_testbit by nia.
      rewrite Z.shiftr_spec by lia. rewrite IHw by nia. f_equal. lia.
    + rewrite length_insert. exact IHlen.
    + intros j Hj.
      replace (Z.to_nat (Z.of_nat n - Z.of_nat i - 1)) with (n - 1 - i)%nat by lia.
      destruct (decide (j = i)) as [->|Hne].
      * rewrite list_lookup_insert_eq by lia. f_equal. f_equal.
        unfold u8. change 256 with (2 ^ 8).
        apply testbit_mod_low_eq; [lia|]. intros k Hk.
        rewrite ST_cast_testbit by lia.
        rewrite Z.land_spec, ones_mask_testbit by lia.
        rewrite Z2Nat.id by lia.
        destruct (decide (k < nbits)) as [Hkn|Hkn].
        -- rewrite bool_decide_eq_true_2 by lia. rewrite andb_true_r.
           rewrite IHw by nia. rewrite Z.add_comm. apply Hfield; lia.
        -- rewrite bool_decide_eq_false_2 by lia. rewrite andb_false_r.
           symmetry. apply (testbit_above _ nbits); [apply Hsym|]; lia.
      * rewrite list_lookup_insert_ne by lia. apply IHout. lia.
Qed.

(** C2, the k-mer packing round trip: for symbol codes [syms] below
    [2 ^ bits_per_symbol] whose [len] fields fit the bit width of [ST],
    [unembed_word (embed_word syms len) out len] leaves at every position
    [i < len] of [out] the character [remap_to_char] gives for [syms[i]]
    (the argument converted to [uint8_t], as the call converts it). *)
Theorem unembed_embed_word num_bits to_char (syms out : list Z) len (i : nat) :
  0 <= num_bits ->
  len = Z.of_nat (length syms) ->
  len * num_bits <= ST_bits ->
  Forall (fun s => 0 <= s < 2 ^ num_bits) syms ->
  len <= Z.of_nat (length out) ->
  Z.of_nat i < len ->
  unembed_word num_bits to_char (embed_word num_bits syms len) out len !! i
  = Some (to_char (u8 (syms !!! i))).
Proof.
  intros Hnb -> Hfit Hsyms Hout Hi.
  assert (Hnb32 : 0 <= num_bits < 2 ^ 32).
  { split; [lia|]. apply Z.le_lt_trans with 64; [nia|reflexivity]. }
  unfold unembed_word. unfold u32 at 1 2. rewrite (Z.mod_small num_bits) by lia.
  rewrite Nat2Z.id.
  set (n := length syms) in *.
  destruct (unembed_loop num_bits to_char (embed_word num_bits syms (Z.of_nat n))
              out n (fun j => syms !!! (n - 1 - j)%nat)) with (i := n)
    as (_ & _ & H); try lia.
  - intros j r Hj Hr. apply embed_word_field; try lia; [done|nia].
  - intros j Hj.
    destruct (lookup_lt_is_Some_2 syms (n - 1 - j)) as [x Hx]; [lia|].
    rewrite (list_lookup_total_correct _ _ _ Hx).
    rewrite Forall_forall in Hsyms. apply Hsyms.
    apply list_elem_of_lookup. eauto.
  - specialize (H (n - 1 - i)%nat). cbn zeta in H.
    replace (n - 1 - (n - 1 - i))%nat with i in H by lia.
    apply H. lia.
Qed.

End KmerFacts.

(** ** The calls as state transformers *)

Lemma bind_Val {A B} (c : M A) (k : A -> M B) s a s1 :
  c s = Val a s1 -> bind c k s = k a s1.
Proof. unfold bind. intros ->. reflexivity. Qed.

Lemma bind_Exc {A B} (c : M A) (k : A -> M B) s e s1 :
  c s = Exc e s1 -> bind c k s = Exc e s1.
Proof. unfold bind. intros ->. reflexivity. Qed.

Lemma bind_ret {A B} (a : A) (k : A -> M B) s : bind (ret a) k s = k a s.
Proof. reflexivity. Qed.

Lemma bind_get {B} (k : CStringFeatures -> M B) s : bind get k s = k s s.
Proof. reflexivity. Qed.

Lemma bind_modify {B} f (k : unit -> M B) s : bind (modify f) k s = k tt (f s).
Proof. reflexivity. Qed.

Lemma bind_lift_Some {A B} (a : A) (k : A -> M B) s :
  bind (lift_option (Some a)) k s = k a s.
Proof. reflexivity. Qed.

Lemma bind_throw {A B} e (k : A -> M B) s : bind (throw e) k s = Exc e s.
Proof. reflexivity. Qed.

Lemma bind_error {A B} msg (k : A -> M B) s :
  bind (error msg) k s = Exc (ShogunError msg) s.
Proof. reflexivity. Qed.

Lemma bind_assoc {A B C} (c : M A) (k : A -> M B) (h : B -> M C) s :
  bind (bind c k) h s = bind c (fun a => bind (k a) h) s.
Proof. unfold bind. destruct (c s); reflexivity. Qed.

Create Rewrite HintDb monad.
#[export] Hint Rewrite @bind_ret @bind_get @bind_modify @bind_lift_Some
  @bind_throw @bind_error @bind_assoc : monad.

(** Runs the leading [ret], [get], [modify] and [throw] of a computation. *)
Ltac run_monad := autorewrite with monad; cbn [fst snd].

Lemma bind_Val_inv {A B} (c : M A) (k : A -> M B) s b s2 :
  bind c k s = Val b s2 -> exists a s1, c s = Val a s1 /\ k a s1 = Val b s2.
Proof.
  unfold bind. destruct (c s) as [a s1| |]; [eauto|discriminate..].
Qed.

(** ** Sliding windows *)

(** C4 at a concrete store: one sequence of length 3, windows of size 1
    with step 1.  The call returns the count 3 and keeps the sequence as
    [single_string], but the store holds one window afterwards. *)
Theorem sliding_window_single_sequence :
  obtain_by_sliding_window 1 1 0 (example_store [[65; 67; 71]])
  = Val 3 (set_features_field [[65]]
             (set_single_string (Some [65; 67; 71])
                (example_store [[65; 67; 71]]))).
Proof. vm_compute. reflexivity. Qed.

(** ** The ASCII loader *)

(** C5 at the file of the three lines AAA, CG, TTTT, each ended by a
    newline, loaded without remapping into a store of bytes: the second
    pass gives three sequences of lengths 3, 1 and 1, counts A:6, C:1,
    G:1, T:2, and writes past the end of the buffers of the second and third
    record. *)
Theorem load_ascii_three_lines :
  exists st,
    load_ascii_passes (ST := uint8_t) (AO := example_alphabet) 20 false 0 0
      [65; 65; 65; 10; 67; 71; 10; 84; 84; 84; 84; 10] = Some st
    /\ r_features st = [[65; 65; 65]; [67]; [84]]
    /\ map (fun c : nat => histogram (r_alpha st) !!! c) [65; 67; 71; 84]%nat
       = [6; 1; 1; 2]
    /\ r_out_of_bounds st = true.
Proof. eexists. vm_compute. repeat split; reflexivity. Qed.

(** The call itself, on a file system that holds this file: the writes
    past the buffers leave it without a defined result. *)
Lemma load_ascii_file_three_lines :
  load_ascii_file (ST := uint8_t) (AO := example_alphabet) 20
    (write_file empty_fs "lines"
       [65; 65; 65; 10; 67; 71; 10; 84; 84; 84; 84; 10])
    "lines" false 0 0 (example_store [])
  = Some Undefined.
Proof. vm_compute. reflexivity. Qed.

(** The same three lines without the last newline: the first pass counts
    two records, and the second pass finds a third. *)
Lemma load_ascii_three_lines_unterminated :
  exists st,
    load_ascii_passes (ST := uint8_t) (AO := example_alphabet) 20 false 0 0
      [65; 65; 65; 10; 67; 71; 10; 84; 84; 84; 84] = Some st
    /\ r_features st = [[65; 65; 65]; [67; 71]]
    /\ map (fun c : nat => histogram (r_alpha st) !!! c) [65; 67; 71; 84]%nat
       = [6; 2; 2; 4]
    /\ r_out_of_bounds st = true.
Proof. eexists. vm_compute. repeat split; reflexivity. Qed.

(** On a file of records of one length no write leaves its buffer, and
    every byte is still counted twice. *)
Lemma load_ascii_equal_lines :
  exists st,
    load_ascii_passes (ST := uint8_t) (AO := example_alphabet) 20 false 0 0
      [65; 65; 10; 67; 71; 10] = Some st
    /\ r_features st = [[65; 65]; [67; 71]]
    /\ map (fun c : nat => histogram (r_alpha st) !!! c) [65; 67; 71; 84]%nat
       = [4; 2; 2; 0]
    /\ r_out_of_bounds st = false.
Proof. eexists. vm_compute. repeat split; reflexivity. Qed.

(** ** The compressed format: what [load_compressed] returns *)

Section LoadCompressedReturns.

Context {ST : SymbolType} {AO : AlphabetOps} {CO : CompressorOps}.

Lemma ret_Val_inv {A} (a b : A) s s' : ret a s = Val b s' -> a = b /\ s = s'.
Proof. unfold ret. intros [= -> ->]. done. Qed.

Ltac bind_inv H :=
  let a := fresh "a" in
  let s := fresh "s" in
  let Hc := fresh "Hc" in
  apply bind_Val_inv in H; destruct H as (a & s & Hc & H).

(** C10, with the first statement of the call: whatever the file holds and
    in both modes, a call of [load_compressed] that returns returns [false]
    (every other way out is a throw); and when the file cannot be opened it
    returns [false] having only removed the subsets, the sequences, the
    alphabet and all other members as they were. *)
Theorem load_compressed_returns_false (fs : FileSystem) (src : string)
    (do_decompress : bool) (s : CStringFeatures) :
  (forall b s', load_compressed fs src do_decompress s = Val b s' -> b = false)
  /\ (file_data fs src = None ->
      load_compressed fs src do_decompress s = Val false (set_subset_stack [] s)).
Proof.
  split.
  - intros b s' H. unfold load_compressed in H.
    bind_inv H. destruct (file_data fs src) as [stream|].
    + repeat bind_inv H. apply ret_Val_inv in H as [<- _]. reflexivity.
    + apply ret_Val_inv in H as [<- _]. reflexivity.
  - intros Hnone. unfold load_compressed. rewrite Hnone. reflexivity.
Qed.

End LoadCompressedReturns.

(** ** [cleanup] and [set_features] *)

Lemma set_features_field_id s : set_features_field (features s) s = s.
Proof. destruct s. reflexivity. Qed.

Lemma has_subsets_false s : has_subsets s = false -> m_subset_stack s = [].
Proof. unfold has_subsets. destruct (m_subset_stack s); [done|discriminate]. Qed.

Lemma get_num_vectors_no_subset s :
  has_subsets s = false -> get_num_vectors s = Z.of_nat (length (features s)).
Proof. unfold get_num_vectors. intros ->. reflexivity. Qed.

Lemma for_each_clear_features (m : nat) (start : Z) (s : CStringFeatures) :
  exists f,
    for_each m
      (fun k =>
         bind get (fun s =>
           let real_num := subset_idx_conversion s (start + Z.of_nat k) in
           modify (set_features_field (<[Z.to_nat real_num := []]> (features s)))))
      s
    = Val tt (set_features_field f s).
Proof.
  induction m as [|m [f IH]].
  - exists (features s). simpl. unfold ret. by rewrite set_features_field_id.
  - cbn [for_each]. rewrite (bind_Val _ _ _ _ _ IH).
    eexists. unfold bind, get, modify. cbn. reflexivity.
Qed.

Lemma cleanup_feature_vectors_ok (s : CStringFeatures) :
  has_subsets s = false ->
  exists f,
    cleanup_feature_vectors 0 (get_num_vectors s - 1) s
    = Val tt (set_features_field f s).
Proof.
  intros Hs. unfold cleanup_feature_vectors.
  rewrite (bind_Val _ _ s s s) by reflexivity.
  case_bool_decide as Hn.
  - exists (features s). unfold ret. by rewrite set_features_field_id.
  - pose proof (get_num_vectors_no_subset s Hs) as Hnum.
    unfold ASSERT.
    rewrite bool_decide_eq_true_2 by lia.
    rewrite (bind_Val _ _ s tt s) by reflexivity.
    rewrite bool_decide_eq_true_2 by lia.
    rewrite (bind_Val _ _ s tt s) by reflexivity.
    apply for_each_clear_features.
Qed.

(** The store [cleanup] leaves: no sequence, no [single_string], no mask
    table, no subset, and a new alphabet of the same kind. *)
Definition cleaned (s : CStringFeatures) : CStringFeatures :=
  {| features := []; single_string := None;
     alphabet := new_CAlphabet (get_alphabet (alphabet s));
     order := order s; num_symbols := num_symbols s;
     original_num_symbols := original_num_symbols s;
     symbol_mask_table := None;
     preprocess_on_get := preprocess_on_get s; preprocessors := preprocessors s;
     m_subset_stack := [] |}.

Lemma cleanup_spec (s : CStringFeatures) : cleanup s = Val tt (cleaned s).
Proof.
  unfold cleanup, remove_all_subsets.
  rewrite (bind_Val _ _ s tt (set_subset_stack [] s)) by reflexivity.
  rewrite (bind_Val get _ _ _ _ eq_refl).
  destruct (single_string s) as [ss|] eqn:Hss.
  - cbn [single_string set_subset_stack]. rewrite Hss.
    unfold bind, modify, get, cleaned. cbn [features single_string alphabet order
      num_symbols original_num_symbols symbol_mask_table preprocess_on_get
      preprocessors m_subset_stack set_features_field set_subset_stack
      set_symbol_mask_table set_alphabet set_single_string].
    reflexivity.
  - cbn [single_string set_subset_stack]. rewrite Hss.
    destruct (cleanup_feature_vectors_ok (set_subset_stack [] s)) as [f Hf];
      [reflexivity|].
    rewrite (bind_Val _ _ _ _ _ Hf).
    unfold bind, modify, get, cleaned.
    unfold set_alphabet, set_symbol_mask_table, set_features_field,
      set_subset_stack. cbn. rewrite Hss. reflexivity.
Qed.

Section SetFeatures.

Context {AO : AlphabetOps}.

(** The alphabet [set_features] validates: a new alphabet of kind [kind]
    that has counted the sequences of [l]. *)
Definition counted_alphabet (kind : EAlphabet) (l : list SGVector) : CAlphabet :=
  for_loop (length l)
    (fun i alpha => add_string_to_histogram alpha (l !!! i) (vlen (l !!! i)))
    (new_CAlphabet kind).

Lemma counted_alphabet_kind kind l : get_alphabet (counted_alphabet kind l) = kind.
Proof.
  unfold counted_alphabet. induction (length l) as [|n IH]; [reflexivity|].
  cbn [for_loop add_string_to_histogram get_alphabet]. exact IH.
Qed.

Lemma set_features_list_spec (emp : bool) (l : list SGVector) (s : CStringFeatures) :
  has_subsets s = false ->
  set_features_list emp l s
  = match vector_data emp l with
    | None => Val false s
    | Some _ =>
        let alpha := counted_alphabet (get_alphabet (alphabet s)) l in
        if check_alphabet_size alpha && check_alphabet alpha
        then Val true (set_features_field l (set_alphabet alpha (cleaned s)))
        else Val false s
    end.
Proof.
  intros Hs. unfold set_features_list, set_features.
  rewrite (bind_Val get _ _ _ _ eq_refl). rewrite Hs.
  rewrite (bind_Val _ _ s tt s) by reflexivity.
  assert (Hdata : vector_data emp l = None \/ vector_data emp l = Some l).
  { destruct l; [destruct emp|]; simpl; auto. }
  destruct Hdata as [-> | ->]; [reflexivity|].
  rewrite Nat2Z.id. fold (counted_alphabet (get_alphabet (alphabet s)) l).
  cbv zeta. destruct (_ && _); [|reflexivity].
  rewrite (bind_Val _ _ _ _ _ (cleanup_spec s)).
  rewrite firstn_all. reflexivity.
Qed.

(** C7, with the guard of the call: on a store with an active subset
    [set_features] throws, the store as it was; on a store without,
    [set_features] on a sequence list either returns [true], the store then
    holding exactly the given sequences and a new alphabet of the kind it
    had whose histogram counts them, or it returns [false] with the store
    as it was before the call; it returns [false] when the counted alphabet
    fails a check (or the list is empty and has a null data pointer). *)
Theorem set_features_replaces_or_keeps (emp : bool) (l : list SGVector)
    (s : CStringFeatures) :
  let alpha := counted_alphabet (get_alphabet (alphabet s)) l in
  (has_subsets s = true ->
   set_features_list emp l s
   = Exc (ShogunError "Cannot call set_features() with subset.") s)
  /\ (has_subsets s = false ->
      (exists s',
         set_features_list emp l s = Val true s'
         /\ features s' = l
         /\ alphabet s' = alpha
         /\ get_alphabet (alphabet s') = get_alphabet (alphabet s)
         /\ check_alphabet_size alpha && check_alphabet alpha = true)
      \/ (set_features_list emp l s = Val false s
          /\ (check_alphabet_size alpha && check_alphabet alpha = false
              \/ l = []))).
Proof.
  intros alpha. split.
  - intros Hs. unfold set_features_list, set_features.
    rewrite bind_get, Hs. reflexivity.
  - intros Hs. rewrite (set_features_list_spec emp l s Hs).
    fold alpha. cbv zeta.
    destruct (vector_data emp l) as [pf|] eqn:Hdata.
    + destruct (check_alphabet_size alpha && check_alphabet alpha) eqn:Hcheck.
      * left. eexists. split; [reflexivity|]. repeat split.
        apply counted_alphabet_kind.
      * right. auto.
    + right. split; [reflexivity|]. right.
      destruct l; [reflexivity|discriminate].
Qed.

End SetFeatures.

(** ** Windows at given positions *)

Lemma get_max_vector_length_single (s : CStringFeatures) (v : SGVector) :
  has_subsets s = false -> features s = [v] ->
  get_max_vector_length s = vlen v.
Proof.
  intros Hs Hf. unfold get_max_vector_length.
  rewrite (get_num_vectors_no_subset s Hs), Hf.
  unfold subset_idx_conversion. rewrite (has_subsets_false s Hs).
  simpl. unfold vlen. lia.
Qed.

Lemma slice_length (v : SGVector) (l h : Z) :
  0 <= l <= h -> h <= vlen v -> vlen (slice v l h) = h - l.
Proof.
  unfold slice, vlen. intros Hl Hh.
  rewrite length_take, length_drop. lia.
Qed.

(** The same on every store that holds one sequence: whatever the count
    returned, one window is stored. *)
Lemma sliding_window_one_window (W step skip : Z) (v : SGVector)
    (s : CStringFeatures) :
  has_subsets s = false -> features s = [v] -> single_string s = None ->
  W > 0 -> step > 0 -> vlen v >= W ->
  obtain_by_sliding_window W step skip s
  = Val (Z.quot (vlen v - W) step + 1)
      (set_features_field [slice v skip (Z.min W (vlen v))]
         (set_single_string (Some v) s)).
Proof.
  intros Hs Hf Hss HW Hstep HL. unfold obtain_by_sliding_window.
  rewrite bind_get, Hs, bind_ret. unfold ASSERT.
  pose proof (get_max_vector_length_single s v Hs Hf) as Hmax.
  assert (Hnum : get_num_vectors s = 1).
  { unfold get_num_vectors. rewrite Hs, Hf. reflexivity. }
  rewrite Hmax, Hnum, Hss, Hf.
  rewrite (bool_decide_eq_true_2 (step > 0)) by lia. rewrite bind_ret.
  rewrite (bool_decide_eq_true_2 (W > 0)) by lia. rewrite bind_ret.
  rewrite (bool_decide_eq_true_2 (1 = 1)) by reflexivity. cbn [orb].
  rewrite bind_ret.
  rewrite (bool_decide_eq_true_2 (vlen v >= W)) by lia. cbn [orb].
  rewrite bind_ret. cbv zeta.
  change (Z.to_nat 1) with 1%nat. cbn [for_loop lookup list_lookup].
  rewrite bind_assoc, bind_ret, bind_assoc, bind_lift_Some, !bind_ret.
  rewrite bind_lift_Some, !bind_modify. unfold ret. cbn [app].
  replace (Z.of_nat 0 * step + skip) with skip by lia.
  replace (Z.of_nat 0 * step + W) with W by lia. reflexivity.
Qed.

(** The loop over the positions passes every position that fits. *)
Lemma position_list_loop_valid W skip (v : SGVector) (pre rest : list Z) :
  0 <= skip <= W ->
  Forall (fun q => 0 <= q <= vlen v - W) pre ->
  forall i f s, features s = [v] ->
  exists f',
    position_list_loop W skip (vlen v) (pre ++ rest) i f s
    = position_list_loop W skip (vlen v) rest (i + Z.of_nat (length pre)) f' s.
Proof.
  intros Hskip Hpre. induction Hpre as [|q pre Hq Hpre IH]; intros i f s Hf.
  - exists f. simpl. f_equal. lia.
  - cbn [app position_list_loop].
    rewrite (bind_Val get _ _ _ _ eq_refl). rewrite Hf.
    rewrite (bind_Val _ _ s v s) by reflexivity.
    rewrite bool_decide_eq_true_2 by lia.
    rewrite Z.min_l by lia.
    unfold set_vlen. rewrite slice_length by lia.
    rewrite bool_decide_eq_true_2 by lia.
    rewrite (bind_Val _ _ s _ s) by reflexivity.
    destruct (IH (i + 1) (f ++ [take (Z.to_nat (W - skip))
                                  (slice v (q + skip) (q + W))]) s Hf)
      as [f' Hf'].
    exists f'. etransitivity; [exact Hf'|]. f_equal. cbn [length]. lia.
Qed.

(** C8, for the store the branch puts back: on a store holding exactly one
    sequence [v] and no [single_string], when the positions [pre] fit
    (their windows skipping [0 <= skip <= window_size] symbols) and the
    next position [p] violates [0 <= p <= length - window_size], the call
    of [obtain_by_position_list] throws and the store is then the store
    before the call; when the call gets as far as the positions (no
    subset, a positive window not longer than the sequence) the throw is
    the error of the window at index [length pre], the first that does not
    fit.  A store that enters with a [single_string] leaves without it:
    [position_list_error_clears] below. *)
Theorem position_list_violation_restores (W skip : Z) (pre : list Z) (p : Z)
    (post : list Z) (v : SGVector) (s : CStringFeatures) :
  features s = [v] ->
  single_string s = None ->
  (pre <> [] -> 0 <= skip <= W) ->
  Forall (fun q => 0 <= q <= vlen v - W) pre ->
  ~ (0 <= p <= vlen v - W) ->
  (exists e, obtain_by_position_list W (Some (pre ++ p :: post)) skip s = Exc e s)
  /\ (has_subsets s = false -> W > 0 -> vlen v >= W ->
      obtain_by_position_list W (Some (pre ++ p :: post)) skip s
      = Exc (ShogunErrorAt
               "window (size:{}) starting at position[{}]={} does not fit in sequence(len:{})"
               [W; Z.of_nat (length pre); p; vlen v]) s).
Proof.
  intros Hf Hss Hskip Hpre Hp.
  assert (Hmain : has_subsets s = false -> W > 0 -> vlen v >= W ->
      obtain_by_position_list W (Some (pre ++ p :: post)) skip s
      = Exc (ShogunErrorAt
               "window (size:{}) starting at position[{}]={} does not fit in sequence(len:{})"
               [W; Z.of_nat (length pre); p; vlen v]) s).
  { intros Hs HW HL. unfold obtain_by_position_list.
    rewrite (bind_Val get _ _ _ _ eq_refl). rewrite Hs.
    rewrite (bind_Val _ _ s tt s) by reflexivity.
    rewrite (get_max_vector_length_single s v Hs Hf).
    rewrite (get_num_vectors_no_subset s Hs), Hf, Hss.
    unfold ASSERT.
    rewrite (bool_decide_eq_true_2 (is_Some (Some _))) by eauto.
    rewrite (bind_Val _ _ s tt s) by reflexivity.
    rewrite (bool_decide_eq_true_2 (W > 0)) by lia.
    rewrite (bind_Val _ _ s tt s) by reflexivity.
    rewrite (bind_Val _ _ s tt s) by reflexivity.
    rewrite (bool_decide_eq_true_2 (vlen v >= W)) by lia.
    rewrite (bind_Val _ _ s tt s) by reflexivity.
    change (default [] (Some (pre ++ p :: post))) with (pre ++ p :: post).
    rewrite bool_decide_eq_true_2
      by (rewrite length_app; cbn [length]; lia).
    rewrite (bind_Val _ _ s tt s) by reflexivity.
    rewrite (bind_Val _ _ s (vlen v) (set_single_string (Some v) s))
      by reflexivity.
    assert (Hloop : exists f',
              position_list_loop W skip (vlen v) (pre ++ p :: post) 0 []
                (set_single_string (Some v) s)
              = position_list_loop W skip (vlen v) (p :: post)
                  (0 + Z.of_nat (length pre)) f' (set_single_string (Some v) s)).
    { destruct pre as [|q pre'] eqn:Hpre_eq; [exists []; reflexivity|].
      rewrite <- Hpre_eq in *.
      apply position_list_loop_valid; [|exact Hpre|exact Hf].
      apply Hskip. rewrite Hpre_eq. discriminate. }
    destruct Hloop as [f' Hloop].
    rewrite (bind_Exc _ _ _
               (ShogunErrorAt
                  "window (size:{}) starting at position[{}]={} does not fit in sequence(len:{})"
                  [W; Z.of_nat (length pre); p; vlen v]) s); [reflexivity|].
    rewrite Hloop. cbn [position_list_loop].
    rewrite (bind_Val get _ _ _ _ eq_refl).
    cbn [features set_single_string]. rewrite Hf.
    rewrite (bind_Val _ _ _ v (set_single_string (Some v) s)) by reflexivity.
    rewrite bool_decide_eq_false_2 by lia.
    unfold set_vlen. rewrite bool_decide_eq_true_2 by (unfold vlen; lia).
    unfold vlen at 1. rewrite Nat2Z.id, firstn_all.
    unfold bind, lift_option, ret, modify, throw. cbn.
    f_equal. destruct s; simpl in *; subst; reflexivity. }
  split; [|exact Hmain].
  destruct (has_subsets s) eqn:Hs.
  { unfold obtain_by_position_list.
    rewrite (bind_Val get _ _ _ _ eq_refl). rewrite Hs. eexists. reflexivity. }
  destruct (decide (W > 0)) as [HW|HW];
    [destruct (decide (vlen v >= W)) as [HL|HL]|].
  - eexists. apply Hmain; auto.
  - unfold obtain_by_position_list.
    rewrite (bind_Val get _ _ _ _ eq_refl). rewrite Hs.
    rewrite (bind_Val _ _ s tt s) by reflexivity.
    rewrite (get_max_vector_length_single s v Hs Hf).
    rewrite (get_num_vectors_no_subset s Hs), Hf, Hss.
    unfold ASSERT.
    rewrite (bool_decide_eq_true_2 (is_Some (Some _))) by eauto.
    rewrite (bind_Val _ _ s tt s) by reflexivity.
    rewrite (bool_decide_eq_true_2 (W > 0)) by lia.
    rewrite (bind_Val _ _ s tt s) by reflexivity.
    rewrite (bind_Val _ _ s tt s) by reflexivity.
    rewrite (bool_decide_eq_false_2 (vlen v >= W)) by lia.
    eexists. reflexivity.
  - unfold obtain_by_position_list.
    rewrite (bind_Val get _ _ _ _ eq_refl). rewrite Hs.
    rewrite (bind_Val _ _ s tt s) by reflexivity.
    unfold ASSERT.
    rewrite (bool_decide_eq_true_2 (is_Some (Some _))) by eauto.
    rewrite (bind_Val _ _ s tt s) by reflexivity.
    rewrite (bool_decide_eq_false_2 (W > 0)) by lia.
    eexists. reflexivity.
Qed.

(** The loop over the positions throws the error of a window only in the
    branch that puts the store back, and this branch assigns an empty
    [single_string]. *)
Lemma position_list_loop_clears W skip len (positions : list Z) :
  forall i f s m a s',
    position_list_loop W skip len positions i f s = Exc (ShogunErrorAt m a) s' ->
    single_string s' = None.
Proof.
  induction positions as [|p rest IH]; intros i f s m a s' H; [discriminate|].
  cbn [position_list_loop] in H. rewrite bind_get in H.
  destruct (features s !! 0%nat) as [f0|]; [|discriminate].
  rewrite bind_lift_Some in H.
  case_bool_decide as Hfit.
  - destruct (set_vlen _ _) as [w|]; [|discriminate].
    rewrite bind_lift_Some in H. exact (IH _ _ _ _ _ _ H).
  - destruct (set_vlen f0 len) as [f0'|]; [|discriminate].
    rewrite bind_lift_Some in H. rewrite !bind_modify in H.
    injection H as _ _ <-. reflexivity.
Qed.

Lemma bind_ASSERT_ErrorAt {A} (cond : bool) (text : string) (k : unit -> M A)
    (s s' : CStringFeatures) m a :
  bind (ASSERT cond text) k s = Exc (ShogunErrorAt m a) s' ->
  k tt s = Exc (ShogunErrorAt m a) s'.
Proof. destruct cond; [intros H; exact H|discriminate]. Qed.

(** The same for the call, on every store: whenever
    [obtain_by_position_list] throws the error of a window that does not
    fit, the store it leaves has no [single_string].  So a store that had
    one before the call is never the store after it. *)
Lemma position_list_error_clears W positions skip (s s' : CStringFeatures) m a :
  obtain_by_position_list W positions skip s = Exc (ShogunErrorAt m a) s' ->
  single_string s' = None.
Proof.
  unfold obtain_by_position_list. rewrite bind_get. intros H.
  destruct (has_subsets s); [discriminate|]. rewrite bind_ret in H.
  do 5 apply bind_ASSERT_ErrorAt in H.
  destruct (single_string s) as [ss|].
  - rewrite bind_ret in H.
    match type of H with
    | bind ?c _ ?st = _ => destruct (c st) as [f s1|e s1|] eqn:Hloop
    end.
    + rewrite (bind_Val _ _ _ _ _ Hloop) in H. discriminate.
    + rewrite (bind_Exc _ _ _ _ _ Hloop) in H. injection H as -> ->.
      exact (position_list_loop_clears _ _ _ _ _ _ _ _ _ _ Hloop).
    + unfold bind at 1 in H. rewrite Hloop in H. discriminate.
  - rewrite bind_assoc in H.
    destruct (features s !! 0%nat) as [f0|]; [|discriminate].
    rewrite bind_lift_Some, bind_assoc, bind_modify, bind_ret in H.
    match type of H with
    | bind ?c _ ?st = _ => destruct (c st) as [f s1|e s1|] eqn:Hloop
    end.
    + rewrite (bind_Val _ _ _ _ _ Hloop) in H. discriminate.
    + rewrite (bind_Exc _ _ _ _ _ Hloop) in H. injection H as -> ->.
      exact (position_list_loop_clears _ _ _ _ _ _ _ _ _ _ Hloop).
    + unfold bind at 1 in H. rewrite Hloop in H. discriminate.
Qed.

(** ** k-mer embedding of a sequence *)

Lemma read_at_Some (v : SGVector) (i : nat) x :
  v !! i = Some x -> read_at v (Z.of_nat i) = Some x.
Proof.
  intros H. unfold read_at. rewrite bool_decide_eq_true_2 by lia.
  by rewrite Nat2Z.id.
Qed.

Lemma write_at_Some (v : SGVector) (i : nat) x :
  (i < length v)%nat -> write_at v (Z.of_nat i) x = Some (<[i := x]> v).
Proof.
  intros H. unfold write_at, vlen. rewrite bool_decide_eq_true_2 by lia.
  by rewrite Nat2Z.id.
Qed.

Section EmbedSequence.

Context {ST : SymbolType} {AO : AlphabetOps}.
Hypothesis ST_bits_byte : 8 <= ST_bits <= 64.

(** A symbol as the loops store it: [(ST) alphabet->remap_to_bin(c)]. *)
Definition remapped (kind : EAlphabet) (c : Z) : Z := ST_cast (remap_bin kind c).

(** The step of the rolling code, in the words of the specification:
    [((prev << bits_per_symbol) | symbol)] masked to [k * bits_per_symbol]
    bits, as a value of [ST]. *)
Definition spec_next_code (b k prev symbol : Z) : Z :=
  ST_cast (Z.land (Z.lor (Z.shiftl prev b) symbol) (Z.ones (k * b))).

Fixpoint spec_rolling_codes (kind : EAlphabet) (b k prev : Z) (rest : list Z)
    : list Z :=
  match rest with
  | [] => []
  | c :: rest' =>
      let next := spec_next_code b k prev (remapped kind c) in
      next :: spec_rolling_codes kind b k next rest'
  end.

(** The codes of a sequence, in the words of the specification: the first
    packs the first [k] remapped symbols, each further one rolls the next
    symbol in. *)
Definition spec_kmer_codes (kind : EAlphabet) (b k : Z) (raw : list Z) : list Z :=
  let first := embed_word b (map (remapped kind) (take (Z.to_nat k) raw)) k in
  first :: spec_rolling_codes kind b k first (drop (Z.to_nat k) raw).

Lemma spec_rolling_codes_length kind b k prev rest :
  length (spec_rolling_codes kind b k prev rest) = length rest.
Proof.
  revert prev. induction rest as [|c rest IH]; intros prev; [reflexivity|].
  cbn [spec_rolling_codes length]. by rewrite IH.
Qed.

Lemma spec_kmer_codes_length kind b k raw :
  0 <= k <= vlen raw ->
  vlen (spec_kmer_codes kind b k raw) = vlen raw - k + 1.
Proof.
  unfold spec_kmer_codes, vlen. intros Hk. cbn [length].
  rewrite spec_rolling_codes_length, length_drop. lia.
Qed.

Lemma spec_rolling_codes_next kind b k prev rest (t : nat) x :
  rest !! t = Some x ->
  (prev :: spec_rolling_codes kind b k prev rest) !! S t
  = Some (spec_next_code b k
            ((prev :: spec_rolling_codes kind b k prev rest) !!! t)
            (remapped kind x)).
Proof.
  revert prev rest. induction t as [|t IH]; intros prev rest Hx.
  - destruct rest as [|y rest]; [discriminate|]. injection Hx as ->. reflexivity.
  - destruct rest as [|y rest]; [discriminate|]. cbn in Hx.
    cbn [spec_rolling_codes]. rewrite lookup_cons_ne_0 by lia. cbn [pred].
    rewrite (IH _ _ Hx). reflexivity.
Qed.

Lemma spec_kmer_codes_first kind b k raw :
  spec_kmer_codes kind b k raw !! 0%nat
  = Some (embed_word b (map (remapped kind) (take (Z.to_nat k) raw)) k).
Proof. reflexivity. Qed.

Lemma spec_kmer_codes_next kind b k raw (t : nat) x :
  raw !! (Z.to_nat k + t)%nat = Some x ->
  spec_kmer_codes kind b k raw !! S t
  = Some (spec_next_code b k (spec_kmer_codes kind b k raw !!! t) (remapped kind x)).
Proof.
  intros Hx. unfold spec_kmer_codes. cbv zeta.
  apply spec_rolling_codes_next. by rewrite lookup_drop.
Qed.

(** [embed_word] reads the first [len] elements only. *)
Lemma embed_word_ext b (l1 l2 : list Z) len :
  (forall i, (i < Z.to_nat len)%nat -> l1 !!! i = l2 !!! i) ->
  embed_word b l1 len = embed_word b l2 len.
Proof.
  unfold embed_word. induction (Z.to_nat len) as [|n IH]; intros H; [reflexivity|].
  cbn [for_loop]. rewrite IH by (intros; apply H; lia).
  rewrite (H n) by lia. reflexivity.
Qed.

(** Masking with the mask the loop builds keeps the low [n] bits. *)
Lemma land_ones_mask x n :
  0 <= n -> ST_cast (Z.land x (ones_mask n)) = ST_cast (Z.land x (Z.ones n)).
Proof.
  intros Hn. apply ST_cast_low_bits; [lia|]. intros i Hi.
  rewrite !Z.land_spec. rewrite ones_mask_testbit by lia.
  rewrite Z2Nat.id by lia. rewrite Z.testbit_ones_nonneg by lia.
  f_equal. case_bool_decide; lia.
Qed.

(** The loop that remaps the first [j] symbols in place. *)
Lemma remap_prefix kind (raw : list Z) (j : nat) :
  (j <= length raw)%nat ->
  for_loop j (fun j o => str ← o; remap_at kind str (Z.of_nat j)) (Some raw)
  = Some (map (remapped kind) (take j raw) ++ drop j raw).
Proof.
  induction j as [|j IH]; intros Hj.
  - simpl. by rewrite drop_0.
  - cbn [for_loop]. rewrite IH by lia. cbn [mbind option_bind].
    destruct (lookup_lt_is_Some_2 raw j) as [x Hx]; [lia|].
    assert (Hlen : length (map (remapped kind) (take j raw)) = j).
    { rewrite length_map, length_take. lia. }
    unfold remap_at.
    rewrite (read_at_Some _ j x).
    2:{ rewrite lookup_app_r by lia. rewrite Hlen, Nat.sub_diag.
        by rewrite lookup_drop, Nat.add_0_r. }
    cbn [mbind option_bind].
    rewrite write_at_Some
      by (rewrite length_app, Hlen, length_drop; lia).
    f_equal. rewrite insert_app_r_alt by lia. rewrite Hlen, Nat.sub_diag.
    rewrite (take_S_r _ _ _ Hx), map_app, <- app_assoc. f_equal.
    rewrite (drop_S _ _ _ Hx). reflexivity.
Qed.

(** The loop "convert the rest": after [t] turns the positions up to [t]
    hold their codes and the positions from [t + k] on are untouched. *)
Lemma embed_rest_loop kind b k (raw str0 : list Z) (kn : nat) :
  k = Z.of_nat kn -> (1 <= kn <= length raw)%nat -> 0 <= b ->
  length str0 = length raw ->
  str0 !! 0%nat = spec_kmer_codes kind b k raw !! 0%nat ->
  (forall i, (kn <= i)%nat -> str0 !! i = raw !! i) ->
  forall t, (t <= length raw - kn)%nat ->
  exists str,
    for_loop t
      (fun t o => str ← o; embed_rest_step kind k b (ones_mask (k * b)) t str)
      (Some str0) = Some str
    /\ length str = length raw
    /\ (forall i, (i <= t)%nat -> str !! i = spec_kmer_codes kind b k raw !! i)
    /\ (forall i, (t + kn <= i)%nat -> str !! i = raw !! i).
Proof.
  intros -> Hk Hb Hlen H0 Hraw t. induction t as [|t IH]; intros Ht.
  - exists str0. repeat split; auto.
    intros i Hi. by replace i with 0%nat by lia.
  - destruct IH as (str & Hloop & Hl & Hcodes & Hrest); [lia|].
    cbn [for_loop]. rewrite Hloop. cbn [mbind option_bind].
    destruct (lookup_lt_is_Some_2 raw (kn + t)) as [x Hx]; [lia|].
    assert (Ha : is_Some (spec_kmer_codes kind b (Z.of_nat kn) raw !! t)).
    { apply lookup_lt_is_Some_2.
      pose proof (spec_kmer_codes_length kind b (Z.of_nat kn) raw) as Hcl.
      unfold vlen in Hcl. lia. }
    destruct Ha as [a Ha].
    unfold embed_rest_step, remap_at.
    replace (Z.of_nat kn + Z.of_nat t) with (Z.of_nat (kn + t)) by lia.
    rewrite (read_at_Some str (kn + t) x) by (rewrite Hrest by lia; exact Hx).
    cbn [mbind option_bind].
    rewrite write_at_Some by lia. cbn [mbind option_bind].
    rewrite (read_at_Some _ t a)
      by (rewrite list_lookup_insert_ne by lia; rewrite Hcodes by lia; exact Ha).
    cbn [mbind option_bind].
    rewrite (read_at_Some _ (kn + t) (remapped kind x))
      by (apply list_lookup_insert_eq; lia).
    cbn [mbind option_bind].
    replace (Z.of_nat t + 1) with (Z.of_nat (S t)) by lia.
    rewrite write_at_Some by (rewrite length_insert; lia).
    eexists. split; [reflexivity|]. split; [|split].
    + rewrite !length_insert. exact Hl.
    + intros i Hi. destruct (decide (i = S t)) as [->|Hne].
      * rewrite list_lookup_insert_eq by (rewrite length_insert; lia).
        rewrite (spec_kmer_codes_next kind b (Z.of_nat kn) raw t x)
          by (rewrite Nat2Z.id; exact Hx).
        rewrite (list_lookup_total_correct _ _ _ Ha).
        f_equal. unfold spec_next_code. apply land_ones_mask. lia.
      * rewrite !list_lookup_insert_ne by lia. apply Hcodes. lia.
    + intros i Hi. rewrite !list_lookup_insert_ne by lia. apply Hrest. lia.
Qed.

(** The body of [embed_features] on one sequence no shorter than the
    order: every access is inside the buffer and the sequence becomes its
    codes. *)
Lemma embed_sequence_spec kind k (raw : list Z) :
  1 <= k <= vlen raw -> 0 <= get_num_bits kind ->
  embed_sequence kind k (get_num_bits kind)
    (ones_mask (k * get_num_bits kind)) raw
  = Some (spec_kmer_codes kind (get_num_bits kind) k raw).
Proof.
  intros Hk Hb. unfold vlen in Hk. set (b := get_num_bits kind) in *.
  unfold embed_sequence.
  rewrite remap_prefix by lia. cbn [mbind option_bind].
  set (str := map (remapped kind) (take (Z.to_nat k) raw) ++ drop (Z.to_nat k) raw).
  assert (Hlen : length str = length raw).
  { subst str. rewrite length_app, length_map, length_take, length_drop. lia. }
  assert (Hfirst : embed_word b str k
                   = embed_word b (map (remapped kind) (take (Z.to_nat k) raw)) k).
  { apply embed_word_ext. intros i Hi. subst str.
    rewrite lookup_total_app_l; [reflexivity|].
    rewrite length_map, length_take. lia. }
  change 0 with (Z.of_nat 0). rewrite write_at_Some by lia.
  cbn [mbind option_bind].
  destruct (embed_rest_loop kind b k raw (<[0%nat := embed_word b str k]> str)
              (Z.to_nat k)) with (t := (length raw - Z.to_nat k)%nat)
    as (str' & Hloop & Hl & Hcodes & _); try lia.
  - by rewrite length_insert.
  - rewrite list_lookup_insert_eq by lia. rewrite Hfirst. reflexivity.
  - intros i Hi. rewrite list_lookup_insert_ne by lia. subst str.
    rewrite lookup_app_r by (rewrite length_map, length_take; lia).
    rewrite length_map, length_take, lookup_drop. f_equal. lia.
  - replace (Z.to_nat (vlen raw - k)) with (length raw - Z.to_nat k)%nat
      by (unfold vlen; lia).
    rewrite Hloop. cbn [mbind option_bind].
    unfold set_vlen.
    rewrite bool_decide_eq_true_2 by (unfold vlen; lia). f_equal.
    pose proof (spec_kmer_codes_length kind b k raw) as Hcl. unfold vlen in *.
    apply list_eq. intros i.
    destruct (decide (i <= length raw - Z.to_nat k)%nat) as [Hi|Hi].
    + rewrite lookup_take_lt by lia. apply Hcodes. lia.
    + rewrite lookup_take_ge by lia. symmetry. apply lookup_ge_None. lia.
Qed.

End EmbedSequence.

(** ** k-mer embedding of the store *)

Lemma for_each_Exc (n m : nat) (body : nat -> M unit) s e s' :
  for_each n body s = Exc e s' -> (n <= m)%nat -> for_each m body s = Exc e s'.
Proof.
  intros H Hnm. induction Hnm as [|m Hnm IH]; [exact H|].
  cbn [for_each]. by rewrite (bind_Exc _ _ _ _ _ IH).
Qed.

Lemma Exists_first {A} (P : A -> Prop) `{!forall x, Decision (P x)} (l : list A) :
  Exists P l ->
  exists pre x post, l = pre ++ x :: post /\ Forall (fun y => ~ P y) pre /\ P x.
Proof.
  induction 1 as [x l Hx|x l _ IH].
  - exists [], x, l. auto.
  - destruct (decide (P x)) as [Hx|Hx].
    + exists [], x, l. auto.
    + destruct IH as (pre & y & post & -> & Hpre & Hy).
      exists (x :: pre), y, post. auto.
Qed.

Section EmbedFeatures.

Context {ST : SymbolType} {AO : AlphabetOps}.
Hypothesis ST_bits_byte : 8 <= ST_bits <= 64.

Lemma embed_features_loop kind k (s : CStringFeatures) (n : nat) :
  1 <= k -> 0 <= get_num_bits kind ->
  (n <= length (features s))%nat ->
  Forall (fun v => k <= vlen v) (take n (features s)) ->
  for_each n
    (embed_features_body kind k (get_num_bits kind)
       (ones_mask (k * get_num_bits kind))) s
  = Val tt
      (set_features_field
         (map (spec_kmer_codes kind (get_num_bits kind) k) (take n (features s))
          ++ drop n (features s)) s).
Proof.
  intros Hk Hb. induction n as [|n IH]; intros Hn Hall.
  - simpl. rewrite drop_0. unfold ret. by rewrite set_features_field_id.
  - destruct (lookup_lt_is_Some_2 (features s) n) as [v Hv]; [lia|].
    rewrite (take_S_r _ _ _ Hv) in Hall. apply Forall_app in Hall as [Hall Hlast].
    rewrite Forall_singleton in Hlast.
    cbn [for_each]. rewrite (bind_Val _ _ _ _ _ (IH ltac:(lia) Hall)).
    unfold embed_features_body.
    rewrite (bind_Val get _ _ _ _ eq_refl).
    cbn [features set_features_field].
    assert (Hlen : length (map (spec_kmer_codes kind (get_num_bits kind) k)
                             (take n (features s))) = n).
    { rewrite length_map, length_take. lia. }
    assert (Hlook : (map (spec_kmer_codes kind (get_num_bits kind) k)
                       (take n (features s)) ++ drop n (features s)) !! n = Some v).
    { rewrite lookup_app_r by lia. rewrite Hlen, Nat.sub_diag.
      by rewrite lookup_drop, Nat.add_0_r. }
    rewrite Hlook. rewrite bind_lift_Some.
    cbv zeta. rewrite bool_decide_eq_false_2 by lia.
    rewrite bind_ret.
    rewrite embed_sequence_spec by (first [exact Hb | lia]).
    rewrite bind_lift_Some.
    unfold modify. f_equal.
    unfold set_features_field; cbn. f_equal.
    rewrite insert_app_r_alt by lia. rewrite Hlen, Nat.sub_diag.
    rewrite (take_S_r _ _ _ Hv), map_app, <- app_assoc. f_equal.
    rewrite (drop_S _ _ _ Hv). reflexivity.
Qed.

Lemma embed_features_loop_fails kind k max_val mask (s s1 : CStringFeatures)
    (n m : nat) v :
  for_each n (embed_features_body kind k max_val mask) s = Val tt s1 ->
  features s1 !! n = Some v -> vlen v < k -> (n < m)%nat ->
  for_each m (embed_features_body kind k max_val mask) s
  = Exc (ShogunError "Sequence must be longer than order") s1.
Proof.
  intros Hloop Hv Hshort Hm.
  apply (for_each_Exc (S n)); [|lia].
  cbn [for_each]. rewrite (bind_Val _ _ _ _ _ Hloop).
  unfold embed_features_body.
  rewrite (bind_Val get _ _ _ _ eq_refl). rewrite Hv.
  rewrite bind_lift_Some.
  cbv zeta. rewrite bool_decide_eq_true_2 by lia. reflexivity.
Qed.

End EmbedFeatures.

Section EmbedFeaturesClaim.

Context {ST : SymbolType} {AO : AlphabetOps}.
Hypothesis ST_bits_byte : 8 <= ST_bits <= 64.

Lemma embed_features_unfold k (s : CStringFeatures) :
  has_subsets s = false ->
  get_num_symbols_in_histogram (alphabet s) > 0 ->
  let kind := get_alphabet (alphabet s) in
  let b := get_num_bits kind in
  let s1 := set_num_symbols
              (if bool_decide (k > 1) then 2 ^ (b * k) else get_num_symbols kind)
              (set_original_num_symbols (get_num_symbols kind) (set_order k s)) in
  embed_features k s
  = bind (for_each (length (features s))
            (embed_features_body kind k b (ones_mask (k * b))))
      (fun _ => compute_symbol_mask_table b) s1.
Proof.
  intros Hs Hhist kind b s1. unfold embed_features.
  rewrite bind_get, Hs, bind_ret. unfold ASSERT.
  rewrite bool_decide_eq_true_2 by exact Hhist. run_monad.
  rewrite (get_num_vectors_no_subset s Hs), Nat2Z.id. reflexivity.
Qed.

(** C3, as the two loops are written: on a store without an active subset
    whose alphabet has a non-empty histogram, for an order [k >= 1] (and a
    non-negative number of bits per symbol): when every sequence has at
    least [k] symbols, [embed_features k] returns and sequence [i], of
    length [L] before, has length [L - k + 1] after, its position 0
    holding what [embed_word] packs from its first [k] remapped symbols,
    which no mask is applied to, and every position [j >= 1] the code
    [((prev << bits) | remap(symbol (j + k - 1)))] masked to [k * bits]
    bits, [prev] being its position [j - 1]; when some sequence has fewer
    than [k] symbols the call throws. *)
Theorem embed_features_rolling_codes (k : Z) (s : CStringFeatures) :
  has_subsets s = false ->
  get_num_symbols_in_histogram (alphabet s) > 0 ->
  1 <= k ->
  0 <= get_num_bits (get_alphabet (alphabet s)) ->
  let kind := get_alphabet (alphabet s) in
  let b := get_num_bits kind in
  (Forall (fun v => k <= vlen v) (features s) ->
   exists s',
     embed_features k s = Val tt s'
     /\ length (features s') = length (features s)
     /\ forall (i : nat) (v : SGVector), features s !! i = Some v ->
        exists c : SGVector,
          features s' !! i = Some c
          /\ vlen c = vlen v - k + 1
          /\ c !! 0%nat
             = Some (embed_word b (map (remapped kind) (take (Z.to_nat k) v)) k)
          /\ forall j : nat, (1 <= j)%nat -> Z.of_nat j <= vlen v - k ->
             c !! j
             = Some (ST_cast
                       (Z.land
                          (Z.lor (Z.shiftl (c !!! (j - 1)%nat) b)
                             (remapped kind (v !!! (j + Z.to_nat k - 1)%nat)))
                          (Z.ones (k * b)))))
  /\ (Exists (fun v => vlen v < k) (features s) ->
      exists e s', embed_features k s = Exc e s').
Proof.
  intros Hs Hhist Hk Hb kind b.
  rewrite (embed_features_unfold k s Hs Hhist). fold kind b.
  set (s1 := set_num_symbols _ _).
  assert (Hf1 : features s1 = features s) by reflexivity.
  split.
  - intros Hall.
    pose proof (embed_features_loop ST_bits_byte kind k s1 (length (features s)) Hk Hb)
      as Hloop.
    rewrite Hf1, firstn_all, drop_all, app_nil_r in Hloop.
    specialize (Hloop ltac:(lia) Hall). fold b in Hloop.
    rewrite (bind_Val _ _ _ _ _ Hloop).
    eexists. split.
    { unfold compute_symbol_mask_table. rewrite bind_get.
      change (has_subsets (set_features_field _ s1)) with (has_subsets s).
      rewrite Hs, bind_ret. reflexivity. }
    cbn [features set_symbol_mask_table set_features_field].
    split; [by rewrite length_map|].
    intros i v Hv. exists (spec_kmer_codes kind b k v).
    rewrite list_lookup_fmap, Hv.
    assert (Hv' : k <= vlen v).
    { rewrite Forall_forall in Hall. apply Hall.
      apply list_elem_of_lookup. eauto. }
    split; [reflexivity|]. split; [apply spec_kmer_codes_length; lia|].
    split; [apply spec_kmer_codes_first|].
    intros j Hj1 Hj2. destruct j as [|j]; [lia|].
    destruct (lookup_lt_is_Some_2 v (Z.to_nat k + j)) as [x Hx];
      [unfold vlen in *; lia|].
    rewrite (spec_kmer_codes_next kind b k v j x Hx).
    replace (S j - 1)%nat with j by lia.
    replace (S j + Z.to_nat k - 1)%nat with (Z.to_nat k + j)%nat by lia.
    rewrite (list_lookup_total_correct _ _ _ Hx). reflexivity.
  - intros Hshort.
    destruct (Exists_first _ _ Hshort) as (pre & v & post & Hsplit & Hpre & Hv).
    assert (Hpre' : Forall (fun v => k <= vlen v) (take (length pre) (features s1))).
    { rewrite Hf1, Hsplit, take_app_length.
      eapply Forall_impl; [exact Hpre|]. cbv beta. intros; lia. }
    pose proof (embed_features_loop ST_bits_byte kind k s1 (length pre) Hk Hb) as Hloop.
    specialize (Hloop ltac:(rewrite Hf1, Hsplit, length_app; lia) Hpre').
    fold b in Hloop.
    eexists _, _. apply bind_Exc.
    eapply (embed_features_loop_fails kind k b _ s1 _ (length pre)); [exact Hloop| |exact Hv|].
    + cbn [features set_features_field].
      rewrite lookup_app_r by (rewrite length_map, length_take; lia).
      rewrite length_map, length_take, lookup_drop, Hf1, Hsplit.
      replace (length pre + (length pre - length pre `min` length (pre ++ v :: post)))%nat
        with (length pre + 0)%nat by (rewrite length_app; cbn; lia).
      rewrite lookup_app_r by lia.
      replace (length pre + 0 - length pre)%nat with 0%nat by lia. reflexivity.
    + rewrite Hsplit, length_app. cbn. lia.
Qed.

End EmbedFeaturesClaim.

(** ** The FASTQ loader *)

(** A FASTQ record: identifier, read, quality identifier, quality. *)
Record fastq_entry := {
  fq_id : list Z;
  fq_read : list Z;
  fq_qid : list Z;
  fq_qual : list Z;
}.

Definition no_newline (line : list Z) : Prop := Forall (fun b => b <> 10) line.

(** No line of the record holds a newline. *)
Definition fastq_entry_wf (e : fastq_entry) : Prop :=
  no_newline (fq_id e) /\ no_newline (fq_read e)
  /\ no_newline (fq_qid e) /\ no_newline (fq_qual e).

(** The bytes of a record, each of its four lines ended by a newline, and
    the bytes of a FASTQ source. *)
Definition fastq_entry_bytes (e : fastq_entry) : list Z :=
  fq_id e ++ 10 :: fq_read e ++ 10 :: fq_qid e ++ 10 :: fq_qual e ++ [10].

Definition fastq_bytes (es : list fastq_entry) : list Z :=
  concat (map fastq_entry_bytes es).

Lemma find_newline_app (line rest : list Z) :
  no_newline line -> find_newline (line ++ 10 :: rest) = Some (length line).
Proof.
  induction 1 as [|b line Hb _ IH]; [reflexivity|].
  cbn [app find_newline length]. rewrite bool_decide_eq_false_2 by exact Hb.
  rewrite IH. reflexivity.
Qed.

Lemma get_line_at (A line B : list Z) :
  no_newline line ->
  get_line (A ++ line ++ 10 :: B) (Z.of_nat (length A))
  = (Some line, Z.of_nat (length line), Z.of_nat (length (A ++ line ++ [10]))).
Proof.
  intros Hline. unfold get_line. rewrite Nat2Z.id, drop_app_length.
  rewrite (find_newline_app line B Hline).
  rewrite take_app_length. rewrite !length_app. cbn [length].
  do 2 f_equal. lia.
Qed.

Lemma count_newlines_line (line : list Z) :
  no_newline line -> filter (fun b => b = 10) line = [].
Proof.
  induction 1 as [|b line Hb _ IH]; [reflexivity|].
  rewrite filter_cons_False by exact Hb. exact IH.
Qed.

Lemma get_num_lines_fastq (es : list fastq_entry) :
  Forall fastq_entry_wf es ->
  get_num_lines (fastq_bytes es) = 4 * Z.of_nat (length es).
Proof.
  unfold get_num_lines. induction 1 as [|e es (H1 & H2 & H3 & H4) _ IH];
    [reflexivity|].
  unfold fastq_bytes in *. cbn [map concat].
  rewrite filter_app, length_app. unfold fastq_entry_bytes at 1.
  rewrite !filter_app, !filter_cons_True by reflexivity.
  rewrite !filter_app, !filter_cons_True by reflexivity.
  rewrite !filter_app, !filter_cons_True by reflexivity.
  rewrite !count_newlines_line by assumption.
  rewrite filter_app, (count_newlines_line _ H4).
  change (filter (fun b : Z => b = 10) [10]) with [10].
  cbn [app length]. lia.
Qed.

Lemma get_line_in (file A line B : list Z) (offs : Z) :
  file = A ++ line ++ 10 :: B -> no_newline line -> offs = Z.of_nat (length A) ->
  get_line file offs
  = (Some line, Z.of_nat (length line), Z.of_nat (length (A ++ line ++ [10]))).
Proof. intros -> Hline ->. by apply get_line_at. Qed.

Section FastqClaim.

Context {ST : SymbolType} {AO : AlphabetOps}.

(** The packed code of a read. *)
Definition read_code (kind : EAlphabet) (k : Z) (e : fastq_entry) : Z :=
  embed_word (get_num_bits kind) (map (remapped kind) (fq_read e)) k.

Lemma remap_read_loop kind (line : list Z) (n cap : nat) :
  (n <= length line)%nat -> (n <= cap)%nat ->
  for_loop n (fun j str => <[j := ST_cast (remap_bin kind (line !!! j))]> str)
    (replicate cap 0)
  = map (remapped kind) (take n line) ++ replicate (cap - n) 0.
Proof.
  induction n as [|n IH]; intros Hn Hcap.
  - simpl. by rewrite Nat.sub_0_r.
  - cbn [for_loop]. rewrite IH by lia.
    destruct (lookup_lt_is_Some_2 line n) as [x Hx]; [lia|].
    assert (Hlen : length (map (remapped kind) (take n line)) = n).
    { rewrite length_map, length_take. lia. }
    rewrite insert_app_r_alt by lia. rewrite Hlen, Nat.sub_diag.
    rewrite (take_S_r _ _ _ Hx), map_app, <- app_assoc. f_equal.
    replace (cap - n)%nat with (S (cap - S n)) by lia.
    rewrite (list_lookup_total_correct _ _ _ Hx). reflexivity.
Qed.

(** One turn of the loop over the reads in bit-remap mode, on a record
    whose read has the length kept in [order]. *)
Lemma fastq_read_bitremap (file P R : list Z) (e : fastq_entry) (i : nat)
    (agg : list Z) (m : Z) (ign : bool) (k : nat) (s : CStringFeatures) :
  file = P ++ fastq_entry_bytes e ++ R ->
  fastq_entry_wf e ->
  length (fq_read e) = k -> (1 <= k)%nat -> Z.of_nat k < 2 ^ 31 ->
  order s = Z.of_nat k -> (i < length agg)%nat ->
  fastq_read file ign true i
    {| q_offs := Z.of_nat (length P); q_strings := [agg]; q_max_len := m |} s
  = Val {| q_offs := Z.of_nat (length (P ++ fastq_entry_bytes e));
           q_strings :=
             [<[i := read_code (get_alphabet (alphabet s)) (Z.of_nat k) e]> agg];
           q_max_len := m |} s.
Proof.
  intros Hfile (H1 & H2 & H3 & H4) Hk Hk1 Hk31 Hord Hi.
  unfold fastq_read. rewrite bind_get. cbn [q_offs q_strings q_max_len].
  unfold must_get_line.
  rewrite (get_line_in file P (fq_id e)
             (fq_read e ++ 10 :: fq_qid e ++ 10 :: fq_qual e ++ 10 :: R)); auto.
  2:{ rewrite Hfile. unfold fastq_entry_bytes.
      repeat (rewrite <- ?app_assoc; cbn [app]). reflexivity. }
  rewrite bind_ret. cbn [fst snd].
  rewrite (get_line_in file (P ++ fq_id e ++ [10]) (fq_read e)
             (fq_qid e ++ 10 :: fq_qual e ++ 10 :: R)); auto.
  2:{ rewrite Hfile. unfold fastq_entry_bytes.
      repeat (rewrite <- ?app_assoc; cbn [app]). reflexivity. }
  rewrite bind_ret. cbn [fst snd].
  rewrite Hk. rewrite bool_decide_eq_false_2 by lia. rewrite bind_ret.
  rewrite Hord. unfold u64. rewrite Z.mod_small.
  2:{ split; [lia|]. apply Z.lt_trans with (2 ^ 31); [lia|reflexivity]. }
  rewrite bool_decide_eq_false_2 by lia.
  rewrite bind_assoc, bind_ret.
  unfold new_SGVector. rewrite Nat2Z.id.
  rewrite (remap_read_loop _ _ k k) by lia.
  replace (take k (fq_read e)) with (fq_read e)
    by (rewrite <- Hk; by rewrite firstn_all).
  rewrite Nat.sub_diag, app_nil_r.
  rewrite bind_assoc. cbn [lookup list_lookup]. rewrite bind_lift_Some.
  rewrite bind_assoc. rewrite write_at_Some by exact Hi.
  rewrite bind_lift_Some, bind_ret. cbn [q_offs q_strings q_max_len].
  rewrite (get_line_in file (P ++ fq_id e ++ 10 :: fq_read e ++ [10]) (fq_qid e)
             (fq_qual e ++ 10 :: R)); auto.
  2:{ rewrite Hfile. unfold fastq_entry_bytes.
      repeat (rewrite <- ?app_assoc; cbn [app]). reflexivity. }
  2:{ rewrite !length_app. cbn [length]. rewrite !length_app. cbn [length]. lia. }
  rewrite bind_ret. cbn [fst snd].
  rewrite (get_line_in file
             (P ++ fq_id e ++ 10 :: fq_read e ++ 10 :: fq_qid e ++ [10])
             (fq_qual e) R); auto.
  2:{ rewrite Hfile. unfold fastq_entry_bytes.
      repeat (rewrite <- ?app_assoc; cbn [app]). reflexivity. }
  2:{ repeat (rewrite !length_app; cbn [length]). lia. }
  rewrite bind_ret. cbn [fst snd]. unfold ret, read_code. do 2 f_equal.
  unfold fastq_entry_bytes. repeat (rewrite !length_app; cbn [length]). lia.
Qed.

Lemma fastq_bytes_app es1 es2 :
  fastq_bytes (es1 ++ es2) = fastq_bytes es1 ++ fastq_bytes es2.
Proof. unfold fastq_bytes. by rewrite map_app, concat_app. Qed.

Lemma fastq_bytes_split (es : list fastq_entry) (i : nat) e :
  es !! i = Some e ->
  fastq_bytes es
  = fastq_bytes (take i es) ++ fastq_entry_bytes e ++ fastq_bytes (drop (S i) es).
Proof.
  intros He. rewrite <- (take_drop i es) at 1. rewrite (drop_S _ _ _ He).
  rewrite fastq_bytes_app. unfold fastq_bytes at 2. reflexivity.
Qed.

Lemma fastq_bytes_take_S (es : list fastq_entry) (i : nat) e :
  es !! i = Some e ->
  fastq_bytes (take (S i) es) = fastq_bytes (take i es) ++ fastq_entry_bytes e.
Proof.
  intros He. rewrite (take_S_r _ _ _ He), fastq_bytes_app.
  unfold fastq_bytes at 2. cbn. by rewrite app_nil_r.
Qed.

(** The loop over the reads in bit-remap mode, as long as the reads have
    the length kept in [order]. *)
Lemma fastq_reads_bitremap (es : list fastq_entry) (ign : bool) (k : nat) (m : Z)
    (s : CStringFeatures) (i : nat) :
  Forall fastq_entry_wf es ->
  (1 <= k)%nat -> Z.of_nat k < 2 ^ 31 -> order s = Z.of_nat k ->
  (i <= length es)%nat ->
  Forall (fun e => length (fq_read e) = k) (take i es) ->
  fastq_reads (fastq_bytes es) ign true i
    {| q_offs := 0; q_strings := [replicate (length es) 0]; q_max_len := m |} s
  = Val {| q_offs := Z.of_nat (length (fastq_bytes (take i es)));
           q_strings :=
             [map (read_code (get_alphabet (alphabet s)) (Z.of_nat k)) (take i es)
              ++ replicate (length es - i) 0];
           q_max_len := m |} s.
Proof.
  intros Hwf Hk1 Hk31 Hord. induction i as [|i IH]; intros Hi Hlen.
  - cbn. by rewrite Nat.sub_0_r.
  - destruct (lookup_lt_is_Some_2 es i) as [e He]; [lia|].
    rewrite (take_S_r _ _ _ He) in Hlen. apply Forall_app in Hlen as [Hlen Hlast].
    rewrite Forall_singleton in Hlast.
    cbn [fastq_reads]. rewrite (bind_Val _ _ _ _ _ (IH ltac:(lia) Hlen)).
    assert (Hmap : length (map (read_code (get_alphabet (alphabet s)) (Z.of_nat k))
                             (take i es)) = i).
    { rewrite length_map, length_take. lia. }
    rewrite (fastq_read_bitremap (fastq_bytes es) (fastq_bytes (take i es))
               (fastq_bytes (drop (S i) es)) e i _ m ign k s); auto.
    + rewrite <- (fastq_bytes_take_S es i e He). do 2 f_equal.
      rewrite insert_app_r_alt by lia. rewrite Hmap, Nat.sub_diag.
      rewrite (take_S_r _ _ _ He), map_app, <- app_assoc. do 2 f_equal.
      replace (length es - i)%nat with (S (length es - S i)) by lia.
      reflexivity.
    + by apply fastq_bytes_split.
    + rewrite Forall_forall in Hwf. apply Hwf, list_elem_of_lookup. eauto.
    + rewrite length_app, Hmap, length_replicate. lia.
Qed.

Lemma fastq_reads_Exc file ign bit (n m : nat) st s e s' :
  fastq_reads file ign bit n st s = Exc e s' -> (n <= m)%nat ->
  fastq_reads file ign bit m st s = Exc e s'.
Proof.
  intros H Hnm. induction Hnm as [|m Hnm IH]; [exact H|].
  cbn [fastq_reads]. by rewrite (bind_Exc _ _ _ _ _ IH).
Qed.

(** A read of another length than [order] stops the loop. *)
Lemma fastq_read_bad_length (file P R : list Z) (e : fastq_entry) (i : nat)
    (strings : list SGVector) (m : Z) (ign : bool) (k : nat) (s : CStringFeatures) :
  file = P ++ fastq_entry_bytes e ++ R ->
  fastq_entry_wf e ->
  length (fq_read e) <> k -> Z.of_nat k < 2 ^ 31 ->
  order s = Z.of_nat k ->
  exists ex,
    fastq_read file ign true i
      {| q_offs := Z.of_nat (length P); q_strings := strings; q_max_len := m |} s
    = Exc ex s.
Proof.
  intros Hfile (H1 & H2 & H3 & H4) Hk Hk31 Hord.
  unfold fastq_read. rewrite bind_get. cbn [q_offs q_strings q_max_len].
  unfold must_get_line.
  rewrite (get_line_in file P (fq_id e)
             (fq_read e ++ 10 :: fq_qid e ++ 10 :: fq_qual e ++ 10 :: R)); auto.
  2:{ rewrite Hfile. unfold fastq_entry_bytes.
      repeat (rewrite <- ?app_assoc; cbn [app]). reflexivity. }
  rewrite bind_ret. cbn [fst snd].
  rewrite (get_line_in file (P ++ fq_id e ++ [10]) (fq_read e)
             (fq_qid e ++ 10 :: fq_qual e ++ 10 :: R)); auto.
  2:{ rewrite Hfile. unfold fastq_entry_bytes.
      repeat (rewrite <- ?app_assoc; cbn [app]). reflexivity. }
  rewrite bind_ret. cbn [fst snd].
  case_bool_decide as Hzero; [eexists; reflexivity|].
  rewrite bind_ret.
  rewrite Hord. unfold u64. rewrite Z.mod_small.
  2:{ split; [lia|]. apply Z.lt_trans with (2 ^ 31); [lia|reflexivity]. }
  rewrite bool_decide_eq_true_2 by lia.
  eexists. reflexivity.
Qed.

(** The store when the loop over the reads starts, in bit-remap mode. *)
Definition fastq_start (k : Z) (s : CStringFeatures) : CStringFeatures :=
  set_original_num_symbols (get_num_symbols DNA)
    (set_order k
       (set_alphabet (new_CAlphabet DNA) (cleaned (set_subset_stack [] s)))).

Lemma load_fastq_bitremap_unfold fs fname ign (es : list fastq_entry) s :
  file_data fs fname = Some (fastq_bytes es) ->
  Forall fastq_entry_wf es ->
  let file := fastq_bytes es in
  let len := snd (fst (get_line file (snd (get_line file 0)))) in
  load_fastq_file fs fname ign true s
  = bind (fastq_reads file ign true (length es)
            {| q_offs := 0; q_strings := [replicate (length es) 0];
               q_max_len := Z.of_nat (length es) |})
      (fun st => bind (modify (set_features_field (q_strings st)))
                   (fun _ => ret true))
      (fastq_start (i32 len) s).
Proof.
  intros Hfile Hwf file len. unfold load_fastq_file, remove_all_subsets.
  rewrite bind_modify, Hfile, bind_ret.
  rewrite (get_num_lines_fastq es Hwf).
  rewrite Z.mul_comm, Z.rem_mul by lia.
  rewrite bool_decide_eq_false_2 by lia. rewrite bind_ret.
  rewrite Z.quot_mul by lia.
  rewrite (bind_Val _ _ _ _ _ (cleanup_spec _)). run_monad.
  unfold new_SGVector. rewrite Nat2Z.id. reflexivity.
Qed.

(** C6, for reads of a length [k] with [1 <= k < 2^31]: a FASTQ source whose
    reads all have length [k] loads, in bit-remap mode, to a store holding
    one sequence with one entry per read, the packed code [embed_word] of
    the remapped read; and when, after reads of length [k], a read of another
    length comes, the call throws. *)
Theorem load_fastq_bitremap (fs : FileSystem) (fname : string) (ign : bool)
    (es : list fastq_entry) (k : nat) (s : CStringFeatures) :
  file_data fs fname = Some (fastq_bytes es) ->
  Forall fastq_entry_wf es ->
  (1 <= k)%nat -> Z.of_nat k < 2 ^ 31 ->
  (Forall (fun e => length (fq_read e) = k) es ->
   exists s',
     load_fastq_file fs fname ign true s = Val true s'
     /\ features s' = [map (read_code DNA (Z.of_nat k)) es])
  /\ (forall pre e post,
        es = pre ++ e :: post -> pre <> [] ->
        Forall (fun e => length (fq_read e) = k) pre ->
        length (fq_read e) <> k ->
        exists ex s', load_fastq_file fs fname ign true s = Exc ex s').
Proof.
  intros Hfile Hwf Hk1 Hk31.
  rewrite (load_fastq_bitremap_unfold fs fname ign es s Hfile Hwf). cbv zeta.
  assert (Hlen : forall e0 rest, es = e0 :: rest -> length (fq_read e0) = k ->
            i32 (snd (fst (get_line (fastq_bytes es)
                             (snd (get_line (fastq_bytes es) 0)))))
            = Z.of_nat k).
  { intros e0 rest -> He0.
    assert (Hwf0 : fastq_entry_wf e0) by (by apply Forall_inv in Hwf).
    destruct Hwf0 as (H1 & H2 & _).
    rewrite (get_line_in _ [] (fq_id e0)
               (fq_read e0 ++ 10 :: fq_qid e0 ++ 10 :: fq_qual e0 ++ 10
                :: fastq_bytes rest) 0); auto.
    2:{ unfold fastq_bytes. cbn [map concat]. unfold fastq_entry_bytes.
        repeat (rewrite <- ?app_assoc; cbn [app]). reflexivity. }
    cbn [fst snd].
    rewrite (get_line_in _ ([] ++ fq_id e0 ++ [10]) (fq_read e0)
               (fq_qid e0 ++ 10 :: fq_qual e0 ++ 10 :: fastq_bytes rest)); auto.
    2:{ unfold fastq_bytes. cbn [map concat]. unfold fastq_entry_bytes.
        repeat (rewrite <- ?app_assoc; cbn [app]). reflexivity. }
    cbn [fst snd]. rewrite He0. unfold i32.
    rewrite Z.mod_small; [lia|].
    change (2 ^ 32) with (2 ^ 31 + 2 ^ 31). lia. }
  split.
  - intros Hall. destruct es as [|e0 rest] eqn:Hes.
    + eexists. split; reflexivity.
    + rewrite <- Hes in *.
      rewrite (Hlen e0 rest Hes)
        by (rewrite Hes in Hall; by apply Forall_inv in Hall).
      pose proof (fastq_reads_bitremap es ign k (Z.of_nat (length es))
                    (fastq_start (Z.of_nat k) s) (length es) Hwf Hk1 Hk31
                    eq_refl ltac:(lia)) as Hloop.
      rewrite firstn_all, Nat.sub_diag, app_nil_r in Hloop.
      rewrite (bind_Val _ _ _ _ _ (Hloop Hall)).
      eexists. split; reflexivity.
  - intros pre e post Hes Hpre Hall He.
    destruct pre as [|e0 pre']; [done|].
    rewrite (Hlen e0 (pre' ++ e :: post)) by (by try apply Forall_inv in Hall).
    assert (Hi : (length (e0 :: pre') <= length es)%nat).
    { rewrite Hes, length_app. cbn. lia. }
    assert (Htake : take (length (e0 :: pre')) es = e0 :: pre').
    { rewrite Hes. apply take_app_length. }
    pose proof (fastq_reads_bitremap es ign k (Z.of_nat (length es))
                  (fastq_start (Z.of_nat k) s) (length (e0 :: pre')) Hwf Hk1 Hk31
                  eq_refl Hi) as Hloop.
    rewrite Htake in Hloop. specialize (Hloop Hall).
    assert (He' : es !! length (e0 :: pre') = Some e).
    { rewrite Hes. rewrite lookup_app_r by lia. by rewrite Nat.sub_diag. }
    destruct (fastq_read_bad_length (fastq_bytes es) (fastq_bytes (e0 :: pre'))
                (fastq_bytes (drop (S (length (e0 :: pre'))) es)) e
                (length (e0 :: pre'))
                [map (read_code DNA (Z.of_nat k)) (e0 :: pre')
                 ++ replicate (length es - length (e0 :: pre')) 0]
                (Z.of_nat (length es)) ign k (fastq_start (Z.of_nat k) s))
      as [ex Hex]; auto.
    { rewrite <- Htake at 1. by apply fastq_bytes_split. }
    { rewrite Forall_forall in Hwf. apply Hwf, list_elem_of_lookup. eauto. }
    eexists _, _. apply bind_Exc.
    apply (fastq_reads_Exc _ _ _ (S (length (e0 :: pre')))).
    + cbn [fastq_reads]. rewrite (bind_Val _ _ _ _ _ Hloop). exact Hex.
    + apply lookup_lt_Some in He'. lia.
Qed.

End FastqClaim.

(** ** The compressed format: round trip *)

Lemma le_bytes_length n z : length (le_bytes n z) = n.
Proof. revert z. induction n as [|n IH]; intros z; [reflexivity|]. cbn. by rewrite IH. Qed.

Lemma le_value_le_bytes n z :
  le_value (le_bytes n z) = z mod 2 ^ (8 * Z.of_nat n).
Proof.
  revert z. induction n as [|n IH]; intros z.
  - cbn. by rewrite Z.mod_1_r.
  - cbn [le_bytes le_value]. rewrite IH.
    replace (8 * Z.of_nat (S n)) with (8 + 8 * Z.of_nat n) by lia.
    rewrite Z.pow_add_r by lia. change (2 ^ 8) with 256.
    rewrite Z.rem_mul_r by lia. reflexivity.
Qed.

Lemma i32_id z : - 2 ^ 31 <= z < 2 ^ 31 -> i32 z = z.
Proof.
  intros Hz. unfold i32. rewrite Z.mod_small; [lia|].
  change (2 ^ 32) with (2 ^ 31 + 2 ^ 31). lia.
Qed.

Lemma i32_mod z : i32 (z mod 2 ^ 32) = i32 z.
Proof.
  unfold i32. rewrite Zplus_mod_idemp_l. reflexivity.
Qed.

Lemma fread_int32_le_bytes z rest :
  - 2 ^ 31 <= z < 2 ^ 31 ->
  fread_int32 (le_bytes 4 z ++ rest) = Some (z, rest).
Proof.
  intros Hz. unfold fread_int32.
  rewrite bool_decide_eq_true_2 by (rewrite length_app, le_bytes_length; lia).
  rewrite (take_app_length' _ _ 4) by (by rewrite le_bytes_length).
  rewrite (drop_app_length' _ _ 4) by (by rewrite le_bytes_length).
  rewrite le_value_le_bytes. change (8 * Z.of_nat 4) with 32.
  rewrite i32_mod, i32_id by exact Hz. reflexivity.
Qed.

Lemma fread_bytes_app (data rest : list Z) :
  fread_bytes (Z.of_nat (length data)) (data ++ rest) = Some (data, rest).
Proof.
  unfold fread_bytes.
  rewrite bool_decide_eq_true_2 by (rewrite length_app; lia).
  rewrite Nat2Z.id, take_app_length, drop_app_length. reflexivity.
Qed.

Lemma overwrite_all (old out : list Z) :
  length out = length old -> overwrite old out = out.
Proof.
  intros H. unfold overwrite. rewrite drop_ge by lia.
  rewrite app_nil_r, <- H. apply firstn_all.
Qed.

Section RawMemoryFacts.

Context {ST : SymbolType}.

(** [ST] has whole bytes. *)
Hypothesis ST_whole_bytes : 0 < sizeof_ST /\ ST_bits = 8 * sizeof_ST.

Lemma to_raw_length (v : SGVector) :
  Z.of_nat (length (to_raw v)) = vlen v * sizeof_ST.
Proof.
  unfold vlen. induction v as [|x v IH]; [reflexivity|].
  cbn [to_raw length]. rewrite length_app, le_bytes_length. lia.
Qed.

Lemma of_raw_to_raw (v : SGVector) (rest : list Z) :
  Forall ST_range v -> of_raw (length v) (to_raw v ++ rest) = v.
Proof.
  induction 1 as [|x v Hx _ IH]; [reflexivity|].
  cbn [to_raw length of_raw]. rewrite <- app_assoc.
  rewrite (take_app_length' _ _ (Z.to_nat sizeof_ST))
    by (by rewrite le_bytes_length).
  rewrite (drop_app_length' _ _ (Z.to_nat sizeof_ST))
    by (by rewrite le_bytes_length).
  rewrite IH. f_equal.
  rewrite le_value_le_bytes. rewrite Z2Nat.id by lia.
  destruct ST_whole_bytes as [Hpos Hbits]. rewrite <- Hbits.
  assert (Hbpos : 0 < ST_bits) by lia.
  rewrite <- (ST_cast_id Hbpos x Hx) at 2.
  apply ST_cast_congr. apply Z.mod_mod. lia.
Qed.

End RawMemoryFacts.

Lemma subset_idx_conversion_none (s : CStringFeatures) i :
  has_subsets s = false -> subset_idx_conversion s i = i.
Proof.
  intros Hs. unfold subset_idx_conversion. by rewrite (has_subsets_false s Hs).
Qed.

(** The longest sequence, without subsets. *)
Lemma get_max_vector_length_bounds (s : CStringFeatures) :
  has_subsets s = false ->
  0 <= get_max_vector_length s
  /\ (forall v, v ∈ features s -> vlen v <= get_max_vector_length s)
  /\ (forall B, 0 < B -> Forall (fun v => vlen v < B) (features s) ->
      get_max_vector_length s < B).
Proof.
  intros Hs. unfold get_max_vector_length.
  rewrite (get_num_vectors_no_subset s Hs), Nat2Z.id.
  assert (H : forall n, (n <= length (features s))%nat ->
    let m := for_loop n
               (fun i max_string_length =>
                  Z.max max_string_length
                    (vlen (features s
                           !!! Z.to_nat (subset_idx_conversion s (Z.of_nat i)))))
               0 in
    0 <= m
    /\ (forall v, v ∈ take n (features s) -> vlen v <= m)
    /\ (forall B, 0 < B -> Forall (fun v => vlen v < B) (features s) -> m < B)).
  { induction n as [|n IH]; intros Hn; cbn zeta.
    - cbn [for_loop]. split; [lia|]. split; [|auto].
      intros v Hv. rewrite take_0 in Hv. by apply elem_of_nil in Hv.
    - destruct (IH ltac:(lia)) as (H0 & Hle & HB). cbn [for_loop].
      rewrite (subset_idx_conversion_none s _ Hs), Nat2Z.id.
      destruct (lookup_lt_is_Some_2 (features s) n) as [x Hx]; [lia|].
      rewrite (list_lookup_total_correct _ _ _ Hx).
      split; [lia|]. split.
      + intros v Hv. rewrite (take_S_r _ _ _ Hx) in Hv.
        apply elem_of_app in Hv as [Hv|Hv].
        * specialize (Hle v Hv). lia.
        * apply list_elem_of_singleton in Hv as ->. lia.
      + intros B HB0 Hall. specialize (HB B HB0 Hall).
        rewrite Forall_forall in Hall.
        specialize (Hall x ltac:(apply list_elem_of_lookup; eauto)).
        cbv beta in Hall. lia. }
  specialize (H (length (features s)) ltac:(lia)). cbn zeta in H.
  rewrite firstn_all in H. exact H.
Qed.

Section CodecRoundTrip.

Context {ST : SymbolType} {AO : AlphabetOps} {CO : CompressorOps}.

(** [ST] has one to eight whole bytes. *)
Hypothesis ST_whole_bytes : 0 < sizeof_ST /\ ST_bits = 8 * sizeof_ST.
Hypothesis ST_bits_max : ST_bits <= 64.

(** A sequence the format can hold: its elements are values of [ST], and
    its length and the size of its compressed form fit the [int32_t]
    fields of a frame. *)
Definition frame_fits (compression level : Z) (vec : SGVector) : Prop :=
  Forall ST_range vec
  /\ vlen vec < 2 ^ 31
  /\ Z.of_nat (length (compress compression (to_raw vec) level)) < 2 ^ 31.

(** The compressor gives back what it was given, when the destination has
    room for exactly that. *)
Definition decompress_inverts (compression level : Z) : Prop :=
  forall data,
    decompress compression (compress compression data level)
      (Z.of_nat (length data)) = Some data.

Lemma u64_size (n : Z) : 0 <= n < 2 ^ 31 -> u64 (u64 n * sizeof_ST) = n * sizeof_ST.
Proof.
  intros Hn. destruct ST_whole_bytes as [Hpos Hbits].
  assert (Hsz : sizeof_ST <= 8) by lia.
  unfold u64. rewrite (Z.mod_small n).
  2:{ split; [lia|]. apply Z.lt_trans with (2 ^ 31); [lia|reflexivity]. }
  apply Z.mod_small. split; [nia|].
  apply Z.le_lt_trans with (2 ^ 31 * 8); [nia|reflexivity].
Qed.

Lemma load_frame_of_compressed_frame c lvl (vec : SGVector) (rest : list Z)
    (s : CStringFeatures) :
  frame_fits c lvl vec -> decompress_inverts c lvl ->
  load_frame true c (compressed_frame c lvl vec ++ rest) s
  = Val rest (set_features_field (features s ++ [vec]) s).
Proof.
  intros (Hrange & Hlen & Hclen) Hinv.
  assert (Hc1 : - 2 ^ 31 <= Z.of_nat (length (compress c (to_raw vec) lvl)) < 2 ^ 31).
  { split; [|exact Hclen]. apply Z.le_trans with 0; [done|lia]. }
  assert (Hl1 : - 2 ^ 31 <= vlen vec < 2 ^ 31).
  { split; [|exact Hlen]. apply Z.le_trans with 0; [done|unfold vlen; lia]. }
  unfold load_frame, compressed_frame. cbv zeta.
  rewrite (i32_id _ Hc1). rewrite <- !app_assoc.
  rewrite (fread_int32_le_bytes _ _ Hc1).
  unfold must_read at 1. rewrite bind_ret. cbn [fst snd].
  rewrite (fread_int32_le_bytes _ _ Hl1).
  unfold must_read at 1. rewrite bind_ret. cbn [fst snd].
  rewrite bind_get, bind_modify.
  rewrite fread_bytes_app. unfold must_read. rewrite bind_ret. cbn [fst snd].
  rewrite u64_size by (unfold vlen in *; lia).
  rewrite <- (to_raw_length ST_whole_bytes vec), Hinv.
  rewrite bind_modify. unfold ASSERT.
  rewrite bool_decide_eq_true_2 by reflexivity. rewrite bind_ret.
  unfold ret. f_equal.
  cbn [features set_features_field]. unfold set_features_field. cbn.
  do 3 f_equal. unfold new_SGVector, vlen. rewrite Nat2Z.id, length_replicate.
  rewrite overwrite_all.
  - rewrite <- (app_nil_r (to_raw vec)).
    apply (of_raw_to_raw ST_whole_bytes); assumption.
  - pose proof (to_raw_length ST_whole_bytes vec) as H1.
    pose proof (to_raw_length ST_whole_bytes (replicate (length vec) 0)) as H2.
    unfold vlen in *. rewrite length_replicate in H2. lia.
Qed.

Lemma load_frames_of_frames c lvl (vs : list SGVector) (rest : list Z)
    (s : CStringFeatures) :
  Forall (frame_fits c lvl) vs -> decompress_inverts c lvl ->
  load_frames true c (length vs)
    (concat (map (compressed_frame c lvl) vs) ++ rest) s
  = Val tt (set_features_field (features s ++ vs) s).
Proof.
  intros Hfits Hinv. revert s. induction Hfits as [|v vs Hv _ IH]; intros s.
  - cbn. unfold ret. by rewrite app_nil_r, set_features_field_id.
  - cbn [length map concat load_frames]. rewrite <- app_assoc.
    rewrite (bind_Val _ _ _ _ _
               (load_frame_of_compressed_frame c lvl v _ s Hv Hinv)).
    rewrite IH. cbn [features set_features_field].
    unfold set_features_field; cbn. by rewrite <- app_assoc.
Qed.

Lemma get_feature_vector_plain (s : CStringFeatures) (i : nat) v :
  has_subsets s = false -> preprocess_on_get s = false ->
  features s !! i = Some v ->
  get_feature_vector (Z.of_nat i) s = Val v s.
Proof.
  intros Hs Hpre Hv. unfold get_feature_vector. rewrite bind_get.
  rewrite (get_num_vectors_no_subset s Hs).
  apply lookup_lt_Some in Hv as Hlt.
  rewrite bool_decide_eq_false_2 by lia. rewrite bind_ret.
  rewrite Hpre. cbn [negb].
  rewrite (subset_idx_conversion_none s _ Hs), Nat2Z.id, Hv. reflexivity.
Qed.

Lemma save_frames_loop (s : CStringFeatures) c lvl (header : list Z) (i : nat) :
  has_subsets s = false -> preprocess_on_get s = false ->
  (i <= length (features s))%nat ->
  for_loop i
    (fun i (m : M (list Z)) =>
       bind m (fun out =>
       bind (get_feature_vector (Z.of_nat i)) (fun vec =>
       ret (out ++ compressed_frame c lvl vec))))
    (ret header) s
  = Val (header ++ concat (map (compressed_frame c lvl) (take i (features s)))) s.
Proof.
  intros Hs Hpre. induction i as [|i IH]; intros Hi.
  - cbn. unfold ret. by rewrite app_nil_r.
  - cbn [for_loop]. rewrite (bind_Val _ _ _ _ _ (IH ltac:(lia))).
    destruct (lookup_lt_is_Some_2 (features s) i) as [v Hv]; [lia|].
    rewrite (bind_Val _ _ _ _ _ (get_feature_vector_plain s i v Hs Hpre Hv)).
    unfold ret. f_equal.
    rewrite (take_S_r _ _ _ Hv), map_app, concat_app. cbn [map concat].
    by rewrite app_nil_r, app_assoc.
Qed.

(** What [save_compressed] writes. *)
Lemma save_compressed_spec (fs : FileSystem) dest c lvl (s : CStringFeatures) :
  has_subsets s = false -> preprocess_on_get s = false ->
  can_create fs dest = true ->
  save_compressed fs dest c lvl s
  = Val (true,
         write_file fs dest
           (compressed_header c (get_alphabet (alphabet s))
              (Z.of_nat (length (features s))) (get_max_vector_length s)
            ++ concat (map (compressed_frame c lvl) (features s)))) s.
Proof.
  intros Hs Hpre Hcan. unfold save_compressed. rewrite bind_get.
  rewrite Hs, bind_ret, Hcan. cbn [negb].
  rewrite (get_num_vectors_no_subset s Hs), Nat2Z.id.
  rewrite (bind_Val _ _ _ _ _
             (save_frames_loop s c lvl _ (length (features s)) Hs Hpre ltac:(lia))).
  by rewrite firstn_all.
Qed.

(** [load_compressed] up to the loop over the frames, on a file that
    starts with a header. *)
Lemma load_compressed_header (fs : FileSystem) src c a n max (body : list Z)
    (d : bool) (s0 : CStringFeatures) :
  file_data fs src = Some (compressed_header c a n max ++ body) ->
  0 < n < 2 ^ 31 -> 0 < max < 2 ^ 31 ->
  load_compressed fs src d s0
  = bind (load_frames d (u8 c) (Z.to_nat n) body) (fun _ => ret false)
      (set_features_field []
         (set_alphabet (new_CAlphabet (u8 a)) (cleaned (set_subset_stack [] s0)))).
Proof.
  intros Hfile Hn Hmax. unfold load_compressed, remove_all_subsets.
  rewrite bind_modify, Hfile.
  rewrite (bind_Val _ _ _ _ _ (cleanup_spec _)).
  unfold compressed_header. rewrite <- !app_assoc. cbn [app].
  assert (Htag : forall x text stream s,
            read_tag_byte x text (x :: stream) s = Val stream s).
  { intros x text stream s. unfold read_tag_byte, must_read, ASSERT.
    cbn [fread_byte]. rewrite bind_ret. cbn [fst snd].
    rewrite bool_decide_eq_true_2 by reflexivity. reflexivity. }
  rewrite !(bind_Val _ _ _ _ _ (Htag _ _ _ _)).
  unfold must_read. cbn [fread_byte].
  rewrite bind_ret. cbn [fst snd fread_byte]. rewrite bind_ret. cbn [fst snd].
  rewrite bind_modify.
  rewrite fread_int32_le_bytes
    by (split; [apply Z.le_trans with 0; [done|lia]|lia]).
  rewrite bind_ret. cbn [fst snd]. unfold ASSERT.
  rewrite bool_decide_eq_true_2 by lia. rewrite bind_ret.
  rewrite fread_int32_le_bytes
    by (split; [apply Z.le_trans with 0; [done|lia]|lia]).
  rewrite bind_ret. cbn [fst snd].
  rewrite bool_decide_eq_true_2 by lia. run_monad. reflexivity.
Qed.

(** In eager mode a frame whose decompressed size is not the declared
    length fails the assertion. *)
Lemma load_frame_size_mismatch c lc lu (comp out rest : list Z)
    (s : CStringFeatures) :
  lc = Z.of_nat (length comp) -> lc < 2 ^ 31 -> - 2 ^ 31 <= lu < 2 ^ 31 ->
  decompress c comp (u64 (u64 lu * sizeof_ST)) = Some out ->
  Z.of_nat (length out) <> u64 (u64 lu * sizeof_ST) ->
  exists s',
    load_frame true c (le_bytes 4 lc ++ le_bytes 4 lu ++ comp ++ rest) s
    = Exc (AssertFailed
             "uncompressed_size==((uint64_t) len_uncompressed)*sizeof(ST)") s'.
Proof.
  intros -> Hlc Hlu Hdec Hsize. unfold load_frame.
  rewrite fread_int32_le_bytes
    by (split; [apply Z.le_trans with 0; [done|lia]|lia]).
  unfold must_read at 1. rewrite bind_ret. cbn [fst snd].
  rewrite (fread_int32_le_bytes _ _ Hlu).
  unfold must_read at 1. rewrite bind_ret. cbn [fst snd].
  rewrite bind_get, bind_modify, fread_bytes_app.
  unfold must_read. rewrite bind_ret. cbn [fst snd].
  rewrite Hdec, bind_modify. unfold ASSERT.
  rewrite bool_decide_eq_false_2 by exact Hsize.
  eexists. reflexivity.
Qed.

Lemma load_frames_prefix c lvl (good : list SGVector) (m : nat) (rest : list Z)
    (s : CStringFeatures) :
  Forall (frame_fits c lvl) good -> decompress_inverts c lvl ->
  load_frames true c (length good + m)
    (concat (map (compressed_frame c lvl) good) ++ rest) s
  = load_frames true c m rest (set_features_field (features s ++ good) s).
Proof.
  intros Hfits Hinv. revert s. induction Hfits as [|v vs Hv _ IH]; intros s.
  - cbn. by rewrite app_nil_r, set_features_field_id.
  - cbn [length map concat load_frames plus]. rewrite <- app_assoc.
    rewrite (bind_Val _ _ _ _ _
               (load_frame_of_compressed_frame c lvl v _ s Hv Hinv)).
    rewrite IH. cbn [features set_features_field].
    unfold set_features_field; cbn. by rewrite <- app_assoc.
Qed.

(** C1, for sequences the format can hold: a store without an active
    subset and with on-the-fly preprocessing off, holding at least one
    non-empty sequence, is written by [save_compressed], and
    [load_compressed] in eager mode on the written file leaves a store whose
    sequences are those of the first ([load_compressed] returning [false]);
    and in eager mode a file whose frames are good up to a frame whose
    decompressed size is not the declared length fails the load at the
    assertion on that size. *)
Theorem compressed_round_trip (fs : FileSystem) (dest : string) (c lvl : Z)
    (s s0 : CStringFeatures) :
  has_subsets s = false ->
  preprocess_on_get s = false ->
  can_create fs dest = true ->
  0 <= c < 256 ->
  decompress_inverts c lvl ->
  Forall (frame_fits c lvl) (features s) ->
  Z.of_nat (length (features s)) < 2 ^ 31 ->
  Exists (fun v => v <> []) (features s) ->
  (exists fs',
     save_compressed fs dest c lvl s = Val (true, fs') s
     /\ exists s1,
          load_compressed fs' dest true s0 = Val false s1
          /\ features s1 = features s)
  /\ (forall (fs2 : FileSystem) (src : string) (a n max : Z)
        (good : list SGVector) (lc lu : Z) (comp out rest : list Z),
        file_data fs2 src
        = Some (compressed_header c a n max
                ++ concat (map (compressed_frame c lvl) good)
                ++ le_bytes 4 lc ++ le_bytes 4 lu ++ comp ++ rest) ->
        Forall (frame_fits c lvl) good ->
        Z.of_nat (length good) < n < 2 ^ 31 -> 0 < max < 2 ^ 31 ->
        lc = Z.of_nat (length comp) -> lc < 2 ^ 31 -> - 2 ^ 31 <= lu < 2 ^ 31 ->
        decompress c comp (u64 (u64 lu * sizeof_ST)) = Some out ->
        Z.of_nat (length out) <> u64 (u64 lu * sizeof_ST) ->
        exists s',
          load_compressed fs2 src true s0
          = Exc (AssertFailed
                   "uncompressed_size==((uint64_t) len_uncompressed)*sizeof(ST)")
              s').
Proof.
  intros Hs Hpre Hcan Hc Hinv Hfits Hn Hne.
  assert (Hu8 : u8 c = c) by (unfold u8; apply Z.mod_small; lia).
  split.
  - eexists. split; [apply save_compressed_spec; assumption|].
    destruct (get_max_vector_length_bounds s Hs) as (Hmax0 & Hmax1 & Hmax2).
    assert (Hmax : 0 < get_max_vector_length s < 2 ^ 31).
    { split.
      - apply Exists_exists in Hne as (v & Hv & Hvne).
        specialize (Hmax1 v Hv). destruct v; [done|]. unfold vlen in Hmax1.
        cbn [length] in Hmax1. lia.
      - apply Hmax2; [done|]. eapply Forall_impl; [exact Hfits|].
        intros v (_ & Hv & _). exact Hv. }
    assert (Hn0 : 0 < Z.of_nat (length (features s)) < 2 ^ 31).
    { split; [|exact Hn]. destruct (features s); [by apply Exists_nil in Hne|].
      cbn [length]. lia. }
    erewrite load_compressed_header; [| |exact Hn0|exact Hmax].
    2:{ unfold write_file. cbn [file_data]. rewrite decide_True by reflexivity.
        reflexivity. }
    rewrite Hu8, Nat2Z.id.
    rewrite <- (app_nil_r (concat _)).
    rewrite (bind_Val _ _ _ _ _ (load_frames_of_frames c lvl _ [] _ Hfits Hinv)).
    eexists. split; reflexivity.
  - intros fs2 src a n max good lc lu comp out rest Hfile Hgood Hng Hmaxg Hlc Hlc31
      Hlu Hdec Hsize.
    erewrite load_compressed_header; [|exact Hfile|lia|exact Hmaxg].
    rewrite Hu8.
    replace (Z.to_nat n) with (length good + S (Z.to_nat n - length good - 1))%nat
      by lia.
    destruct (load_frame_size_mismatch c lc lu comp out rest
                (set_features_field
                   (features
                      (set_features_field []
                         (set_alphabet (new_CAlphabet (u8 a))
                            (cleaned (set_subset_stack [] s0)))) ++ good)
                   (set_features_field []
                      (set_alphabet (new_CAlphabet (u8 a))
                         (cleaned (set_subset_stack [] s0)))))
                Hlc Hlc31 Hlu Hdec Hsize) as [s' Hs'].
    exists s'. apply bind_Exc.
    rewrite (load_frames_prefix c lvl good _ _ _ Hgood Hinv).
    cbn [load_frames]. apply bind_Exc. exact Hs'.
Qed.

End CodecRoundTrip.

(** ** The directory loader *)

Section DirectoryClaim.

Context {ST : SymbolType} {AO : AlphabetOps} {FS : FsRegistry}.
Hypothesis sizeof_ST_pos : 0 < sizeof_ST.












End DirectoryClaim.

(** ** Access to single sequences *)

Section AccessorFacts.

Context {ST : SymbolType} {AO : AlphabetOps}.

Lemma free_feature_vector_ok num s :
  num < get_num_vectors s -> free_feature_vector num s = Val tt s.
Proof.
  intros H. unfold free_feature_vector. rewrite bind_get.
  rewrite bool_decide_eq_false_2 by lia. reflexivity.
Qed.

(** Without preprocessing on the fly a sequence is read through the
    subset stack. *)
Lemma get_feature_vector_at s num v :
  preprocess_on_get s = false ->
  num < get_num_vectors s ->
  features s !! Z.to_nat (subset_idx_conversion s num) = Some v ->
  get_feature_vector num s = Val v s.
Proof.
  intros Hpre Hnum Hv. unfold get_feature_vector. rewrite bind_get.
  rewrite bool_decide_eq_false_2 by lia. rewrite bind_ret, Hpre. cbn [negb].
  rewrite Hv. reflexivity.
Qed.

Lemma get_feature_vector_SGVector_at s num v :
  preprocess_on_get s = false ->
  num < get_num_vectors s ->
  features s !! Z.to_nat (subset_idx_conversion s num) = Some v ->
  get_feature_vector_SGVector num s = Val v s.
Proof.
  intros Hpre Hnum Hv. unfold get_feature_vector_SGVector. rewrite bind_get.
  rewrite bool_decide_eq_false_2 by lia. rewrite bind_ret.
  rewrite (bind_Val _ _ _ _ _ (get_feature_vector_at s num v Hpre Hnum Hv)).
  rewrite (bind_Val _ _ _ _ _ (free_feature_vector_ok num s Hnum)).
  reflexivity.
Qed.

Lemma get_vector_length_at s num v :
  preprocess_on_get s = false ->
  num < get_num_vectors s ->
  features s !! Z.to_nat (subset_idx_conversion s num) = Some v ->
  get_vector_length num s = Val (vlen v) s.
Proof.
  intros Hpre Hnum Hv. unfold get_vector_length. rewrite bind_get. unfold ASSERT.
  rewrite bool_decide_eq_true_2 by lia. rewrite bind_ret.
  rewrite (bind_Val _ _ _ _ _ (get_feature_vector_at s num v Hpre Hnum Hv)).
  rewrite (bind_Val _ _ _ _ _ (free_feature_vector_ok num s Hnum)).
  reflexivity.
Qed.

Lemma assign_feature_ok (i : nat) v s :
  (i < length (features s))%nat ->
  assign_feature (Z.of_nat i) v s
  = Val tt (set_features_field (<[i := v]> (features s)) s).
Proof.
  intros Hi. unfold assign_feature. rewrite bind_get.
  rewrite bool_decide_eq_true_2 by lia. rewrite Nat2Z.id. reflexivity.
Qed.

(** X1: [set_feature_vector(vector, num)] at an index [0 <= num] returns
    exactly when the store has no subset, [num] is below the number of
    sequences and [vector] is not empty; every other call throws with the
    store as it was.  After a call that returned, [get_feature_vector(num)]
    gives [vector], every other index gives what it gave before, and the
    number of sequences and the alphabet (its histogram included) are as
    before. *)
Theorem set_feature_vector_then_get (vector : SGVector) (num : Z)
    (s : CStringFeatures) :
  preprocess_on_get s = false ->
  0 <= num ->
  (has_subsets s = false /\ num < get_num_vectors s /\ 0 < vlen vector ->
   exists s',
     set_feature_vector vector num s = Val tt s'
     /\ get_feature_vector_SGVector num s' = Val vector s'
     /\ get_num_vectors s' = get_num_vectors s
     /\ alphabet s' = alphabet s
     /\ forall i v, 0 <= i -> i <> num ->
        get_feature_vector_SGVector i s = Val v s ->
        get_feature_vector_SGVector i s' = Val v s')
  /\ (~ (has_subsets s = false /\ num < get_num_vectors s /\ 0 < vlen vector) ->
      exists e, set_feature_vector vector num s = Exc e s).
Proof.
  intros Hpre Hnum. split.
  - intros (Hs & Hlt & Hv).
    pose proof (get_num_vectors_no_subset s Hs) as Hn.
    set (s' := set_features_field (<[Z.to_nat num := vector]> (features s)) s).
    assert (Hs' : has_subsets s' = false) by exact Hs.
    assert (Hn' : get_num_vectors s' = get_num_vectors s).
    { rewrite (get_num_vectors_no_subset s' Hs'), Hn. subst s'.
      cbn [features set_features_field]. by rewrite length_insert. }
    exists s'. split; [|split; [|split; [|split]]].
    + unfold set_feature_vector. rewrite bind_get, Hs, bind_ret.
      rewrite bool_decide_eq_false_2 by lia. rewrite bind_ret.
      rewrite bool_decide_eq_false_2 by lia. rewrite bind_ret.
      rewrite <- (Z2Nat.id num) at 1 by lia.
      rewrite assign_feature_ok by lia. reflexivity.
    + apply get_feature_vector_SGVector_at; [exact Hpre|lia|].
      rewrite (subset_idx_conversion_none s' num Hs'). subst s'.
      cbn [features set_features_field].
      apply list_lookup_insert_eq. lia.
    + exact Hn'.
    + reflexivity.
    + intros i v Hi Hne Hget.
      unfold get_feature_vector_SGVector in Hget. rewrite bind_get in Hget.
      case_bool_decide as Hin; [discriminate|]. rewrite bind_ret in Hget.
      unfold get_feature_vector in Hget. rewrite bind_assoc, bind_get in Hget.
      rewrite bool_decide_eq_false_2 in Hget by lia.
      rewrite bind_assoc, bind_ret, Hpre in Hget. cbn [negb] in Hget.
      rewrite (subset_idx_conversion_none s i Hs) in Hget.
      destruct (features s !! Z.to_nat i) as [x|] eqn:Hx; [|discriminate].
      rewrite bind_lift_Some in Hget.
      rewrite (bind_Val _ _ _ _ _ (free_feature_vector_ok i s ltac:(lia))) in Hget.
      injection Hget as ->.
      apply get_feature_vector_SGVector_at; [exact Hpre|lia|].
      rewrite (subset_idx_conversion_none s' i Hs'). subst s'.
      cbn [features set_features_field].
      rewrite list_lookup_insert_ne by lia. exact Hx.
  - intros Hnot. unfold set_feature_vector. rewrite bind_get.
    destruct (has_subsets s) eqn:Hs; [eexists; reflexivity|]. rewrite bind_ret.
    case_bool_decide as H1; [eexists; reflexivity|]. rewrite bind_ret.
    case_bool_decide as H2; [eexists; reflexivity|].
    exfalso. apply Hnot. repeat split; lia.
Qed.

End AccessorFacts.

Section LengthFacts.

Context {ST : SymbolType} {AO : AlphabetOps}.


(** The loop of [have_same_length] over the sequences from [i] on. *)
Lemma have_same_length_loop_spec (len : Z) (s : CStringFeatures) (n i : nat) :
  has_subsets s = false -> preprocess_on_get s = false ->
  (i + n = length (features s))%nat ->
  have_same_length_loop len (Z.of_nat i) n s
  = Val (bool_decide (Forall (fun v => vlen v = len) (drop i (features s)))) s.
Proof.
  intros Hs Hpre. revert i. induction n as [|n IH]; intros i Hi.
  - cbn [have_same_length_loop]. rewrite drop_ge by lia.
    rewrite bool_decide_eq_true_2 by constructor. reflexivity.
  - cbn [have_same_length_loop].
    destruct (lookup_lt_is_Some_2 (features s) i) as [v Hv]; [lia|].
    rewrite (bind_Val _ _ _ _ _ (get_vector_length_at s (Z.of_nat i) v Hpre
               ltac:(rewrite (get_num_vectors_no_subset s Hs); lia)
               ltac:(rewrite (subset_idx_conversion_none s _ Hs), Nat2Z.id;
                     exact Hv))).
    rewrite (drop_S _ _ _ Hv).
    case_bool_decide as Hne.
    + rewrite bool_decide_eq_false_2; [reflexivity|].
      intros H. apply Forall_cons in H as [H _]. done.
    + replace (Z.of_nat i + 1) with (Z.of_nat (S i)) by lia.
      rewrite IH by lia. f_equal. apply bool_decide_ext.
      rewrite Forall_cons. split; [intros; split; [lia|done]|intros [_ ?]; done].
Qed.

(** The call without argument compares every sequence with the longest. *)
Lemma have_same_length_default (s : CStringFeatures) :
  has_subsets s = false -> preprocess_on_get s = false ->
  have_same_length (-1) s
  = Val (bool_decide
           ((-1 = -1 \/ -1 = get_max_vector_length s)
            /\ Forall (fun v => vlen v = get_max_vector_length s) (features s)))
      s.
Proof.
  intros Hs Hpre. unfold have_same_length. rewrite bind_get.
  rewrite (bool_decide_eq_false_2 (-1 <> -1)) by (intros H; by apply H).
  cbn [andb]. cbv zeta. rewrite (get_num_vectors_no_subset s Hs), Nat2Z.id.
  rewrite (have_same_length_loop_spec _ s (length (features s)) 0 Hs Hpre eq_refl).
  rewrite drop_0. f_equal. apply bool_decide_ext.
  split; [intros; split; [by left|done]|intros [_ ?]; done].
Qed.

(** X3: on a store without subset and without preprocessing on the fly,
    [have_same_length(len)] returns, with the store as it was, whether
    every sequence has the length of the longest one and, unless [len] is
    -1, [len] is that length. *)
Theorem have_same_length_spec (len : Z) (s : CStringFeatures) :
  has_subsets s = false -> preprocess_on_get s = false ->
  have_same_length len s
  = Val (bool_decide
           ((len = -1 \/ len = get_max_vector_length s)
            /\ Forall (fun v => vlen v = get_max_vector_length s) (features s)))
      s.
Proof.
  intros Hs Hpre. unfold have_same_length. rewrite bind_get.
  destruct (bool_decide (len <> -1) && bool_decide (len <> get_max_vector_length s))
    eqn:Hguard.
  - apply andb_true_iff in Hguard as [H1 H2].
    apply bool_decide_eq_true_1 in H1, H2.
    rewrite bool_decide_eq_false_2; [reflexivity|]. intros [[?|?] _]; done.
  - cbv zeta. rewrite (get_num_vectors_no_subset s Hs), Nat2Z.id.
    rewrite (have_same_length_loop_spec _ s (length (features s)) 0 Hs Hpre eq_refl).
    rewrite drop_0. f_equal. apply bool_decide_ext.
    apply andb_false_iff in Hguard as [H|H]; apply bool_decide_eq_false_1 in H.
    + split; [intros; split; [left; lia|done]|intros [_ ?]; done].
    + split; [intros; split; [right; lia|done]|intros [_ ?]; done].
Qed.

End LengthFacts.

(** ** The transposed matrix *)

(** The sequences read by columns: row [j] holds element [j] of every
    sequence. *)
Definition transposed (f : list SGVector) (num_vec : nat) : list SGVector :=
  map (fun j => map (fun v : SGVector => v !!! j) f) (seq 0 num_vec).

Section TransposedFacts.

Context {ST : SymbolType} {AO : AlphabetOps}.

Lemma transposed_lookup f num_vec (j : nat) :
  (j < num_vec)%nat ->
  transposed f num_vec !! j = Some (map (fun v : SGVector => v !!! j) f).
Proof.
  intros Hj. unfold transposed. rewrite list_lookup_fmap.
  rewrite lookup_seq_lt by lia. reflexivity.
Qed.

Lemma transposed_length f num_vec : length (transposed f num_vec) = num_vec.
Proof. unfold transposed. by rewrite length_map, length_seq. Qed.

(** Transposing twice gives the sequences back. *)
Lemma transposed_transposed (f : list SGVector) (L : nat) :
  (0 < L)%nat -> Forall (fun v => length v = L) f ->
  transposed (transposed f L) (length f) = f.
Proof.
  intros HL Hall. apply list_eq. intros i.
  destruct (decide (i < length f)%nat) as [Hi|Hi].
  - rewrite transposed_lookup by lia.
    destruct (lookup_lt_is_Some_2 f i Hi) as [v Hv]. rewrite Hv. f_equal.
    assert (Hlen : length v = L).
    { rewrite Forall_forall in Hall. apply Hall, list_elem_of_lookup. eauto. }
    apply list_eq. intros j. rewrite list_lookup_fmap.
    destruct (decide (j < L)%nat) as [Hj|Hj].
    + rewrite transposed_lookup by lia. cbn [fmap option_fmap option_map].
      assert (Hm : map (fun v0 : SGVector => v0 !!! j) f !! i = Some (v !!! j)).
      { by rewrite list_lookup_fmap, Hv. }
      rewrite (list_lookup_total_correct _ _ _ Hm).
      destruct (lookup_lt_is_Some_2 v j) as [x Hx]; [lia|].
      by rewrite Hx, (list_lookup_total_correct _ _ _ Hx).
    + rewrite (lookup_ge_None_2 (transposed f L)) by (rewrite transposed_length; lia).
      rewrite lookup_ge_None_2 by lia. reflexivity.
  - rewrite lookup_ge_None_2 by (rewrite transposed_length; lia).
    rewrite lookup_ge_None_2 by lia. reflexivity.
Qed.

(** The inner loop writes column [i] of every row. *)
Lemma transpose_column_spec (L i : nat) (vec : SGVector) (sf : list SGVector) :
  length sf = L -> length vec = L ->
  Forall (fun row : SGVector => (i < length row)%nat) sf ->
  transpose_column (Z.of_nat L) (Z.of_nat i) vec sf
  = Some (zip_with (fun (row : SGVector) x => <[i := x]> row) sf vec).
Proof.
  intros Hsf Hvec Hrows. unfold transpose_column. rewrite Nat2Z.id.
  assert (H : forall m, (m <= L)%nat ->
    for_loop m
      (fun j o =>
         sf ← o; x ← read_at vec (Z.of_nat j); row ← sf !! j;
         row ← write_at row (Z.of_nat i) x; Some (<[j := row]> sf))
      (Some sf)
    = Some (zip_with (fun (row : SGVector) x => <[i := x]> row)
              (take m sf) (take m vec) ++ drop m sf)).
  { induction m as [|m IH]; intros Hm.
    - cbn [for_loop]. by rewrite !take_0, drop_0.
    - cbn [for_loop]. rewrite IH by lia. cbn [mbind option_bind].
      destruct (lookup_lt_is_Some_2 vec m) as [x Hx]; [lia|].
      destruct (lookup_lt_is_Some_2 sf m) as [row Hrow]; [lia|].
      rewrite (read_at_Some _ _ _ Hx). cbn [mbind option_bind].
      assert (Hzl : length (zip_with (fun (row : SGVector) x => <[i := x]> row)
                              (take m sf) (take m vec)) = m).
      { rewrite length_zip_with, !length_take. lia. }
      rewrite lookup_app_r by lia. rewrite Hzl, Nat.sub_diag.
      rewrite lookup_drop, Nat.add_0_r, Hrow. cbn [mbind option_bind].
      assert (Hi : (i < length row)%nat).
      { rewrite Forall_forall in Hrows. apply Hrows, list_elem_of_lookup. eauto. }
      unfold write_at. rewrite bool_decide_eq_true_2 by (unfold vlen; lia).
      rewrite Nat2Z.id. cbn [mbind option_bind]. f_equal.
      rewrite insert_app_r_alt by lia. rewrite Hzl, Nat.sub_diag.
      rewrite (take_S_r _ _ _ Hx), (take_S_r _ _ _ Hrow).
      rewrite zip_with_app by (rewrite !length_take; lia).
      rewrite <- app_assoc. f_equal. rewrite (drop_S _ _ _ Hrow). reflexivity. }
  rewrite H by lia.
  rewrite drop_ge by lia. rewrite app_nil_r.
  rewrite !take_ge by lia. reflexivity.
Qed.

(** The rows after the first [i] sequences were written. *)
Definition transposed_rows (f : list SGVector) (L i : nat) : list SGVector :=
  map (fun j => map (fun v : SGVector => v !!! j) (take i f)
                ++ replicate (length f - i) 0)
      (seq 0 L).

Lemma transposed_rows_step (f : list SGVector) (L i : nat) (v : SGVector) :
  f !! i = Some v -> length v = L ->
  zip_with (fun (row : SGVector) x => <[i := x]> row) (transposed_rows f L i) v
  = transposed_rows f L (S i).
Proof.
  intros Hv Hlen. apply lookup_lt_Some in Hv as Hi.
  apply list_eq. intros j. rewrite lookup_zip_with.
  unfold transposed_rows. rewrite !list_lookup_fmap.
  destruct (decide (j < L)%nat) as [Hj|Hj].
  - rewrite lookup_seq_lt by lia. cbn [fmap option_fmap option_map mbind option_bind].
    destruct (lookup_lt_is_Some_2 v j) as [x Hx]; [lia|].
    rewrite Hx. cbn [fmap option_fmap option_map mbind option_bind]. f_equal.
    rewrite (take_S_r _ _ _ Hv), map_app. cbn [map].
    rewrite (list_lookup_total_correct _ _ _ Hx).
    rewrite insert_app_r_alt by (rewrite length_map, length_take; lia).
    rewrite length_map, length_take.
    replace (i - i `min` length f)%nat with 0%nat by lia.
    replace (length f - i)%nat with (S (length f - S i)) by lia.
    cbn [replicate]. rewrite <- app_assoc. reflexivity.
  - rewrite lookup_seq_ge by lia. reflexivity.
Qed.

(** [get_transposed_matrix] on sequences of one length. *)
Lemma get_transposed_matrix_same_length (s : CStringFeatures) :
  has_subsets s = false -> preprocess_on_get s = false ->
  Forall (fun v => vlen v = get_max_vector_length s) (features s) ->
  get_transposed_matrix s
  = Val (transposed (features s) (Z.to_nat (get_max_vector_length s))) s.
Proof.
  intros Hs Hpre Hall. unfold get_transposed_matrix. rewrite bind_get.
  rewrite (bind_Val _ _ _ _ _ (have_same_length_default s Hs Hpre)).
  rewrite bool_decide_eq_true_2 by (split; [by left|exact Hall]).
  unfold ASSERT. rewrite bind_ret.
  rewrite (get_num_vectors_no_subset s Hs), Nat2Z.id.
  set (L := Z.to_nat (get_max_vector_length s)).
  pose proof (get_max_vector_length_bounds s Hs) as (Hmax0 & _ & _).
  assert (HL : get_max_vector_length s = Z.of_nat L) by lia.
  assert (Hloop : forall i, (i <= length (features s))%nat ->
    for_loop i
      (fun i (c : M (list SGVector)) =>
         bind c (fun sf =>
         bind (get_feature_vector (Z.of_nat i)) (fun vec =>
         bind (lift_option
                 (transpose_column (get_max_vector_length s) (Z.of_nat i) vec sf))
           (fun sf =>
         bind (free_feature_vector (Z.of_nat i)) (fun _ => ret sf)))))
      (ret (replicate L (new_SGVector (Z.of_nat (length (features s)))))) s
    = Val (transposed_rows (features s) L i) s).
  { induction i as [|i IH]; intros Hi.
    - cbn [for_loop]. unfold ret. f_equal.
      unfold transposed_rows, new_SGVector. rewrite Nat2Z.id.
      apply list_eq. intros j. rewrite list_lookup_fmap.
      destruct (decide (j < L)%nat) as [Hj|Hj].
      + rewrite lookup_replicate_2 by lia. rewrite lookup_seq_lt by lia.
        cbn. by rewrite Nat.sub_0_r.
      + rewrite lookup_ge_None_2 by (rewrite length_replicate; lia).
        rewrite lookup_seq_ge by lia.
        reflexivity.
    - cbn [for_loop]. rewrite (bind_Val _ _ _ _ _ (IH ltac:(lia))).
      destruct (lookup_lt_is_Some_2 (features s) i) as [v Hv]; [lia|].
      assert (Hlen : length v = L).
      { rewrite Forall_forall in Hall.
        specialize (Hall v ltac:(apply list_elem_of_lookup; eauto)).
        cbv beta in Hall. unfold vlen in Hall. lia. }
      rewrite (bind_Val _ _ _ _ _ (get_feature_vector_at s (Z.of_nat i) v Hpre
                 ltac:(rewrite (get_num_vectors_no_subset s Hs); lia)
                 ltac:(rewrite (subset_idx_conversion_none s _ Hs), Nat2Z.id;
                       exact Hv))).
      rewrite HL. rewrite transpose_column_spec.
      + rewrite bind_lift_Some.
        rewrite (bind_Val _ _ _ _ _ (free_feature_vector_ok (Z.of_nat i) s
                   ltac:(rewrite (get_num_vectors_no_subset s Hs); lia))).
        unfold ret. f_equal. by apply transposed_rows_step.
      + unfold transposed_rows. by rewrite length_map, length_seq.
      + exact Hlen.
      + unfold transposed_rows. apply Forall_forall. intros row Hrow.
        apply list_elem_of_fmap in Hrow as (j & -> & _).
        rewrite length_app, length_map, length_take, length_replicate. lia. }
  rewrite Hloop by lia. f_equal.
  unfold transposed_rows, transposed. rewrite firstn_all, Nat.sub_diag.
  apply map_ext. intros j. cbn [replicate]. by rewrite app_nil_r.
Qed.

(** X4: on a store without subset and without preprocessing on the fly
    whose sequences all have the length [L] of the longest one,
    [get_transposed_matrix] returns [L] rows, row [j] holding element [j]
    of every sequence in order, and leaves the store as it was; when some
    sequence is shorter the call fails the assertion [have_same_length()]. *)
Theorem get_transposed_matrix_spec (s : CStringFeatures) :
  has_subsets s = false -> preprocess_on_get s = false ->
  let L := get_max_vector_length s in
  (Forall (fun v => vlen v = L) (features s) ->
   exists T,
     get_transposed_matrix s = Val T s
     /\ Z.of_nat (length T) = L
     /\ forall (j : nat) row, T !! j = Some row ->
        vlen row = get_num_vectors s
        /\ forall (i : nat) v, features s !! i = Some v -> row !! i = v !! j)
  /\ (~ Forall (fun v => vlen v = L) (features s) ->
      get_transposed_matrix s = Exc (AssertFailed "have_same_length()") s).
Proof.
  intros Hs Hpre L. split.
  - intros Hall. exists (transposed (features s) (Z.to_nat L)).
    pose proof (get_max_vector_length_bounds s Hs) as (Hmax0 & _ & _).
    split; [by apply get_transposed_matrix_same_length|].
    split; [rewrite transposed_length; subst L; lia|].
    intros j row Hrow.
    assert (Hj : (j < Z.to_nat L)%nat).
    { apply lookup_lt_Some in Hrow. by rewrite transposed_length in Hrow. }
    rewrite transposed_lookup in Hrow by exact Hj. injection Hrow as <-.
    split.
    + unfold vlen. rewrite length_map. symmetry.
      apply (get_num_vectors_no_subset s Hs).
    + intros i v Hv. rewrite list_lookup_fmap, Hv. cbn.
      assert (Hlen : vlen v = L).
      { rewrite Forall_forall in Hall. apply Hall, list_elem_of_lookup. eauto. }
      destruct (lookup_lt_is_Some_2 v j) as [x Hx]; [unfold vlen in Hlen; lia|].
      by rewrite Hx, (list_lookup_total_correct _ _ _ Hx).
  - intros Hnot. unfold get_transposed_matrix. rewrite bind_get.
    rewrite (bind_Val _ _ _ _ _ (have_same_length_default s Hs Hpre)).
    rewrite bool_decide_eq_false_2 by (intros [_ ?]; done).
    reflexivity.
Qed.

(** X5: transposing twice gives the sequences back.  When
    [get_transposed_matrix] on a store of at least one sequence, the
    longest not empty, returns the sequences of a second store, then on
    that store it returns the sequences of the first (both stores without
    subset and without preprocessing on the fly). *)
Theorem get_transposed_matrix_involutive (s t : CStringFeatures) :
  has_subsets s = false -> preprocess_on_get s = false ->
  has_subsets t = false -> preprocess_on_get t = false ->
  features s <> [] -> 0 < get_max_vector_length s ->
  get_transposed_matrix s = Val (features t) s ->
  get_transposed_matrix t = Val (features s) t.
Proof.
  intros Hs Hpre Ht Hpret Hne HL Hst.
  destruct (decide (Forall (fun v => vlen v = get_max_vector_length s) (features s)))
    as [Hall|Hnot].
  2:{ unfold get_transposed_matrix in Hst. rewrite bind_get in Hst.
      rewrite (bind_Val _ _ _ _ _ (have_same_length_default s Hs Hpre)) in Hst.
      rewrite bool_decide_eq_false_2 in Hst by (intros [_ ?]; done).
      discriminate. }
  rewrite (get_transposed_matrix_same_length s Hs Hpre Hall) in Hst.
  injection Hst as Hft.
  set (L := Z.to_nat (get_max_vector_length s)) in *.
  set (n := length (features s)).
  assert (Hn : (0 < n)%nat).
  { subst n. destruct (features s); [done|cbn; lia]. }
  assert (Hrows : Forall (fun row => vlen row = Z.of_nat n) (features t)).
  { rewrite <- Hft. apply Forall_forall. intros row Hrow.
    apply list_elem_of_fmap in Hrow as (j & -> & _).
    unfold vlen. by rewrite length_map. }
  assert (Hmax : get_max_vector_length t = Z.of_nat n).
  { pose proof (get_max_vector_length_bounds t Ht) as (H0 & Hle & HB).
    assert (Hin : exists row, row ∈ features t).
    { rewrite <- Hft. eexists. apply list_elem_of_lookup. exists 0%nat.
      apply transposed_lookup. unfold L. lia. }
    destruct Hin as [row Hin].
    rewrite Forall_forall in Hrows. pose proof (Hrows row Hin) as Hrow.
    specialize (Hle row Hin).
    specialize (HB (Z.of_nat n + 1) ltac:(lia)).
    assert (get_max_vector_length t < Z.of_nat n + 1); [|lia].
    apply HB. apply Forall_forall. intros r Hr. specialize (Hrows r Hr).
    cbv beta in *. lia. }
  rewrite (get_transposed_matrix_same_length t Ht Hpret)
    by (rewrite Hmax; exact Hrows).
  f_equal. rewrite Hmax, Nat2Z.id, <- Hft.
  apply transposed_transposed; [lia|].
  eapply Forall_impl; [exact Hall|]. cbv beta. unfold vlen. intros; lia.
Qed.

End TransposedFacts.

(** ** Copies of the sequences, and appending *)

Section CopyAppendFacts.

Context {ST : SymbolType} {AO : AlphabetOps}.

(** The loop of [copy_features] reads the sequences the store shows. *)
Lemma copy_features_shown (s : CStringFeatures) :
  preprocess_on_get s = false ->
  0 < get_num_vectors s ->
  (forall i, 0 <= i < get_num_vectors s ->
     0 <= subset_idx_conversion s i < Z.of_nat (length (features s))) ->
  copy_features s
  = Val (map (fun i : nat =>
                features s !!! Z.to_nat (subset_idx_conversion s (Z.of_nat i)))
           (seq 0 (Z.to_nat (get_num_vectors s)))) s.
Proof.
  intros Hpre Hn Hconv. unfold copy_features. rewrite bind_get. unfold ASSERT.
  rewrite bool_decide_eq_true_2 by lia. rewrite bind_ret.
  assert (H : forall m, (m <= Z.to_nat (get_num_vectors s))%nat ->
    for_loop m
      (fun i (c : M (list SGVector)) =>
         bind c (fun new_feat =>
         bind (get_feature_vector_SGVector (Z.of_nat i)) (fun vec =>
         bind (free_feature_vector (Z.of_nat i)) (fun _ =>
         ret (new_feat ++ [vec])))))
      (ret []) s
    = Val (map (fun i : nat =>
                  features s !!! Z.to_nat (subset_idx_conversion s (Z.of_nat i)))
             (seq 0 m)) s).
  { induction m as [|m IH]; intros Hm; [reflexivity|].
    cbn [for_loop]. rewrite (bind_Val _ _ _ _ _ (IH ltac:(lia))).
    specialize (Hconv (Z.of_nat m) ltac:(lia)).
    destruct (lookup_lt_is_Some_2 (features s)
                (Z.to_nat (subset_idx_conversion s (Z.of_nat m))))
      as [v Hv]; [lia|].
    rewrite (bind_Val _ _ _ _ _
               (get_feature_vector_SGVector_at s (Z.of_nat m) v Hpre
                  ltac:(lia) Hv)).
    rewrite (bind_Val _ _ _ _ _ (free_feature_vector_ok (Z.of_nat m) s ltac:(lia))).
    unfold ret. f_equal. rewrite seq_S, map_app. cbn [map plus].
    by rewrite (list_lookup_total_correct _ _ _ Hv). }
  apply H. lia.
Qed.

(** Without subset these are the stored sequences. *)
Lemma copy_features_whole (s : CStringFeatures) :
  preprocess_on_get s = false -> has_subsets s = false ->
  0 < get_num_vectors s ->
  copy_features s = Val (features s) s.
Proof.
  intros Hpre Hs Hn. rewrite copy_features_shown; [|exact Hpre|exact Hn|].
  - f_equal. rewrite (get_num_vectors_no_subset s Hs), Nat2Z.id.
    apply list_eq. intros i. rewrite list_lookup_fmap.
    destruct (decide (i < length (features s))%nat) as [Hi|Hi].
    + rewrite lookup_seq_lt by lia. cbn.
      rewrite (subset_idx_conversion_none s _ Hs), Nat2Z.id.
      destruct (lookup_lt_is_Some_2 (features s) i Hi) as [v Hv].
      by rewrite Hv, (list_lookup_total_correct _ _ _ Hv).
    + rewrite lookup_seq_ge by lia. rewrite lookup_ge_None_2 by lia. reflexivity.
  - intros i Hi. rewrite (subset_idx_conversion_none s _ Hs).
    rewrite (get_num_vectors_no_subset s Hs) in Hi. lia.
Qed.

(** X6: without preprocessing on the fly, [copy_features] on a store that
    shows at least one sequence returns the sequences the store shows:
    entry [i] is the slot the subset stack converts [i] to (every such
    slot existing); without subset these are the stored sequences in
    order.  The store stays as it was.  On a store that shows no sequence
    the call fails its assertion. *)
Theorem copy_features_view (s : CStringFeatures) :
  preprocess_on_get s = false ->
  (0 < get_num_vectors s ->
   (forall i, 0 <= i < get_num_vectors s ->
      0 <= subset_idx_conversion s i < Z.of_nat (length (features s))) ->
   copy_features s
   = Val (map (fun i : nat =>
                 features s !!! Z.to_nat (subset_idx_conversion s (Z.of_nat i)))
            (seq 0 (Z.to_nat (get_num_vectors s)))) s)
  /\ (0 < get_num_vectors s -> has_subsets s = false ->
      copy_features s = Val (features s) s)
  /\ (get_num_vectors s <= 0 ->
      copy_features s = Exc (AssertFailed "get_num_vectors()>0") s).
Proof.
  intros Hpre. split; [|split].
  - intros Hn Hconv. by apply copy_features_shown.
  - intros Hn Hs. by apply copy_features_whole.
  - intros Hn. unfold copy_features. rewrite bind_get. unfold ASSERT.
    rewrite bool_decide_eq_false_2 by lia. reflexivity.
Qed.

(** The histogram after the sequences of [l] were counted into [a]. *)
Definition count_strings (a : CAlphabet) (l : list SGVector) : CAlphabet :=
  for_loop (length l)
    (fun i alpha => add_string_to_histogram alpha (l !!! i) (vlen (l !!! i)))
    a.

(** The loop of [append_features] that joins the two lists runs over the
    sequences stored and copies them. *)
Lemma append_features_join (p : list SGVector) (s : CStringFeatures) (n : nat) :
  (n <= length (features s))%nat ->
  for_loop n
    (fun i (c : M (list SGVector)) =>
       bind c (fun new_features =>
       bind (lift_option
               (if bool_decide (Z.of_nat i < Z.of_nat (length (features s)))
                then features s !! i
                else p !! Z.to_nat (Z.of_nat i - Z.of_nat (length (features s)))))
         (fun x => ret (new_features ++ [x]))))
    (ret []) s
  = Val (take n (features s)) s.
Proof.
  induction n as [|n IH]; intros Hn; [reflexivity|].
  cbn [for_loop]. rewrite (bind_Val _ _ _ _ _ (IH ltac:(lia))).
  rewrite bool_decide_eq_true_2 by lia.
  destruct (lookup_lt_is_Some_2 (features s) n) as [v Hv]; [lia|].
  rewrite Hv, bind_lift_Some. unfold ret. f_equal.
  by rewrite (take_S_r _ _ _ Hv).
Qed.

(** X7: [append_features(p_features)] on a store without subset that
    already holds sequences keeps exactly these sequences: when the
    alphabet that counted [p_features] alone passes both checks, the call
    returns [true], the histogram of the store has counted [p_features] in
    addition and nothing else has changed; otherwise it returns [false]
    and the store is as it was.  On a store without subset that holds no
    sequence the call is [set_features(p_features)]. *)
Theorem append_features_keeps_sequences (emp : bool) (p : list SGVector)
    (s : CStringFeatures) :
  has_subsets s = false ->
  let alpha := counted_alphabet (get_alphabet (alphabet s)) p in
  (features s <> [] ->
   append_features emp p s
   = if check_alphabet_size alpha && check_alphabet alpha
     then Val true (set_alphabet (count_strings (alphabet s) p) s)
     else Val false s)
  /\ (features s = [] -> append_features emp p s = set_features_list emp p s).
Proof.
  intros Hs alpha. split.
  - intros Hne. unfold append_features. rewrite bind_get, Hs, bind_ret.
    destruct (features s) as [|v f] eqn:Hf; [done|].
    fold (counted_alphabet (get_alphabet (alphabet s)) p). fold alpha.
    fold (count_strings (alphabet s) p).
    destruct (check_alphabet_size alpha && check_alphabet alpha); [|reflexivity].
    rewrite bind_modify, bind_get.
    set (s1 := set_alphabet (count_strings (alphabet s) p) s).
    assert (Hs1 : has_subsets s1 = false) by exact Hs.
    rewrite (get_num_vectors_no_subset s1 Hs1), Nat2Z.id.
    rewrite (bind_Val _ _ _ _ _
               (append_features_join p s1 (length (features s1)) ltac:(lia))).
    rewrite bind_modify. rewrite firstn_all.
    rewrite set_features_field_id. reflexivity.
  - intros Hf. unfold append_features. rewrite bind_get, Hs, bind_ret, Hf.
    reflexivity.
Qed.

End CopyAppendFacts.

(** ** Bit fields of a k-mer code *)

Section BitFieldFacts.

Context {ST : SymbolType} {AO : AlphabetOps}.
Hypothesis ST_bits_byte : 8 <= ST_bits <= 64.

Lemma ST_bits_pos' : 0 < ST_bits.
Proof. lia. Qed.

(** The mask [compute_symbol_mask_table] shifts around: [max_val] ones. *)
Lemma mask64_testbit (m : nat) r :
  (m <= 64)%nat -> 0 <= r ->
  Z.testbit (for_loop m (fun _ mask => u64 (Z.lor (Z.shiftl mask 1) 1)) 0) r
  = bool_decide (r < Z.of_nat m).
Proof.
  revert r. induction m as [|m IH]; intros r Hm Hr.
  - cbn [for_loop]. rewrite Z.bits_0. by rewrite bool_decide_eq_false_2 by lia.
  - cbn [for_loop]. unfold u64.
    destruct (decide (r < 64)) as [Hlt|Hge].
    + rewrite Z.mod_pow2_bits_low by lia.
      rewrite Z.lor_spec, Z.shiftl_spec by lia.
      destruct (decide (r = 0)) as [->|Hr0].
      * change (Z.testbit 1 0) with true. rewrite orb_true_r.
        by rewrite bool_decide_eq_true_2 by lia.
      * rewrite IH by lia.
        rewrite (testbit_above 1 1 r) by lia. rewrite orb_false_r.
        apply bool_decide_ext. lia.
    + rewrite Z.mod_pow2_bits_high by lia.
      by rewrite bool_decide_eq_false_2 by lia.
Qed.

Lemma div_lt_iff p b j : 0 < b -> p / b < j <-> p < b * j.
Proof.
  intros Hb. split; intros H.
  - destruct (Z_lt_ge_dec p (b * j)) as [Hlt|Hge]; [exact Hlt|].
    pose proof (Z.div_le_lower_bound p b j Hb ltac:(lia)). lia.
  - by apply Z.div_lt_upper_bound.
Qed.

(** The bits of an entry of the mask table: bit [p] is set when bit
    [p / max_val] of the index is. *)
Lemma symbol_mask_entry_testbit (b : Z) (i : nat) p :
  1 <= b <= 9 -> (i < 256)%nat -> 0 <= p < ST_bits ->
  Z.testbit (symbol_mask_entry b i) p = Z.testbit (Z.of_nat i) (p / b).
Proof.
  intros Hb Hi Hp. unfold symbol_mask_entry.
  set (mask := for_loop (Z.to_nat b) _ 0).
  assert (Hmask : forall r, 0 <= r -> Z.testbit mask r = bool_decide (r < b)).
  { intros r Hr. subst mask. rewrite mask64_testbit by lia.
    apply bool_decide_ext. lia. }
  assert (Hi256 : 0 <= Z.of_nat i < 2 ^ 8) by (change (2 ^ 8) with 256; lia).
  assert (Hloop : forall j, (j <= 8)%nat ->
    let st := for_loop j
                (fun j '(entry, bits) =>
                   let entry :=
                     if Z.testbit bits 0
                     then ST_cast (Z.lor entry (u64 (Z.shiftl mask (b * Z.of_nat j))))
                     else entry in
                   (entry, u8 (Z.shiftr bits 1)))
                (ST_cast 0, u8 (Z.of_nat i)) in
    (forall q, 0 <= q -> Z.testbit (snd st) q = Z.testbit (Z.of_nat i) (q + Z.of_nat j))
    /\ (forall p, 0 <= p < ST_bits ->
        Z.testbit (fst st) p
        = bool_decide (p / b < Z.of_nat j) && Z.testbit (Z.of_nat i) (p / b))).
  { induction j as [|j IH]; intros Hj st.
    - subst st. cbn [for_loop fst snd]. split.
      + intros q Hq. unfold u8. change 256 with (2 ^ 8).
        rewrite Z.add_0_r.
        destruct (decide (q < 8)).
        * by rewrite Z.mod_pow2_bits_low by lia.
        * rewrite Z.mod_pow2_bits_high by lia. symmetry.
          apply (testbit_above _ 8); lia.
      + intros p' Hp'. rewrite ST_cast_testbit by lia. rewrite Z.bits_0.
        rewrite bool_decide_eq_false_2; [done|].
        pose proof (Z.div_pos p' b). lia.
    - destruct (IH ltac:(lia)) as [IHb IHe]. subst st. cbn [for_loop].
      destruct (for_loop j _ _) as [entry bits]. cbn [fst snd] in *.
      split.
      + intros q Hq. unfold u8. change 256 with (2 ^ 8).
        destruct (decide (q < 8)).
        * rewrite Z.mod_pow2_bits_low by lia. rewrite Z.shiftr_spec by lia.
          rewrite IHb by lia. f_equal. lia.
        * rewrite Z.mod_pow2_bits_high by lia. symmetry.
          apply (testbit_above _ 8); lia.
      + intros p' Hp'. rewrite (IHb 0) by lia. rewrite Z.add_0_l.
        pose proof (Z.div_mod p' b ltac:(lia)) as Hdm.
        pose proof (Z.mod_pos_bound p' b ltac:(lia)) as Hmod.
        assert (Hq0 : 0 <= p' / b) by (apply Z.div_pos; lia).
        pose proof (div_lt_iff p' b (Z.of_nat j) ltac:(lia)) as Hd1.
        pose proof (div_lt_iff p' b (Z.of_nat j + 1) ltac:(lia)) as Hd2.
        destruct (Z.testbit (Z.of_nat i) (Z.of_nat j)) eqn:Hbit.
        * rewrite ST_cast_testbit by lia.
          rewrite Z.lor_spec, IHe by lia.
          unfold u64. rewrite Z.mod_pow2_bits_low by lia.
          destruct (decide (p' / b < Z.of_nat j)) as [Hlt|Hge1].
          -- rewrite !(bool_decide_eq_true_2 (p' / b < _)) by lia.
             cbn [andb]. rewrite Z.shiftl_spec by lia.
             apply Hd1 in Hlt.
             rewrite (Z.testbit_neg_r mask) by lia. by rewrite orb_false_r.
          -- rewrite (bool_decide_eq_false_2 (p' / b < Z.of_nat j)) by lia.
             cbn [andb orb]. rewrite Z.shiftl_spec by lia.
             assert (Hge2 : b * Z.of_nat j <= p').
             { destruct (Z_lt_ge_dec p' (b * Z.of_nat j)) as [H|H]; [|lia].
               apply Hd1 in H. lia. }
             destruct (decide (p' / b = Z.of_nat j)) as [Heq|Hne].
             ++ assert (Hlt2 : p' < b * (Z.of_nat j + 1)) by (apply Hd2; lia).
                rewrite Hmask by lia. rewrite bool_decide_eq_true_2 by lia.
                rewrite bool_decide_eq_true_2 by lia. by rewrite Heq, Hbit.
             ++ assert (Hge3 : b * (Z.of_nat j + 1) <= p').
                { destruct (Z_lt_ge_dec p' (b * (Z.of_nat j + 1))) as [H|H]; [|lia].
                  apply Hd2 in H. lia. }
                rewrite Hmask by lia. rewrite bool_decide_eq_false_2 by lia.
                by rewrite bool_decide_eq_false_2 by lia.
        * rewrite IHe by lia.
          destruct (decide (p' / b = Z.of_nat j)) as [Heq|Hne].
          -- rewrite Heq, Hbit. by rewrite !andb_false_r.
          -- f_equal. apply bool_decide_ext. lia. }
  destruct (Hloop 8%nat ltac:(lia)) as [_ He]. cbn zeta in He.
  rewrite He by lia.
  destruct (decide (p / b < 8)) as [Hlt|Hge].
  - by rewrite bool_decide_eq_true_2 by lia.
  - rewrite bool_decide_eq_false_2 by lia. symmetry.
    apply (testbit_above _ 8); lia.
Qed.

(** Filling a table slot by slot. *)
Lemma for_loop_insert_lookup (g : nat -> Z) (t0 : list Z) (n m : nat) :
  (n <= length t0)%nat -> (m < n)%nat ->
  for_loop n (fun i table => <[i := g i]> table) t0 !! m = Some (g m).
Proof.
  assert (Hlen : forall n, length (for_loop n (fun i table => <[i := g i]> table) t0)
                           = length t0).
  { intros k. induction k as [|k IH]; [reflexivity|].
    cbn [for_loop]. by rewrite length_insert. }
  induction n as [|n IH]; intros Hn Hm; [lia|].
  cbn [for_loop]. destruct (decide (m = n)) as [->|Hne].
  - apply list_lookup_insert_eq. rewrite Hlen. lia.
  - rewrite list_lookup_insert_ne by lia. apply IH; lia.
Qed.

(** X8: after [compute_symbol_mask_table(b)] for [1 <= b <= 9] bits per
    symbol, [get_masked_symbols(symbol, mask)] keeps of [symbol] exactly
    the bit fields the byte [mask] selects: bit [p] of the result is bit
    [p] of [symbol] when bit [p / b] of [mask] is set, and is clear
    otherwise.  Before any table was computed the call fails its
    assertion. *)
Theorem get_masked_symbols_fields (b symbol mask : Z) (s : CStringFeatures) :
  has_subsets s = false -> 1 <= b <= 9 -> 0 <= mask < 256 ->
  (exists s' r,
     compute_symbol_mask_table b s = Val tt s'
     /\ get_masked_symbols symbol mask s' = Val r s'
     /\ ST_range r
     /\ forall p, 0 <= p < ST_bits ->
        Z.testbit r p = Z.testbit symbol p && Z.testbit mask (p / b))
  /\ (symbol_mask_table s = None ->
      get_masked_symbols symbol mask s = Exc (AssertFailed "symbol_mask_table") s).
Proof.
  intros Hs Hb Hmask. split.
  - eexists _, _. split.
    { unfold compute_symbol_mask_table. rewrite bind_get, Hs, bind_ret.
      reflexivity. }
    unfold get_masked_symbols. rewrite bind_get.
    cbn [symbol_mask_table set_symbol_mask_table].
    unfold u8. rewrite (Z.mod_small mask) by lia.
    unfold read_at. rewrite bool_decide_eq_true_2 by lia.
    rewrite (for_loop_insert_lookup (symbol_mask_entry b) _ 256 (Z.to_nat mask))
      by (unfold new_SGVector; rewrite ?length_replicate; lia).
    rewrite bind_lift_Some. split; [reflexivity|].
    split; [apply ST_cast_range; lia|].
    intros p Hp. rewrite ST_cast_testbit by lia.
    rewrite Z.land_spec, symbol_mask_entry_testbit by lia.
    rewrite Z2Nat.id by lia. apply andb_comm.
  - intros Hnone. unfold get_masked_symbols. rewrite bind_get, Hnone. reflexivity.
Qed.

(** *** Shifting a packed word *)

Lemma embed_word_range nbits (syms : list Z) len :
  ST_range (embed_word nbits syms len).
Proof.
  unfold embed_word. destruct (Z.to_nat len); cbn [for_loop];
    apply ST_cast_range; lia.
Qed.

(** No bit is set above the fields of a packed word. *)
Lemma embed_word_high nbits (syms : list Z) (j : nat) p :
  0 <= nbits < 2 ^ 32 ->
  Forall (fun s => 0 <= s < 2 ^ nbits) syms ->
  (j <= length syms)%nat ->
  Z.of_nat j * nbits <= p < ST_bits ->
  Z.testbit (embed_word nbits syms (Z.of_nat j)) p = false.
Proof.
  intros Hnb HS. unfold embed_word. rewrite Nat2Z.id.
  unfold u32. rewrite (Z.mod_small nbits) by lia.
  revert p. induction j as [|j IH]; intros p Hj Hp.
  - cbn [for_loop]. rewrite ST_cast_testbit by lia. apply Z.bits_0.
  - cbn [for_loop].
    assert (Hsym : 0 <= syms !!! j < 2 ^ nbits).
    { destruct (lookup_lt_is_Some_2 syms j) as [x Hx]; [lia|].
      rewrite (list_lookup_total_correct _ _ _ Hx).
      rewrite Forall_forall in HS. apply HS, list_elem_of_lookup. eauto. }
    rewrite ST_cast_testbit by lia.
    rewrite Z.lor_spec, ST_cast_testbit by lia.
    rewrite Z.shiftl_spec by lia.
    rewrite IH by lia.
    apply (testbit_above _ nbits); [exact Hsym|lia].
Qed.

(** A value of [ST] whose top bit is clear when [ST] is signed. *)
Lemma ST_range_nonneg w :
  ST_range w ->
  (ST_signed = true -> Z.testbit w (ST_bits - 1) = false) ->
  0 <= w < 2 ^ ST_bits.
Proof.
  unfold ST_range. destruct ST_signed; [|intros; lia].
  intros Hr Htop. specialize (Htop eq_refl).
  assert (H2 : 2 ^ ST_bits = 2 * 2 ^ (ST_bits - 1)).
  { rewrite <- Z.pow_succ_r by lia. f_equal. lia. }
  destruct (decide (0 <= w)) as [Hw|Hw]; [lia|]. exfalso.
  rewrite <- (Z.mod_pow2_bits_low w ST_bits) in Htop by lia.
  assert (Hmod : w mod 2 ^ ST_bits = w + 2 ^ ST_bits).
  { symmetry. apply (Z.mod_unique _ _ (-1)); lia. }
  rewrite Hmod in Htop.
  rewrite Z.testbit_false in Htop by lia.
  assert (Hq : (w + 2 ^ ST_bits) / 2 ^ (ST_bits - 1) = 1).
  { symmetry. apply (Z.div_unique _ _ 1 (w + 2 ^ (ST_bits - 1))); lia. }
  rewrite Hq in Htop. discriminate.
Qed.

(** X9: [shift_symbol(word, a)] on the packed word of [k] symbols drops
    its last [a] symbols: the result is the packed word of the first
    [k - a] symbols.  The symbols are below [2 ^ b] for [1 <= b] bits per
    symbol, the word fits [ST] (below the sign bit when [ST] is signed) and
    the shift count [a * b] is below the width of the promoted type. *)
Theorem shift_symbol_drops_symbols (syms : list Z) (a : Z) (s : CStringFeatures) :
  let b := get_num_bits (get_alphabet (alphabet s)) in
  let k := Z.of_nat (length syms) in
  1 <= b <= ST_bits -> 0 <= a <= k -> k * b <= ST_bits ->
  ST_signed = false \/ k * b < ST_bits ->
  a * b < promoted_bits ->
  Forall (fun x => 0 <= x < 2 ^ b) syms ->
  shift_symbol (embed_word b syms k) a s = Val (embed_word b syms (k - a)) s.
Proof.
  intros b k Hb Ha Hfit Hsign Hcount Hsyms.
  assert (Hnb : 0 <= b < 2 ^ 32).
  { split; [lia|]. apply Z.le_lt_trans with 64; [lia|reflexivity]. }
  unfold shift_symbol. rewrite bind_get. fold b.
  rewrite bool_decide_eq_true_2 by nia. unfold ret. f_equal.
  rewrite <- (ST_cast_id ST_bits_pos' (embed_word b syms (k - a)))
    by apply embed_word_range.
  set (W := embed_word b syms k).
  assert (HW : 0 <= W < 2 ^ ST_bits).
  { apply ST_range_nonneg; [apply embed_word_range|].
    intros Hsg. destruct Hsign as [Hu|Hlt]; [congruence|].
    apply embed_word_high; try done; lia. }
  apply ST_cast_low_bits; [lia|]. intros p Hp.
  rewrite Z.shiftr_spec by lia.
  replace (k - a) with (Z.of_nat (length syms - Z.to_nat a)) by lia.
  destruct (decide (p < (k - a) * b)) as [Hlow|Hhigh].
  - assert (Hex : exists (q : nat) r, p = Z.of_nat q * b + r /\ 0 <= r < b).
    { exists (Z.to_nat (p / b)), (p mod b).
      split; [|apply Z.mod_pos_bound; lia].
      rewrite Z2Nat.id by (apply Z.div_pos; lia).
      rewrite Z.mul_comm. apply Z.div_mod. lia. }
    destruct Hex as (q & r & -> & Hr).
    assert (Hq : Z.of_nat q < k - a) by nia.
    rewrite embed_word_field; try done; try lia.
    replace (Z.of_nat q * b + r + a * b)
      with (Z.of_nat (q + Z.to_nat a) * b + r) by lia.
    unfold W, k. rewrite embed_word_field; try done; try lia; try nia.
    do 2 f_equal. lia.
  - rewrite (embed_word_high _ _ _ p) by (try done; lia).
    destruct (decide (p + a * b < ST_bits)) as [Hin|Hout].
    + unfold W, k. apply embed_word_high; try done; lia.
    + apply (testbit_above _ ST_bits); lia.
Qed.

End BitFieldFacts.

(** ** The codes [embed_features] stores *)

Section KmerCodeFacts.

Context {ST : SymbolType} {AO : AlphabetOps}.
Hypothesis ST_bits_byte : 8 <= ST_bits <= 64.

(** Rolling the next symbol into the packed word of a window gives the
    packed word of the next window. *)
Lemma spec_next_code_rolls b (K : nat) (w : list Z) x :
  1 <= b -> (1 <= K)%nat -> Z.of_nat K * b <= ST_bits -> length w = K ->
  Forall (fun s => 0 <= s < 2 ^ b) w -> 0 <= x < 2 ^ b ->
  spec_next_code b (Z.of_nat K) (embed_word b w (Z.of_nat K)) x
  = embed_word b (drop 1 w ++ [x]) (Z.of_nat K).
Proof.
  intros Hb HK Hfit Hlen Hw Hx.
  assert (Hnb : 0 <= b < 2 ^ 32).
  { split; [lia|]. apply Z.le_lt_trans with 64; [nia|reflexivity]. }
  assert (Hlen' : length (drop 1 w ++ [x]) = K).
  { rewrite length_app, length_drop. cbn [length]. lia. }
  assert (Hw' : Forall (fun s => 0 <= s < 2 ^ b) (drop 1 w ++ [x])).
  { apply Forall_app. split; [by apply Forall_drop|by apply Forall_singleton]. }
  rewrite <- (ST_cast_id (ST_bits_pos' ST_bits_byte)
                (embed_word b (drop 1 w ++ [x]) (Z.of_nat K)))
    by (by apply embed_word_range).
  unfold spec_next_code. apply ST_cast_low_bits; [lia|]. intros p Hp.
  rewrite Z.land_spec, Z.lor_spec, Z.shiftl_spec by lia.
  rewrite Z.testbit_ones_nonneg by lia.
  destruct (decide (p < Z.of_nat K * b)) as [Hlow|Hhigh].
  - rewrite (proj2 (Z.ltb_lt _ _)) by lia. rewrite andb_true_r.
    assert (Hex : exists (q : nat) r, p = Z.of_nat q * b + r /\ 0 <= r < b).
    { exists (Z.to_nat (p / b)), (p mod b).
      split; [|apply Z.mod_pos_bound; lia].
      rewrite Z2Nat.id by (apply Z.div_pos; lia).
      rewrite Z.mul_comm. apply Z.div_mod. lia. }
    destruct Hex as (q & r & -> & Hr).
    assert (Hq : (q < K)%nat) by nia.
    rewrite (embed_word_field ST_bits_byte b (drop 1 w ++ [x]) K q r);
      try done; try lia.
    destruct q as [|q].
    + rewrite Z.testbit_neg_r by lia. cbn [orb].
      replace (Z.of_nat 0 * b + r) with r by lia.
      rewrite lookup_total_app_r by (rewrite length_drop; lia).
      rewrite length_drop.
      replace (K - 1 - 0 - (length w - 1))%nat with 0%nat by lia.
      reflexivity.
    + replace (Z.of_nat (S q) * b + r - b) with (Z.of_nat q * b + r) by lia.
      rewrite (embed_word_field ST_bits_byte b w K q r); try done; try lia.
      rewrite (testbit_above x b) by (try done; nia).
      rewrite orb_false_r.
      rewrite lookup_total_app_l by (rewrite length_drop; lia).
      rewrite lookup_total_drop.
      replace (1 + (K - 1 - S q))%nat with (K - 1 - q)%nat by lia. reflexivity.
  - rewrite (proj2 (Z.ltb_ge _ _)) by lia. rewrite andb_false_r.
    symmetry. apply embed_word_high; try done; lia.
Qed.

(** Position [j] of the codes of a sequence holds the packed word of the
    window of [k] symbols that starts at [j]. *)
Lemma spec_kmer_codes_window kind b (K : nat) (raw : list Z) (j : nat) :
  1 <= b -> (1 <= K)%nat -> Z.of_nat K * b <= ST_bits ->
  Forall (fun c => 0 <= remapped kind c < 2 ^ b) raw ->
  (j + K <= length raw)%nat ->
  spec_kmer_codes kind b (Z.of_nat K) raw !! j
  = Some (embed_word b (map (remapped kind) (take K (drop j raw))) (Z.of_nat K)).
Proof.
  intros Hb HK Hfit Hraw. induction j as [|j IH]; intros Hj.
  - rewrite spec_kmer_codes_first, Nat2Z.id, drop_0. reflexivity.
  - destruct (lookup_lt_is_Some_2 raw (K + j)) as [x Hx]; [lia|].
    rewrite (spec_kmer_codes_next kind b (Z.of_nat K) raw j x)
      by (rewrite Nat2Z.id; exact Hx).
    specialize (IH ltac:(lia)).
    rewrite (list_lookup_total_correct _ _ _ IH).
    destruct (lookup_lt_is_Some_2 raw j) as [y Hy]; [lia|].
    assert (Hin : forall c, c ∈ raw -> 0 <= remapped kind c < 2 ^ b).
    { intros c Hc. rewrite Forall_forall in Hraw. by apply Hraw. }
    rewrite spec_next_code_rolls; try done.
    + f_equal. f_equal.
      rewrite (drop_S _ _ _ Hy).
      destruct K as [|K']; [lia|]. cbn [take map drop].
      assert (Hx' : drop (S j) raw !! K' = Some x).
      { rewrite lookup_drop. rewrite <- Hx. f_equal. lia. }
      rewrite (take_S_r _ _ _ Hx'), map_app. reflexivity.
    + rewrite length_map, length_take, length_drop. lia.
    + apply Forall_fmap. apply Forall_take, Forall_drop. exact Hraw.
    + apply Hin, list_elem_of_lookup. eauto.
Qed.

(** The store a successful [embed_features] leaves. *)
Lemma embed_features_success (k : Z) (s : CStringFeatures) :
  has_subsets s = false ->
  get_num_symbols_in_histogram (alphabet s) > 0 ->
  1 <= k -> 0 <= get_num_bits (get_alphabet (alphabet s)) ->
  Forall (fun v => k <= vlen v) (features s) ->
  let kind := get_alphabet (alphabet s) in
  let b := get_num_bits kind in
  embed_features k s
  = Val tt
      (set_symbol_mask_table
         (Some (for_loop 256
                  (fun i table => <[i := symbol_mask_entry b i]> table)
                  (new_SGVector 256)))
         (set_features_field
            (map (spec_kmer_codes kind b k) (features s))
            (set_num_symbols
               (if bool_decide (k > 1) then 2 ^ (b * k) else get_num_symbols kind)
               (set_original_num_symbols (get_num_symbols kind) (set_order k s))))).
Proof.
  intros Hs Hhist Hk Hb Hall kind b.
  rewrite (embed_features_unfold k s Hs Hhist). fold kind b.
  set (s1 := set_num_symbols _ _).
  pose proof (embed_features_loop ST_bits_byte kind k s1 (length (features s)) Hk Hb)
    as Hloop.
  change (features s1) with (features s) in Hloop.
  rewrite firstn_all, drop_all, app_nil_r in Hloop.
  specialize (Hloop ltac:(lia) Hall). fold b in Hloop.
  rewrite (bind_Val _ _ _ _ _ Hloop).
  unfold compute_symbol_mask_table. rewrite bind_get.
  change (has_subsets (set_features_field _ s1)) with (has_subsets s).
  rewrite Hs, bind_ret. reflexivity.
Qed.

(** X10: the codes are the packed words of the windows.  On a store
    without subset whose alphabet has a non-empty histogram, for an order
    [k >= 1] and [b >= 1] bits per symbol with [k * b] at most the width of
    [ST]: when every sequence has at least [k] symbols and each of them
    remaps to a code below [2 ^ b], [embed_features(k)] returns and
    position [j] of sequence [i] holds [embed_word] of the remapped symbols
    [j], ..., [j + k - 1] of the sequence as it was. *)
Theorem embed_features_codes_are_kmers (k : Z) (s : CStringFeatures) :
  has_subsets s = false ->
  get_num_symbols_in_histogram (alphabet s) > 0 ->
  let kind := get_alphabet (alphabet s) in
  let b := get_num_bits kind in
  1 <= k -> 1 <= b -> k * b <= ST_bits ->
  Forall (fun v => k <= vlen v
                   /\ Forall (fun c => 0 <= remapped kind c < 2 ^ b) v)
    (features s) ->
  exists s',
    embed_features k s = Val tt s'
    /\ forall (i j : nat) (v : SGVector),
       features s !! i = Some v -> Z.of_nat j <= vlen v - k ->
       exists c : SGVector,
         features s' !! i = Some c
         /\ c !! j
            = Some (embed_word b
                      (map (remapped kind) (take (Z.to_nat k) (drop j v))) k).
Proof.
  intros Hs Hhist kind b Hk Hb Hfit Hall.
  eexists. split.
  { apply embed_features_success; try done; [fold kind b; lia|].
    eapply Forall_impl; [exact Hall|]. cbv beta. intros v [H _]. exact H. }
  intros i j v Hv Hj. cbn [features set_symbol_mask_table set_features_field].
  exists (spec_kmer_codes kind b k v). rewrite list_lookup_fmap, Hv.
  split; [reflexivity|].
  rewrite Forall_forall in Hall.
  destruct (Hall v ltac:(apply list_elem_of_lookup; eauto)) as [Hlen Hsyms].
  pose proof (spec_kmer_codes_window kind b (Z.to_nat k) v j) as H.
  rewrite Z2Nat.id in H by lia.
  apply H; try done; unfold vlen in *; lia.
Qed.



End KmerCodeFacts.

(** ** The FASTQ loader, one sequence per read *)

Section FastqReads.

Context {ST : SymbolType} {AO : AlphabetOps}.

(** The element stored for the byte [c] of a read. *)
Definition fastq_symbol (kind : EAlphabet) (ignore_invalid : bool) (c : Z) : Z :=
  if ignore_invalid
  then (if is_valid kind (u8 c) then ST_cast (schar c) else ST_cast 65)
  else ST_cast (schar c).

Lemma fill_loop (g : Z -> Z) (line : list Z) (n cap : nat) :
  (n <= length line)%nat -> (n <= cap)%nat ->
  for_loop n (fun j str => <[j := g (line !!! j)]> str) (replicate cap 0)
  = map g (take n line) ++ replicate (cap - n) 0.
Proof.
  induction n as [|n IH]; intros Hn Hcap.
  - simpl. by rewrite Nat.sub_0_r.
  - cbn [for_loop]. rewrite IH by lia.
    destruct (lookup_lt_is_Some_2 line n) as [x Hx]; [lia|].
    assert (Hlen : length (map g (take n line)) = n).
    { rewrite length_map, length_take. lia. }
    rewrite insert_app_r_alt by lia. rewrite Hlen, Nat.sub_diag.
    rewrite (take_S_r _ _ _ Hx), map_app, <- app_assoc. f_equal.
    replace (cap - n)%nat with (S (cap - S n)) by lia.
    rewrite (list_lookup_total_correct _ _ _ Hx). reflexivity.
Qed.

(** One turn of the loop over the reads. *)
Lemma fastq_read_plain (file P R : list Z) (e : fastq_entry) (i : nat)
    (strings : list SGVector) (m : Z) (ign : bool) (s : CStringFeatures) :
  file = P ++ fastq_entry_bytes e ++ R ->
  fastq_entry_wf e ->
  fq_read e <> [] ->
  fastq_read file ign false i
    {| q_offs := Z.of_nat (length P); q_strings := strings; q_max_len := m |} s
  = Val {| q_offs := Z.of_nat (length (P ++ fastq_entry_bytes e));
           q_strings :=
             <[i := map (fastq_symbol (get_alphabet (alphabet s)) ign) (fq_read e)]>
               strings;
           q_max_len := Z.max m (i32 (Z.of_nat (length (fq_read e)))) |} s.
Proof.
  intros Hfile (H1 & H2 & H3 & H4) Hne.
  unfold fastq_read. rewrite bind_get. cbn [q_offs q_strings q_max_len].
  unfold must_get_line.
  rewrite (get_line_in file P (fq_id e)
             (fq_read e ++ 10 :: fq_qid e ++ 10 :: fq_qual e ++ 10 :: R)); auto.
  2:{ rewrite Hfile. unfold fastq_entry_bytes.
      repeat (rewrite <- ?app_assoc; cbn [app]). reflexivity. }
  rewrite bind_ret. cbn [fst snd].
  rewrite (get_line_in file (P ++ fq_id e ++ [10]) (fq_read e)
             (fq_qid e ++ 10 :: fq_qual e ++ 10 :: R)); auto.
  2:{ rewrite Hfile. unfold fastq_entry_bytes.
      repeat (rewrite <- ?app_assoc; cbn [app]). reflexivity. }
  rewrite bind_ret. cbn [fst snd].
  rewrite bool_decide_eq_false_2 by (destruct (fq_read e); [done|cbn; lia]).
  rewrite bind_ret, bind_ret. cbn [q_offs q_strings q_max_len].
  unfold new_SGVector. rewrite Nat2Z.id.
  rewrite (fill_loop
             (fun c => if ign
                       then (if is_valid (get_alphabet (alphabet s)) (u8 c)
                             then ST_cast (schar c) else ST_cast 65)
                       else ST_cast (schar c))
             (fq_read e) (length (fq_read e)) (length (fq_read e))) by lia.
  rewrite firstn_all, Nat.sub_diag, app_nil_r.
  rewrite (get_line_in file (P ++ fq_id e ++ 10 :: fq_read e ++ [10]) (fq_qid e)
             (fq_qual e ++ 10 :: R)); auto.
  2:{ rewrite Hfile. unfold fastq_entry_bytes.
      repeat (rewrite <- ?app_assoc; cbn [app]). reflexivity. }
  2:{ rewrite !length_app. cbn [length]. rewrite !length_app. cbn [length]. lia. }
  rewrite bind_ret. cbn [fst snd].
  rewrite (get_line_in file
             (P ++ fq_id e ++ 10 :: fq_read e ++ 10 :: fq_qid e ++ [10])
             (fq_qual e) R); auto.
  2:{ rewrite Hfile. unfold fastq_entry_bytes.
      repeat (rewrite <- ?app_assoc; cbn [app]). reflexivity. }
  2:{ repeat (rewrite !length_app; cbn [length]). lia. }
  rewrite bind_ret. cbn [fst snd]. unfold ret. do 2 f_equal.
  unfold fastq_entry_bytes. repeat (rewrite !length_app; cbn [length]). lia.
Qed.

(** The loop over the reads. *)
Lemma fastq_reads_plain (es : list fastq_entry) (ign : bool)
    (s : CStringFeatures) (i : nat) :
  Forall fastq_entry_wf es ->
  Forall (fun e => fq_read e <> []) es ->
  (i <= length es)%nat ->
  exists m,
    fastq_reads (fastq_bytes es) ign false i
      {| q_offs := 0; q_strings := replicate (length es) []; q_max_len := 0 |} s
    = Val {| q_offs := Z.of_nat (length (fastq_bytes (take i es)));
             q_strings :=
               map (fun e => map (fastq_symbol (get_alphabet (alphabet s)) ign)
                               (fq_read e)) (take i es)
               ++ replicate (length es - i) [];
             q_max_len := m |} s.
Proof.
  intros Hwf Hne. induction i as [|i IH]; intros Hi.
  - exists 0. cbn. by rewrite Nat.sub_0_r.
  - destruct (lookup_lt_is_Some_2 es i) as [e He]; [lia|].
    destruct (IH ltac:(lia)) as [m Hm].
    cbn [fastq_reads]. rewrite (bind_Val _ _ _ _ _ Hm).
    assert (Hmap : length (map (fun e => map (fastq_symbol (get_alphabet (alphabet s)) ign)
                                           (fq_read e)) (take i es)) = i).
    { rewrite length_map, length_take. lia. }
    assert (Hin : e ∈ es) by (apply list_elem_of_lookup; eauto).
    rewrite (fastq_read_plain (fastq_bytes es) (fastq_bytes (take i es))
               (fastq_bytes (drop (S i) es)) e i _ m ign s).
    + eexists. rewrite <- (fastq_bytes_take_S es i e He). do 2 f_equal.
      rewrite insert_app_r_alt by lia. rewrite Hmap, Nat.sub_diag.
      rewrite (take_S_r _ _ _ He), map_app, <- app_assoc. f_equal.
      replace (length es - i)%nat with (S (length es - S i)) by lia.
      reflexivity.
    + by apply fastq_bytes_split.
    + rewrite Forall_forall in Hwf. by apply Hwf.
    + rewrite Forall_forall in Hne. by apply Hne.
Qed.

(** X13: [load_fastq_file] in its default mode.  A FASTQ source of records
    of four lines whose reads are not empty loads to one sequence per read,
    in order: the bytes of the read as values of [ST] (read through a
    [char]), an invalid byte replaced by ['A'] when [ignore_invalid] is
    set.  The call returns [true]; the store has no subset, no
    [single_string] and no mask table, and its alphabet is a new DNA
    alphabet that has counted nothing; [num_symbols] and [order] are as
    before.  When the number of lines of the source is not a multiple of
    four the call throws, and the store has lost its subsets only. *)
Theorem load_fastq_one_sequence_per_read (fs : FileSystem) (fname : string)
    (ign : bool) (s : CStringFeatures) :
  (forall es,
     file_data fs fname = Some (fastq_bytes es) ->
     Forall fastq_entry_wf es ->
     Forall (fun e => fq_read e <> []) es ->
     exists s',
       load_fastq_file fs fname ign false s = Val true s'
       /\ features s' = map (fun e => map (fastq_symbol DNA ign) (fq_read e)) es
       /\ alphabet s' = new_CAlphabet DNA
       /\ m_subset_stack s' = [] /\ single_string s' = None
       /\ symbol_mask_table s' = None
       /\ num_symbols s' = num_symbols s /\ order s' = order s)
  /\ (forall file bit,
        file_data fs fname = Some file ->
        Z.rem (get_num_lines file) 4 <> 0 ->
        load_fastq_file fs fname ign bit s
        = Exc (ShogunError "Number of lines must be divisible by 4 in fastq files")
            (set_subset_stack [] s)).
Proof.
  split.
  - intros es Hfile Hwf Hne.
    unfold load_fastq_file, remove_all_subsets.
    rewrite bind_modify, Hfile, bind_ret.
    rewrite (get_num_lines_fastq es Hwf).
    rewrite Z.mul_comm, Z.rem_mul by lia.
    rewrite bool_decide_eq_false_2 by lia. rewrite bind_ret.
    rewrite Z.quot_mul by lia.
    rewrite (bind_Val _ _ _ _ _ (cleanup_spec _)).
    rewrite bind_modify, bind_ret, Nat2Z.id.
    set (s1 := set_alphabet (new_CAlphabet DNA) _).
    destruct (fastq_reads_plain es ign s1 (length es) Hwf Hne ltac:(lia))
      as [m Hm].
    rewrite firstn_all, Nat.sub_diag, app_nil_r in Hm.
    rewrite (bind_Val _ _ _ _ _ Hm). rewrite bind_modify.
    cbn [q_strings]. eexists. split; [reflexivity|].
    repeat split.
  - intros file bit Hfile Hrem.
    unfold load_fastq_file, remove_all_subsets.
    rewrite bind_modify, Hfile, bind_ret.
    rewrite bool_decide_eq_true_2 by exact Hrem. reflexivity.
Qed.

End FastqReads.

(** ** Windows of a single sequence *)

Section WindowFacts.

Context {ST : SymbolType} {AO : AlphabetOps}.

(** The loop over positions that all fit collects their windows. *)
Lemma position_list_loop_windows W skip (v : SGVector) (positions : list Z) :
  0 <= skip <= W ->
  Forall (fun q => 0 <= q <= vlen v - W) positions ->
  forall i f s, features s = [v] ->
  position_list_loop W skip (vlen v) positions i f s
  = Val (f ++ map (fun q => slice v (q + skip) (q + W)) positions) s.
Proof.
  intros Hskip Hall. induction Hall as [|q positions Hq Hall IH]; intros i f s Hf.
  - cbn [position_list_loop map]. by rewrite app_nil_r.
  - cbn [position_list_loop].
    rewrite (bind_Val get _ _ _ _ eq_refl). rewrite Hf.
    rewrite (bind_Val _ _ s v s) by reflexivity.
    rewrite bool_decide_eq_true_2 by lia.
    rewrite Z.min_l by lia.
    unfold set_vlen. rewrite slice_length by lia.
    rewrite bool_decide_eq_true_2 by lia.
    rewrite (bind_Val _ _ s _ s) by reflexivity.
    rewrite (IH _ _ s Hf). cbn [map]. rewrite <- app_assoc. cbn [app].
    do 3 f_equal. apply take_ge.
    pose proof (slice_length v (q + skip) (q + W) ltac:(lia) ltac:(lia)) as Hl.
    unfold vlen in Hl. lia.
Qed.

(** X14: [obtain_by_position_list] when every position fits.  On a store
    without subset that holds one sequence [v] and no [single_string], for
    a window of [W > 0] symbols not longer than [v], [0 <= skip <= W] and
    a non-empty list of positions [p] with [0 <= p <= length - W], the
    call returns the number of positions; the store then holds, in the
    order of the list, the windows [v[p + skip .. p + W)], and [v] as
    [single_string]. *)
Theorem position_list_windows (W skip : Z) (positions : list Z) (v : SGVector)
    (s : CStringFeatures) :
  has_subsets s = false -> features s = [v] -> single_string s = None ->
  W > 0 -> vlen v >= W -> 0 <= skip <= W -> positions <> [] ->
  Forall (fun q => 0 <= q <= vlen v - W) positions ->
  obtain_by_position_list W (Some positions) skip s
  = Val (Z.of_nat (length positions))
      (set_features_field
         (map (fun q => slice v (q + skip) (q + W)) positions)
         (set_single_string (Some v) s)).
Proof.
  intros Hs Hf Hss HW HL Hskip Hne Hall. unfold obtain_by_position_list.
  rewrite bind_get, Hs, bind_ret.
  rewrite (get_max_vector_length_single s v Hs Hf).
  rewrite (get_num_vectors_no_subset s Hs), Hf, Hss.
  unfold ASSERT.
  rewrite (bool_decide_eq_true_2 (is_Some (Some _))) by eauto.
  rewrite bind_ret.
  rewrite (bool_decide_eq_true_2 (W > 0)) by lia. rewrite bind_ret.
  rewrite (bind_Val _ _ s tt s) by reflexivity.
  rewrite (bool_decide_eq_true_2 (vlen v >= W)) by lia.
  rewrite (bind_Val _ _ s tt s) by reflexivity.
  change (default [] (Some positions)) with positions.
  rewrite bool_decide_eq_true_2 by (destruct positions; [done|cbn [length]; lia]).
  rewrite bind_ret.
  rewrite (bind_Val _ _ s (vlen v) (set_single_string (Some v) s)) by reflexivity.
  rewrite (bind_Val _ _ _ _ _
             (position_list_loop_windows W skip v positions Hskip Hall 0 []
                (set_single_string (Some v) s) Hf)).
  reflexivity.
Qed.

(** X15: [obtain_by_sliding_window] checks before it changes anything.  A
    call on a store with a subset, with a step or a window that is not
    positive, on a store that holds neither exactly one sequence nor a
    [single_string], or with a window longer than every sequence and the
    [single_string], throws and leaves the store as it was. *)
Theorem sliding_window_rejects (W step skip : Z) (s : CStringFeatures) :
  has_subsets s = true
  \/ step <= 0 \/ W <= 0
  \/ (get_num_vectors s <> 1 /\ single_string s = None)
  \/ (get_max_vector_length s < W
      /\ forall ss, single_string s = Some ss -> vlen ss < W) ->
  exists e, obtain_by_sliding_window W step skip s = Exc e s.
Proof.
  intros Hbad. unfold obtain_by_sliding_window. rewrite bind_get.
  destruct (has_subsets s) eqn:Hs; [eexists; reflexivity|]. rewrite bind_ret.
  unfold ASSERT.
  case_bool_decide as Hstep; [|eexists; reflexivity]. rewrite bind_ret.
  case_bool_decide as HW; [|eexists; reflexivity]. rewrite bind_ret.
  destruct (bool_decide (get_num_vectors s = 1)
            || bool_decide (is_Some (single_string s))) eqn:Hone;
    [|eexists; reflexivity].
  rewrite bind_ret.
  destruct (bool_decide (get_max_vector_length s >= W)
            || match single_string s with
               | Some ss => bool_decide (vlen ss >= W)
               | None => false
               end) eqn:Hlong; [|eexists; reflexivity].
  exfalso. destruct Hbad as [H|[H|[H|[[H1 H2]|[H1 H2]]]]]; try discriminate; try lia.
  - rewrite H2 in Hone. rewrite bool_decide_eq_false_2 in Hone by exact H1.
    rewrite bool_decide_eq_false_2 in Hone by (intros [? ?]; discriminate).
    discriminate.
  - rewrite bool_decide_eq_false_2 in Hlong by lia. cbn [orb] in Hlong.
    destruct (single_string s) as [ss|]; [|discriminate].
    specialize (H2 ss eq_refl).
    rewrite bool_decide_eq_false_2 in Hlong by lia. discriminate.
Qed.

End WindowFacts.

(** ** What the codec and the loaders leave behind *)

(** The outcome [r] of a call on the store [s] left the store as it was. *)
Definition unchanged {A} (s : CStringFeatures) (r : result A) : Prop :=
  match r with
  | Val _ s' => s' = s
  | Exc _ s' => s' = s
  | Undefined => True
  end.

Section CodecFacts.

Context {ST : SymbolType} {AO : AlphabetOps} {CO : CompressorOps}.

Lemma get_feature_vector_unchanged num s : unchanged s (get_feature_vector num s).
Proof.
  unfold get_feature_vector. rewrite bind_get.
  case_bool_decide; [reflexivity|]. rewrite bind_ret.
  destruct (negb (preprocess_on_get s)); [|reflexivity].
  destruct (features s !! _); reflexivity.
Qed.

(** The loop of [save_compressed] over the sequences: the store stays, and
    what is written starts with the header. *)
Lemma save_frames_unchanged c lvl (header : list Z) (s : CStringFeatures) (n : nat) :
  match for_loop n
          (fun i (m : M (list Z)) =>
             bind m (fun out =>
             bind (get_feature_vector (Z.of_nat i)) (fun vec =>
             ret (out ++ compressed_frame c lvl vec))))
          (ret header) s with
  | Val out s' => s' = s /\ exists body, out = header ++ body
  | Exc _ s' => s' = s
  | Undefined => True
  end.
Proof.
  induction n as [|n IH].
  - cbn [for_loop]. split; [reflexivity|]. exists []. by rewrite app_nil_r.
  - cbn [for_loop]. unfold bind at 1.
    match type of IH with
    | match ?r with _ => _ end => destruct r as [out s1|e s1|]
    end; [|exact IH|exact I].
    destruct IH as [-> [body ->]].
    pose proof (get_feature_vector_unchanged (Z.of_nat n) s) as Hget.
    unfold bind. destruct (get_feature_vector (Z.of_nat n) s) as [vec s2|e s2|];
      cbn [unchanged] in Hget; [|exact Hget|exact I].
    subst s2. split; [reflexivity|].
    eexists. by rewrite <- app_assoc.
Qed.

(** X16: [save_compressed] never changes the store, whatever its outcome.
    On a store with a subset it throws; when the file cannot be created it
    returns [false] and writes nothing; when it returns [true] the file
    starts with the header: the tag, the compression type, the kind of the
    alphabet, the number of sequences and the length of the longest. *)
Theorem save_compressed_keeps_store (fs : FileSystem) (dest : string) (c lvl : Z)
    (s : CStringFeatures) :
  unchanged s (save_compressed fs dest c lvl s)
  /\ (has_subsets s = true ->
      save_compressed fs dest c lvl s
      = Exc (ShogunError "save_compressed() is not possible on subset") s)
  /\ (has_subsets s = false -> can_create fs dest = false ->
      save_compressed fs dest c lvl s = Val (false, fs) s)
  /\ (forall fs' s',
        save_compressed fs dest c lvl s = Val (true, fs') s' ->
        exists body,
          file_data fs' dest
          = Some (compressed_header c (get_alphabet (alphabet s))
                    (get_num_vectors s) (get_max_vector_length s) ++ body)).
Proof.
  unfold save_compressed. rewrite bind_get.
  destruct (has_subsets s) eqn:Hs.
  { split; [reflexivity|]. split; [reflexivity|].
    split; intros; discriminate. }
  rewrite bind_ret.
  destruct (can_create fs dest) eqn:Hcan; cbn [negb].
  2:{ split; [reflexivity|]. split; [discriminate|].
      split; [reflexivity|]. intros; discriminate. }
  pose proof (save_frames_unchanged c lvl
                (compressed_header c (get_alphabet (alphabet s))
                   (get_num_vectors s) (get_max_vector_length s))
                s (Z.to_nat (get_num_vectors s))) as Hloop.
  set (loop := for_loop (Z.to_nat (get_num_vectors s)) _ _) in *.
  destruct (loop s) as [out s1|e s1|] eqn:Hr.
  - destruct Hloop as [-> [body ->]]. rewrite (bind_Val _ _ _ _ _ Hr).
    split; [reflexivity|]. split; [discriminate|]. split; [discriminate|].
    intros fs' s' H. unfold ret in H. injection H as <- _. exists body.
    unfold write_file. cbn [file_data]. by rewrite decide_True.
  - subst s1. rewrite (bind_Exc _ _ _ _ _ Hr).
    split; [reflexivity|]. split; [discriminate|].
    split; intros; discriminate.
  - unfold bind. rewrite Hr.
    split; [exact I|]. split; [discriminate|]. split; intros; discriminate.
Qed.

(** X17: a file that does not start with the tag [SGV0] costs the store
    its content: [load_compressed] throws, and the store is then the
    cleaned store (no sequence, no [single_string], no mask table, no
    subset, an alphabet of the same kind that has counted nothing). *)
Theorem load_compressed_rejects_tag (fs : FileSystem) (src : string)
    (dec : bool) (stream : list Z) (s : CStringFeatures) :
  file_data fs src = Some stream ->
  take 4 stream <> [83; 71; 86; 48] ->
  exists e, load_compressed fs src dec s = Exc e (cleaned s).
Proof.
  intros Hfile Htag. unfold load_compressed, remove_all_subsets.
  rewrite bind_modify, Hfile.
  rewrite (bind_Val _ _ _ _ _ (cleanup_spec _)).
  change (cleaned (set_subset_stack [] s)) with (cleaned s).
  unfold read_tag_byte, must_read, ASSERT.
  destruct stream as [|b0 stream]; [eexists; reflexivity|].
  cbn [fread_byte]. rewrite bind_assoc, bind_ret. cbn [fst snd].
  case_bool_decide as H0; [|eexists; reflexivity]. subst b0.
  rewrite bind_assoc, !bind_ret.
  destruct stream as [|b1 stream]; [eexists; reflexivity|].
  cbn [fread_byte]. rewrite bind_assoc, bind_ret. cbn [fst snd].
  case_bool_decide as H1; [|eexists; reflexivity]. subst b1.
  rewrite bind_assoc, !bind_ret.
  destruct stream as [|b2 stream]; [eexists; reflexivity|].
  cbn [fread_byte]. rewrite bind_assoc, bind_ret. cbn [fst snd].
  case_bool_decide as H2; [|eexists; reflexivity]. subst b2.
  rewrite bind_assoc, !bind_ret.
  destruct stream as [|b3 stream]; [eexists; reflexivity|].
  cbn [fread_byte]. rewrite bind_assoc, bind_ret. cbn [fst snd].
  case_bool_decide as H3; [|eexists; reflexivity]. subst b3.
  exfalso. apply Htag. reflexivity.
Qed.

(** X18: [cleanup] always returns.  It leaves no sequence, no
    [single_string], no mask table and no subset, and an alphabet of the
    kind before whose histogram has counted nothing; the order, the symbol
    counts and the preprocessing are as before.  Cleaning a second time
    changes nothing more. *)
Theorem cleanup_resets (s : CStringFeatures) :
  exists s',
    cleanup s = Val tt s'
    /\ features s' = [] /\ single_string s' = None
    /\ symbol_mask_table s' = None /\ has_subsets s' = false
    /\ get_num_vectors s' = 0 /\ get_max_vector_length s' = 0
    /\ alphabet s' = new_CAlphabet (get_alphabet (alphabet s))
    /\ order s' = order s /\ num_symbols s' = num_symbols s
    /\ original_num_symbols s' = original_num_symbols s
    /\ preprocess_on_get s' = preprocess_on_get s
    /\ preprocessors s' = preprocessors s
    /\ cleanup s' = Val tt s'.
Proof.
  exists (cleaned s). split; [apply cleanup_spec|].
  repeat split.
Qed.

End CodecFacts.

(** ** The directory loader: paths it refuses *)

Section DirectoryFacts.

Context {ST : SymbolType} {AO : AlphabetOps} {FS : FsRegistry}.

(** X19: [load_from_directory] on a path it cannot list.  When
    [is_directory] reports an error for the path the [require] fails; when
    listing the children reports an error the call throws the system error
    of that value; when the listing is empty the call throws.  In each case
    the store has lost its subsets and is otherwise as it was. *)
Theorem load_from_directory_rejects (emp : bool) (dirname : string)
    (s : CStringFeatures) :
  (is_directory dirname <> 0 ->
   load_from_directory emp dirname s
   = Exc (RequireFailed "Specified path is not a directory!")
       (set_subset_stack [] s))
  /\ (is_directory dirname = 0 -> fst (get_children dirname) <> 0 ->
      load_from_directory emp dirname s
      = Exc (SystemError (fst (get_children dirname))) (set_subset_stack [] s))
  /\ (is_directory dirname = 0 -> get_children dirname = (0, []) ->
      load_from_directory emp dirname s
      = Exc (ShogunError "error calling scandir - no files found")
          (set_subset_stack [] s)).
Proof.
  unfold load_from_directory, remove_all_subsets.
  split; [|split].
  - intros Hdir. rewrite bind_modify.
    rewrite bool_decide_eq_false_2 by exact Hdir. reflexivity.
  - intros Hdir Hr. rewrite bind_modify.
    rewrite bool_decide_eq_true_2 by exact Hdir. rewrite bind_ret.
    rewrite bool_decide_eq_true_2 by exact Hr. reflexivity.
  - intros Hdir Hch. rewrite bind_modify.
    rewrite bool_decide_eq_true_2 by exact Hdir. rewrite bind_ret, Hch.
    cbn [fst snd]. rewrite bool_decide_eq_false_2 by lia. rewrite bind_ret.
    rewrite bool_decide_eq_true_2 by (cbn [length]; lia). reflexivity.
Qed.

End DirectoryFacts.

(** ** Writing through the subset stack *)

Section ViewFacts.

Context {ST : SymbolType} {AO : AlphabetOps}.


End ViewFacts.

(** ** Round trips through the store *)

Section StoreRoundTrips.

Context {ST : SymbolType} {AO : AlphabetOps}.

(** X21: what [set_features] stored is what the store gives back.  On a
    store without subset and without preprocessing on the fly, when
    [set_features] on a non-empty list returns [true], then
    [get_string_list] and [copy_features] both return the list,
    [get_num_vectors] is its length, and sequence [i] read by
    [get_feature_vector] is its entry [i]. *)
Theorem set_features_then_read (emp : bool) (l : list SGVector)
    (s s' : CStringFeatures) :
  has_subsets s = false -> preprocess_on_get s = false -> l <> [] ->
  set_features_list emp l s = Val true s' ->
  get_string_list s' = Val l s'
  /\ copy_features s' = Val l s'
  /\ get_num_vectors s' = Z.of_nat (length l)
  /\ forall (i : nat) v, l !! i = Some v ->
     get_feature_vector_SGVector (Z.of_nat i) s' = Val v s'.
Proof.
  intros Hs Hpre Hne Hset.
  rewrite (set_features_list_spec emp l s Hs) in Hset.
  assert (Hdata : vector_data emp l = Some l).
  { destruct l; [done|reflexivity]. }
  rewrite Hdata in Hset. cbv zeta in Hset.
  destruct (check_alphabet_size _ && check_alphabet _); [|discriminate].
  injection Hset as <-.
  set (s' := set_features_field l _).
  assert (Hs' : has_subsets s' = false) by reflexivity.
  assert (Hpre' : preprocess_on_get s' = false) by exact Hpre.
  assert (Hn : get_num_vectors s' = Z.of_nat (length l)).
  { by rewrite (get_num_vectors_no_subset s' Hs'). }
  split; [|split; [|split]].
  - unfold get_string_list. rewrite bind_get, Hs'. reflexivity.
  - apply copy_features_whole; [exact Hpre'|exact Hs'|].
    rewrite Hn. destruct l; [done|cbn [length]; lia].
  - exact Hn.
  - intros i v Hv. apply get_feature_vector_SGVector_at; [exact Hpre'| |].
    + rewrite Hn. apply lookup_lt_Some in Hv. lia.
    + rewrite (subset_idx_conversion_none s' _ Hs'), Nat2Z.id. exact Hv.
Qed.

End StoreRoundTrips.

(** ** Decoding the codes of the store *)

Section DecodeFacts.

Context {ST : SymbolType} {AO : AlphabetOps}.
Hypothesis ST_bits_byte : 8 <= ST_bits <= 64.

(** [unembed_word] on a packed word writes the characters of its symbols. *)
Lemma unembed_embed_list num_bits to_char (syms out : list Z) :
  0 <= num_bits ->
  Z.of_nat (length syms) * num_bits <= ST_bits ->
  Forall (fun s => 0 <= s < 2 ^ num_bits) syms ->
  (length syms <= length out)%nat ->
  take (length syms)
    (unembed_word num_bits to_char
       (embed_word num_bits syms (Z.of_nat (length syms))) out
       (Z.of_nat (length syms)))
  = map (fun x => to_char (u8 x)) syms.
Proof.
  intros Hnb Hfit Hsyms Hout.
  destruct (decide (length syms = 0)%nat) as [H0|Hpos].
  { destruct syms; [|discriminate]. reflexivity. }
  assert (Hnb32 : 0 <= num_bits < 2 ^ 32).
  { split; [lia|]. apply Z.le_lt_trans with 64; [nia|reflexivity]. }
  unfold unembed_word. unfold u32 at 1 2. rewrite (Z.mod_small num_bits) by lia.
  rewrite Nat2Z.id.
  set (n := length syms) in *.
  destruct (unembed_loop ST_bits_byte num_bits to_char
              (embed_word num_bits syms (Z.of_nat n))
              out n (fun j => syms !!! (n - 1 - j)%nat)) with (i := n)
    as (_ & Hlen & H); try lia.
  - intros j r Hj Hr. apply embed_word_field; try lia; [done|nia].
  - intros j Hj.
    destruct (lookup_lt_is_Some_2 syms (n - 1 - j)) as [x Hx]; [lia|].
    rewrite (list_lookup_total_correct _ _ _ Hx).
    rewrite Forall_forall in Hsyms. apply Hsyms.
    apply list_elem_of_lookup. eauto.
  - cbn zeta in H, Hlen. apply list_eq. intros i.
    rewrite list_lookup_fmap.
    destruct (decide (i < n)%nat) as [Hi|Hi].
    + rewrite lookup_take_lt by lia.
      specialize (H (n - 1 - i)%nat ltac:(lia)).
      replace (n - 1 - (n - 1 - i))%nat with i in H by lia.
      rewrite H.
      destruct (lookup_lt_is_Some_2 syms i) as [x Hx]; [lia|].
      by rewrite Hx, (list_lookup_total_correct _ _ _ Hx).
    + rewrite lookup_take_ge by lia.
      rewrite lookup_ge_None_2 by lia. reflexivity.
Qed.

(** X22: the codes of the store decode to the windows they were built
    from.  Under the conditions of [embed_features(k)] with [b >= 1] bits
    per symbol and [k * b] at most the width of [ST], when every symbol of
    every sequence remaps to a code below [2 ^ b] that [remap_to_char]
    maps back to the symbol, [unembed_word] on position [j] of sequence
    [i] after the call writes the symbols [j], ..., [j + k - 1] of the
    sequence as it was before the call. *)
Theorem embed_features_unembed (k : Z) (s : CStringFeatures) :
  has_subsets s = false ->
  get_num_symbols_in_histogram (alphabet s) > 0 ->
  let kind := get_alphabet (alphabet s) in
  let b := get_num_bits kind in
  1 <= k -> 1 <= b -> k * b <= ST_bits ->
  Forall (fun v =>
            k <= vlen v
            /\ Forall (fun c => 0 <= remapped kind c < 2 ^ b
                                /\ remap_to_char kind (u8 (remapped kind c)) = c) v)
    (features s) ->
  exists s',
    embed_features k s = Val tt s'
    /\ forall (i j : nat) (v out : SGVector),
       features s !! i = Some v -> Z.of_nat j <= vlen v - k ->
       k <= Z.of_nat (length out) ->
       exists c code,
         features s' !! i = Some c /\ c !! j = Some code
         /\ take (Z.to_nat k) (unembed_word b (remap_to_char kind) code out k)
            = take (Z.to_nat k) (drop j v).
Proof.
  intros Hs Hhist kind b Hk Hb Hfit Hall.
  eexists. split.
  { apply (embed_features_success ST_bits_byte); try done; [fold kind b; lia|].
    eapply Forall_impl; [exact Hall|]. cbv beta. intros v [H _]. exact H. }
  intros i j v out Hv Hj Hout.
  cbn [features set_symbol_mask_table set_features_field].
  rewrite Forall_forall in Hall.
  destruct (Hall v ltac:(apply list_elem_of_lookup; eauto)) as [Hlen Hsyms].
  exists (spec_kmer_codes kind b k v),
    (embed_word b (map (remapped kind) (take (Z.to_nat k) (drop j v))) k).
  split; [by rewrite list_lookup_fmap, Hv|]. split.
  { pose proof (spec_kmer_codes_window ST_bits_byte kind b (Z.to_nat k) v j) as H.
    rewrite Z2Nat.id in H by lia.
    apply H; try done; [lia| |unfold vlen in *; lia].
    eapply Forall_impl; [exact Hsyms|]. cbv beta. intros c [Hc _]. exact Hc. }
  set (w := take (Z.to_nat k) (drop j v)).
  assert (Hw : length w = Z.to_nat k).
  { subst w. rewrite length_take, length_drop. unfold vlen in *. lia. }
  assert (Hwsyms : Forall (fun c => 0 <= remapped kind c < 2 ^ b
                            /\ remap_to_char kind (u8 (remapped kind c)) = c) w).
  { subst w. by apply Forall_take, Forall_drop. }
  pose proof (unembed_embed_list b (remap_to_char kind) (map (remapped kind) w) out)
    as Hround.
  rewrite length_map, Hw, Z2Nat.id in Hround by lia.
  change (embed_word _ _ k) with (embed_word b (map (remapped kind) w) k).
  rewrite Hround; try lia.
  - rewrite <- list_fmap_compose. rewrite <- (list_fmap_id w) at 2.
    apply Forall_fmap_ext_1. eapply Forall_impl; [exact Hwsyms|].
    cbv beta. intros c' [_ H]. exact H.
  - apply Forall_fmap. eapply Forall_impl; [exact Hwsyms|].
    cbv beta. intros c' [H _]. exact H.
Qed.

(** X23: [shift_offset] and [shift_symbol] undo each other.  For a shift
    of [a] symbols whose count [a * b] is not negative and below the width
    of [ST], and a value [x >= 0] with [x * 2 ^ (a * b)] in the range of
    [ST], [shift_offset(x, a)] is [x * 2 ^ (a * b)] and [shift_symbol] of
    it by [a] is [x]; neither changes the store. *)
Theorem shift_offset_then_symbol (x a : Z) (s : CStringFeatures) :
  let b := get_num_bits (get_alphabet (alphabet s)) in
  0 <= a * b < ST_bits -> 0 <= x -> ST_range (x * 2 ^ (a * b)) ->
  shift_offset x a s = Val (x * 2 ^ (a * b)) s
  /\ shift_symbol (x * 2 ^ (a * b)) a s = Val x s.
Proof.
  intros b Hcount Hx Hrange.
  assert (Hp : 0 < 2 ^ (a * b)) by (apply Z.pow_pos_nonneg; lia).
  assert (Hxr : ST_range x).
  { unfold ST_range in *.
    destruct ST_signed; nia. }
  split.
  - unfold shift_offset. rewrite bind_get. fold b. unfold promoted_bits.
    rewrite bool_decide_eq_true_2 by lia. unfold ret. f_equal.
    rewrite Z.shiftl_mul_pow2 by lia. apply ST_cast_id; [lia|exact Hrange].
  - unfold shift_symbol. rewrite bind_get. fold b. unfold promoted_bits.
    rewrite bool_decide_eq_true_2 by lia. unfold ret. f_equal.
    rewrite Z.shiftr_div_pow2 by lia. rewrite Z.div_mul by lia.
    apply ST_cast_id; [lia|exact Hxr].
Qed.

End DecodeFacts.

(** ** Copying a subset *)

Section CopySubsetFacts.

Context {ST : SymbolType} {AO : AlphabetOps}.



End CopySubsetFacts.

(** * Runs on concrete inputs *)

Module Examples.

#[local] Existing Instances uint8_t example_alphabet example_compressor.

Lemma unembed_embed_word_witness :
  unembed_word 2 example_to_char (embed_word 2 [0; 1; 2; 3] 4) [0; 0; 0; 0] 4
    !! 2%nat
  = Some (example_to_char (u8 ([0; 1; 2; 3] !!! 2%nat))).
Proof.
  apply unembed_embed_word; simpl; try lia.
  repeat (constructor; [lia|]). constructor.
Defined.

(** The same round trip where the word fills a signed type up to its sign
    bit, and where eight symbols fill sixteen bits. *)
Example unembed_embed_word_int8 :
  embed_word (ST := int8_t) 2 [3; 2; 1; 3] 4 = -25
  /\ unembed_word (ST := int8_t) 2 example_to_char (-25) [0; 0; 0; 0] 4
     = [84; 71; 67; 84].
Proof. split; reflexivity. Qed.

Example unembed_embed_word_uint16 :
  embed_word (ST := uint16_t) 2 [3; 2; 1; 0; 3; 2; 1; 0] 8 = 58596
  /\ unembed_word (ST := uint16_t) 2 example_to_char 58596
       [0; 0; 0; 0; 0; 0; 0; 0] 8
     = [84; 71; 67; 65; 84; 71; 67; 65].
Proof. split; reflexivity. Qed.

Lemma set_features_replaces_or_keeps_witness :
  (exists s',
     set_features_list false [[65; 65]] (example_store [[67]]) = Val true s'
     /\ features s' = [[65; 65]]
     /\ alphabet s' = counted_alphabet 0 [[65; 65]]
     /\ get_alphabet (alphabet s') = 0
     /\ check_alphabet_size (counted_alphabet 0 [[65; 65]])
        && check_alphabet (counted_alphabet 0 [[65; 65]]) = true)
  \/ (set_features_list false [[65; 65]] (example_store [[67]])
      = Val false (example_store [[67]])
      /\ (check_alphabet_size (counted_alphabet 0 [[65; 65]])
          && check_alphabet (counted_alphabet 0 [[65; 65]]) = false
          \/ [[65; 65]] = @nil SGVector)).
Proof.
  apply (proj2 (set_features_replaces_or_keeps false [[65; 65]]
                  (example_store [[67]]))).
  reflexivity.
Defined.

(** C7 as stated fails on a store with an active subset: the call throws,
    it neither succeeds nor returns [false]. *)
Lemma set_features_under_subset_throws :
  ~ ((exists s',
        set_features_list false [[65; 65]]
          (set_subset_stack [[0]] (example_store [[67]])) = Val true s')
     \/ set_features_list false [[65; 65]]
          (set_subset_stack [[0]] (example_store [[67]]))
        = Val false (set_subset_stack [[0]] (example_store [[67]]))).
Proof. intros [[s' H]|H]; vm_compute in H; discriminate. Qed.

Lemma position_list_violation_restores_witness :
  (exists e,
     obtain_by_position_list 2 (Some ([0; 1] ++ 5 :: [2])) 0
       (example_store [[65; 67; 71; 84]])
     = Exc e (example_store [[65; 67; 71; 84]]))
  /\ (has_subsets (example_store [[65; 67; 71; 84]]) = false ->
      2 > 0 -> vlen [65; 67; 71; 84] >= 2 ->
      obtain_by_position_list 2 (Some ([0; 1] ++ 5 :: [2])) 0
        (example_store [[65; 67; 71; 84]])
      = Exc (ShogunErrorAt
               "window (size:{}) starting at position[{}]={} does not fit in sequence(len:{})"
               [2; Z.of_nat (length [0; 1]); 5; vlen [65; 67; 71; 84]])
          (example_store [[65; 67; 71; 84]])).
Proof.
  apply position_list_violation_restores; try reflexivity.
  - intros _. lia.
  - repeat (constructor; [vm_compute; intuition discriminate|]). constructor.
  - vm_compute. intros [_ H]. apply H. reflexivity.
Defined.

(** The store after [obtain_by_sliding_window(4, 1, 0)] on the sequence
    [ACGT]: the one window is the sequence, which is also kept as
    [single_string]. *)
Definition windowed_store : CStringFeatures :=
  set_single_string (Some [65; 67; 71; 84]) (example_store [[65; 67; 71; 84]]).

(** C8 as stated fails on that store: the position 9 does not fit, the
    call throws at it, and the store it leaves has lost the
    [single_string] it had before the call. *)
Lemma position_list_violation_drops_single_string :
  obtain_by_sliding_window 4 1 0 (example_store [[65; 67; 71; 84]])
  = Val 1 windowed_store
  /\ exists s',
       obtain_by_position_list 2 (Some [0; 9]) 0 windowed_store
       = Exc (ShogunErrorAt
                "window (size:{}) starting at position[{}]={} does not fit in sequence(len:{})"
                [2; 1; 9; 4]) s'
       /\ single_string windowed_store = Some [65; 67; 71; 84]
       /\ single_string s' = None
       /\ s' <> windowed_store.
Proof.
  split; [vm_compute; reflexivity|].
  eexists. split; [vm_compute; reflexivity|].
  split; [reflexivity|]. split; [reflexivity|]. discriminate.
Qed.

(** *** The compressed format *)

Lemma uint8_t_whole_bytes : 0 < sizeof_ST /\ ST_bits = 8 * sizeof_ST.
Proof. vm_compute. split; reflexivity. Qed.

Lemma uint8_t_bits_max : ST_bits <= 64.
Proof. vm_compute. discriminate. Qed.

Lemma example_decompress_inverts c lvl : decompress_inverts c lvl.
Proof. intros data. reflexivity. Qed.

Lemma compressed_round_trip_witness :
  exists fs',
    save_compressed empty_fs "f" 0 1 (example_store [[65; 67]; [71]])
    = Val (true, fs') (example_store [[65; 67]; [71]])
    /\ exists s1,
         load_compressed fs' "f" true (example_store []) = Val false s1
         /\ features s1 = features (example_store [[65; 67]; [71]]).
Proof.
  apply (compressed_round_trip uint8_t_whole_bytes uint8_t_bits_max empty_fs "f" 0 1
           (example_store [[65; 67]; [71]]) (example_store [])).
  - reflexivity.
  - reflexivity.
  - reflexivity.
  - lia.
  - apply example_decompress_inverts.
  - repeat (constructor;
            [unfold frame_fits; split; [|split; reflexivity];
             repeat (constructor; [vm_compute; split; congruence|]);
             constructor|]).
    constructor.
  - reflexivity.
  - constructor. discriminate.
Defined.

(** C1 as stated fails on the store that holds one empty sequence: the
    written file declares the maximal length 0, which [load_compressed]
    rejects. *)
Lemma compressed_round_trip_empty_sequence :
  ~ (exists fs' b s1,
       save_compressed empty_fs "f" 0 1 (example_store [[]])
       = Val (true, fs') (example_store [[]])
       /\ load_compressed fs' "f" true (example_store []) = Val b s1
       /\ features s1 = [[]]).
Proof.
  intros (fs' & b & s1 & Hsave & Hload & _).
  rewrite save_compressed_spec in Hsave by reflexivity.
  injection Hsave as <-. vm_compute in Hload. discriminate.
Qed.

(** The call on that file ends in the failed assertion. *)
Lemma load_compressed_empty_sequence :
  load_compressed
    (write_file empty_fs "f"
       [83; 71; 86; 48; 0; 0; 1; 0; 0; 0; 0; 0; 0; 0; 0; 0; 0; 0; 0; 0; 0; 0])
    "f" true (example_store [])
  = Exc (AssertFailed "max_string_length>0") (example_store []).
Proof. vm_compute. reflexivity. Qed.

(** C10 as stated fails on a store with an active subset: when the file
    cannot be opened the call returns [false] after it has removed the
    subset. *)
Lemma load_compressed_unopened_drops_subsets :
  ~ (load_compressed empty_fs "f" true
       (set_subset_stack [[0]] (example_store [[67]]))
     = Val false (set_subset_stack [[0]] (example_store [[67]]))).
Proof. vm_compute. discriminate. Qed.

Lemma load_compressed_returns_false_witness :
  load_compressed
    (write_file empty_fs "f"
       [83; 71; 86; 48; 0; 0; 1; 0; 0; 0; 2; 0; 0; 0;
        2; 0; 0; 0; 2; 0; 0; 0; 65; 67])
    "f" true (example_store [])
  = Val false (set_features_field [[65; 67]] (example_store []))
  /\ false = false.
Proof.
  split; [vm_compute; reflexivity|].
  eapply (proj1 (load_compressed_returns_false
                   (write_file empty_fs "f"
                      [83; 71; 86; 48; 0; 0; 1; 0; 0; 0; 2; 0; 0; 0;
                       2; 0; 0; 0; 2; 0; 0; 0; 65; 67])
                   "f" true (example_store []))).
  vm_compute. reflexivity.
Defined.

(** *** k-mer embedding *)

(** A store whose alphabet has counted its sequences. *)
Definition counted_store (f : list SGVector) : CStringFeatures :=
  set_alphabet (counted_alphabet 0 f) (example_store f).

Lemma uint8_t_bits : 8 <= ST_bits <= 64.
Proof. vm_compute. split; discriminate. Qed.

Lemma embed_features_rolling_codes_witness :
  exists s',
    embed_features 2 (counted_store [[65; 67; 71; 84]; [71; 71]]) = Val tt s'
    /\ length (features s') = 2%nat.
Proof.
  destruct (embed_features_rolling_codes uint8_t_bits 2
              (counted_store [[65; 67; 71; 84]; [71; 71]]))
    as [Hok _].
  - reflexivity.
  - vm_compute. reflexivity.
  - lia.
  - vm_compute. discriminate.
  - destruct Hok as (s' & Hrun & Hlen & _).
    + repeat (constructor; [vm_compute; discriminate|]). constructor.
    + exists s'. split; [exact Hrun|exact Hlen].
Defined.

(** The store after [set_features] of the sequence [ACGT] and
    [set_feature_vector] of [NANT] at index 0, which counts nothing: the
    histogram is the one of [ACGT], the stored sequence has the symbol [N],
    which this alphabet maps to 255. *)
Definition unknown_symbol_store : CStringFeatures :=
  set_features_field [[78; 65; 78; 84]] (counted_store [[65; 67; 71; 84]]).

(** C3 as stated fails on that store for [k = 1]: position 0 of the
    embedded sequence holds 255, the packed word as it is, which is no
    value masked to [1 * 2] bits, whatever [prev] the formula is given. *)
Lemma embed_features_first_code_unmasked :
  has_subsets unknown_symbol_store = false
  /\ get_num_symbols_in_histogram (alphabet unknown_symbol_store) > 0
  /\ exists s' c,
       embed_features 1 unknown_symbol_store = Val tt s'
       /\ features s' !! 0%nat = Some c
       /\ c !! 0%nat = Some 255
       /\ forall prev : Z,
            c !! 0%nat
            <> Some (ST_cast (Z.land (Z.lor (Z.shiftl prev 2) (remapped 0 78))
                                (Z.ones (1 * 2)))).
Proof.
  split; [reflexivity|]. split; [reflexivity|].
  eexists _, _. split; [vm_compute; reflexivity|].
  split; [reflexivity|]. split; [reflexivity|].
  intros prev H. injection H as H.
  change (remapped 0 78) with 255 in H.
  change (Z.ones (1 * 2)) with 3 in H.
  assert (Hr : 0 <= Z.land (Z.lor (Z.shiftl prev 2) 255) 3 < 4).
  { change 3 with (Z.ones 2). rewrite Z.land_ones by lia.
    apply Z.mod_pos_bound. reflexivity. }
  revert H Hr. generalize (Z.land (Z.lor (Z.shiftl prev 2) 255) 3). intros z H Hr.
  assert (Hz : z = 0 \/ z = 1 \/ z = 2 \/ z = 3) by lia.
  destruct Hz as [-> | [-> | [-> | ->]]]; vm_compute in H; discriminate.
Qed.

(** *** The FASTQ loader *)

Definition two_reads : list fastq_entry :=
  [ {| fq_id := [64; 49]; fq_read := [65; 67]; fq_qid := [43]; fq_qual := [33; 33] |};
    {| fq_id := [64; 50]; fq_read := [71; 84]; fq_qid := [43]; fq_qual := [33; 33] |} ].

Definition empty_read : list fastq_entry :=
  [ {| fq_id := [64; 49]; fq_read := []; fq_qid := [43]; fq_qual := [] |} ].

Lemma load_fastq_bitremap_witness :
  exists s',
    load_fastq_file (write_file empty_fs "reads" (fastq_bytes two_reads)) "reads"
      false true (example_store [])
    = Val true s'
    /\ features s' = [map (read_code DNA 2) two_reads].
Proof.
  destruct (load_fastq_bitremap
              (write_file empty_fs "reads" (fastq_bytes two_reads)) "reads"
              false two_reads 2 (example_store []))
    as [Hok _].
  - reflexivity.
  - repeat (constructor;
            [repeat split; repeat (constructor; [discriminate|]); constructor|]).
    constructor.
  - lia.
  - reflexivity.
  - apply Hok. repeat (constructor; [reflexivity|]). constructor.
Defined.

(** C6 as stated fails on a source whose reads all have length 0: the
    empty read is an error. *)
Lemma load_fastq_empty_read :
  ~ (exists s',
       load_fastq_file (write_file empty_fs "reads" (fastq_bytes empty_read))
         "reads" false true (example_store [])
       = Val true s'
       /\ features s' = [map (read_code DNA 0) empty_read]).
Proof. intros (s' & H & _). vm_compute in H. discriminate. Qed.

(** *** The directory loader *)

(** A directory [d] with the regular files [a] and [b] of two bytes;
    reading [b] fails. *)
Definition example_registry : FsRegistry := {|
  is_directory := fun path => if bool_decide (path = "d") then 0 else 1;
  get_children := fun path =>
    if bool_decide (path = "d") then (0, ["a"; "b"]) else (1, []);
  get_file_size := fun _ => 2;
  new_random_access_file := fun _ => 0;
  file_read := fun path _ _ => if bool_decide (path = "d/b") then 1 else 0;
  join_path := fun dir v => dir +:+ "/" +:+ v;
|}.





(** *** Single sequences *)

Lemma set_feature_vector_then_get_witness :
  exists s',
    set_feature_vector [84; 84] 1 (example_store [[65; 67]; [71]]) = Val tt s'
    /\ get_feature_vector_SGVector 1 s' = Val [84; 84] s'.
Proof.
  destruct (set_feature_vector_then_get [84; 84] 1 (example_store [[65; 67]; [71]]))
    as [Hok _]; [reflexivity|lia|].
  destruct Hok as (s' & Hset & Hget & _).
  - split; [reflexivity|]. split; reflexivity.
  - exists s'. split; [exact Hset|exact Hget].
Defined.


Lemma have_same_length_spec_witness :
  have_same_length 2 (example_store [[65; 67]; [71; 84]])
  = Val true (example_store [[65; 67]; [71; 84]]).
Proof.
  rewrite (have_same_length_spec 2 (example_store [[65; 67]; [71; 84]])
             eq_refl eq_refl).
  reflexivity.
Defined.

Lemma get_transposed_matrix_spec_witness :
  exists T,
    get_transposed_matrix (example_store [[1; 2; 3]; [4; 5; 6]])
    = Val T (example_store [[1; 2; 3]; [4; 5; 6]])
    /\ Z.of_nat (length T) = 3.
Proof.
  destruct (get_transposed_matrix_spec (example_store [[1; 2; 3]; [4; 5; 6]])
              eq_refl eq_refl) as [Hok _].
  destruct Hok as (T & HT & Hlen & _).
  - repeat (constructor; [reflexivity|]). constructor.
  - exists T. split; [exact HT|exact Hlen].
Defined.

Lemma get_transposed_matrix_involutive_witness :
  get_transposed_matrix (example_store [[1; 4]; [2; 5]; [3; 6]])
  = Val (features (example_store [[1; 2; 3]; [4; 5; 6]]))
      (example_store [[1; 4]; [2; 5]; [3; 6]]).
Proof.
  apply get_transposed_matrix_involutive; try reflexivity.
  discriminate.
Defined.

Lemma copy_features_view_witness :
  copy_features (example_store [[65]; [67]])
  = Val (features (example_store [[65]; [67]])) (example_store [[65]; [67]]).
Proof.
  destruct (copy_features_view (example_store [[65]; [67]]) eq_refl)
    as (_ & H & _).
  apply H; reflexivity.
Defined.

Lemma append_features_keeps_sequences_witness :
  append_features false [[67]] (example_store [[65]])
  = Val true
      (set_alphabet (count_strings (alphabet (example_store [[65]])) [[67]])
         (example_store [[65]])).
Proof.
  destruct (append_features_keeps_sequences false [[67]] (example_store [[65]])
              eq_refl) as [H _].
  rewrite H by discriminate. reflexivity.
Defined.


Lemma set_features_then_read_witness :
  copy_features (counted_store [[65; 67]; [71]])
  = Val [[65; 67]; [71]] (counted_store [[65; 67]; [71]])
  /\ get_num_vectors (counted_store [[65; 67]; [71]]) = 2.
Proof.
  destruct (set_features_then_read false [[65; 67]; [71]] (example_store [])
              (counted_store [[65; 67]; [71]]) eq_refl eq_refl)
    as (_ & Hcopy & Hnum & _).
  - discriminate.
  - vm_compute. reflexivity.
  - split; [exact Hcopy|exact Hnum].
Defined.


(** *** Bit fields *)

Lemma get_masked_symbols_fields_witness :
  exists s' r,
    compute_symbol_mask_table 2 (example_store []) = Val tt s'
    /\ get_masked_symbols 27 5 s' = Val r s'.
Proof.
  destruct (get_masked_symbols_fields uint8_t_bits 2 27 5 (example_store []))
    as [(s' & r & Htable & Hmask & _) _]; [reflexivity|lia|lia|].
  exists s', r. split; [exact Htable|exact Hmask].
Defined.

(** The fields 0 and 2 of [00 01 10 11] are [01] and [11]. *)
Example get_masked_symbols_example :
  exists s',
    compute_symbol_mask_table 2 (example_store []) = Val tt s'
    /\ get_masked_symbols 27 5 s' = Val 19 s'.
Proof. eexists. split; reflexivity. Qed.

Lemma shift_symbol_drops_symbols_witness :
  shift_symbol (embed_word 2 [3; 2; 1] 3) 1 (example_store [])
  = Val (embed_word 2 [3; 2; 1] (3 - 1)) (example_store []).
Proof.
  pose proof (shift_symbol_drops_symbols uint8_t_bits [3; 2; 1] 1
                (example_store [])) as Hdrop.
  cbv zeta in Hdrop. apply Hdrop.
  - split; discriminate.
  - split; discriminate.
  - discriminate.
  - left. reflexivity.
  - reflexivity.
  - repeat (constructor; [split; [discriminate|reflexivity]|]). constructor.
Defined.

Lemma shift_offset_then_symbol_witness :
  shift_offset 3 2 (example_store []) = Val 48 (example_store [])
  /\ shift_symbol 48 2 (example_store []) = Val 3 (example_store []).
Proof.
  destruct (shift_offset_then_symbol uint8_t_bits 3 2 (example_store []))
    as [Hoffset Hsymbol].
  - split; [discriminate|reflexivity].
  - discriminate.
  - split; [discriminate|reflexivity].
  - split; [exact Hoffset|exact Hsymbol].
Defined.

(** *** The codes of the store *)

Lemma embed_features_codes_are_kmers_witness :
  exists s',
    embed_features 2 (counted_store [[65; 67; 71; 84]; [71; 71]]) = Val tt s'
    /\ exists c, features s' !! 0%nat = Some c
                 /\ c !! 1%nat = Some (embed_word 2 [1; 2] 2).
Proof.
  destruct (embed_features_codes_are_kmers uint8_t_bits 2
              (counted_store [[65; 67; 71; 84]; [71; 71]]))
    as (s' & Hrun & Hcodes).
  - reflexivity.
  - vm_compute. reflexivity.
  - lia.
  - vm_compute. discriminate.
  - vm_compute. discriminate.
  - repeat (constructor;
            [split; [vm_compute; discriminate|];
             repeat (constructor; [vm_compute; intuition discriminate|]);
             constructor|]).
    constructor.
  - exists s'. split; [exact Hrun|].
    destruct (Hcodes 0%nat 1%nat [65; 67; 71; 84] eq_refl) as (c & Hc & Hcj).
    + vm_compute. discriminate.
    + exists c. split; [exact Hc|exact Hcj].
Defined.



Lemma embed_features_unembed_witness :
  exists s' c code,
    embed_features 2 (counted_store [[65; 67; 71; 84]]) = Val tt s'
    /\ features s' !! 0%nat = Some c /\ c !! 2%nat = Some code
    /\ take 2 (unembed_word 2 example_to_char code [0; 0] 2) = [71; 84].
Proof.
  destruct (embed_features_unembed uint8_t_bits 2
              (counted_store [[65; 67; 71; 84]]))
    as (s' & Hrun & Hdecode).
  - reflexivity.
  - vm_compute. reflexivity.
  - lia.
  - vm_compute. discriminate.
  - vm_compute. discriminate.
  - repeat (constructor;
            [split; [vm_compute; discriminate|];
             repeat (constructor;
                     [split; [vm_compute; intuition discriminate|reflexivity]|]);
             constructor|]).
    constructor.
  - destruct (Hdecode 0%nat 2%nat [65; 67; 71; 84] [0; 0] eq_refl)
      as (c & code & Hc & Hcode & Hback).
    + vm_compute. discriminate.
    + vm_compute. discriminate.
    + exists s', c, code. split; [exact Hrun|]. split; [exact Hc|].
      split; [exact Hcode|exact Hback].
Defined.

(** *** Windows *)

Lemma position_list_windows_witness :
  obtain_by_position_list 2 (Some [0; 2]) 0 (example_store [[65; 67; 71; 84]])
  = Val 2
      (set_features_field [[65; 67]; [71; 84]]
         (set_single_string (Some [65; 67; 71; 84])
            (example_store [[65; 67; 71; 84]]))).
Proof.
  apply (position_list_windows 2 0 [0; 2] [65; 67; 71; 84]
           (example_store [[65; 67; 71; 84]]));
    try reflexivity; try lia; try discriminate.
  repeat (constructor; [vm_compute; intuition discriminate|]). constructor.
Defined.

Lemma sliding_window_rejects_witness :
  exists e,
    obtain_by_sliding_window 5 1 0 (example_store [[65; 67]])
    = Exc e (example_store [[65; 67]]).
Proof.
  apply sliding_window_rejects. do 4 right.
  split; [reflexivity|]. intros ss H. discriminate.
Defined.

(** *** Codec and loaders *)

Lemma save_compressed_keeps_store_witness :
  save_compressed empty_fs "out" 0 0
    (set_subset_stack [[0]] (example_store [[65]]))
  = Exc (ShogunError "save_compressed() is not possible on subset")
      (set_subset_stack [[0]] (example_store [[65]])).
Proof.
  destruct (save_compressed_keeps_store empty_fs "out" 0 0
              (set_subset_stack [[0]] (example_store [[65]])))
    as (_ & H & _).
  apply H. reflexivity.
Defined.

Lemma load_compressed_rejects_tag_witness :
  exists e,
    load_compressed (write_file empty_fs "in" [83; 71; 0; 48; 0]) "in" true
      (example_store [[65]])
    = Exc e (cleaned (example_store [[65]])).
Proof.
  apply (load_compressed_rejects_tag _ _ _ [83; 71; 0; 48; 0]);
    [reflexivity|discriminate].
Defined.

Lemma load_fastq_one_sequence_per_read_witness :
  exists s',
    load_fastq_file (write_file empty_fs "reads" (fastq_bytes two_reads)) "reads"
      false false (example_store [[84]])
    = Val true s'
    /\ features s' = [[65; 67]; [71; 84]]
    /\ alphabet s' = new_CAlphabet DNA.
Proof.
  destruct (load_fastq_one_sequence_per_read
              (write_file empty_fs "reads" (fastq_bytes two_reads)) "reads"
              false (example_store [[84]])) as [Hok _].
  destruct (Hok two_reads) as (s' & Hrun & Hf & Ha & _).
  - reflexivity.
  - repeat (constructor;
            [repeat split; repeat (constructor; [discriminate|]); constructor|]).
    constructor.
  - repeat (constructor; [discriminate|]). constructor.
  - exists s'. split; [exact Hrun|]. split; [exact Hf|exact Ha].
Defined.

Lemma load_from_directory_rejects_witness :
  load_from_directory (FS := example_registry) false "x" (example_store [[65]])
  = Exc (RequireFailed "Specified path is not a directory!")
      (set_subset_stack [] (example_store [[65]])).
Proof.
  destruct (load_from_directory_rejects (FS := example_registry) false "x"
              (example_store [[65]])) as (H & _).
  apply H. vm_compute. discriminate.
Defined.

End Examples.
